(** * Cyber Neon Snake: the game engine of [js/game.js]

    A shallow embedding of the [Game] class (and of the three [Utils]
    helpers it calls) together with the properties of the engine's
    specification, followed by the other pure helpers and the timer
    wrappers of [class Utils] and the volume controls of
    [class AudioManager] ([js/audio.js]).

    Modelling conventions.
    - Grid coordinates, counters and millisecond delays are integers ([Z]);
      tick intervals and the results of [Math.random()] are rationals
      ([Q]), so the factor [0.7] of the speed boost is the exact [7/10].
      The code computes them on binary64 numbers; the speed formula is
      given on those as well ([getCurrentSpeedBinary64]).
    - [Math.random()] is an input: a sequence [Rand] of draws consumed in
      call order.  [Date.now()] is an input of the tick (one clock reading
      per synchronous tick).
    - Every [while (!validPosition)] loop runs on [fuel]: the number of
      iterations it may perform.  [Hang] is the outcome of a loop that is
      still searching when the fuel is used up.
    - A handle returned by [setInterval]/[setTimeout] is modelled by the
      delay it was armed with; [None] is the [null] handle.
    - Handlers registered with [on] are observers: a dispatched event is
      appended to the trace [emitted], newest first.
    - The embedding covers integer cells.  A tick on an empty body (only
      possible when [initialSnakeLength <= 0]) leaves that domain in the
      source (it builds a [NaN] head or reads a field of [undefined]) and
      is the outcome [Crash]. *)

From Stdlib Require Import ZArith QArith Qround Qminmax Lqa List String Ascii Bool Lia.
From Stdlib Require DecimalString HexadecimalString DecimalPos SpecFloat.
Import ListNotations.

#[local] Open Scope string_scope.
#[local] Open Scope Z_scope.

(** ** Data model *)

Record Cell : Type := mkCell { cell_x : Z; cell_y : Z }.

Record Food : Type := mkFood { food_pos : Cell; food_type : string }.

Record Config : Type := mkConfig {
  gridSize : Z;
  width : Z;
  height : Z;
  speed : Q;
  speedIncrease : Q;
  maxSpeed : Q;
  initialSnakeLength : Z;
  mode : string;
  timeLimit : Z;
  obstacleCount : Z;
  specialFoodChance : Q;
  specialFoodDuration : Z
}.

(** The argument of the constructor and of [setConfig]: an object that
    carries some of the configuration keys. *)
Record ConfigPatch : Type := mkPatch {
  p_gridSize : option Z;
  p_width : option Z;
  p_height : option Z;
  p_speed : option Q;
  p_speedIncrease : option Q;
  p_maxSpeed : option Q;
  p_initialSnakeLength : option Z;
  p_mode : option string;
  p_timeLimit : option Z;
  p_obstacleCount : option Z;
  p_specialFoodChance : option Q;
  p_specialFoodDuration : option Z
}.

Record State : Type := mkState {
  running : bool;
  paused : bool;
  gameOver : bool;
  score : Z;
  time : Z;
  foodEaten : Z;
  specialFoodEaten : Z;
  powerUpActive : bool;
  powerUpType : option string;
  powerUpEndTime : Z
}.

Record Snake : Type := mkSnake {
  body : list Cell;
  direction : string;
  nextDirection : string;
  growing : bool
}.

Record Summary : Type := mkSummary {
  sum_score : Z;
  sum_time : Z;
  sum_foodEaten : Z;
  sum_specialFoodEaten : Z;
  sum_mode : string
}.

Inductive Event : Type :=
| ScoreChange (s : Z)
| GameOver (s : Summary)
| PowerUpActivate (t : option string)
| PowerUpEnd (t : option string)
| FoodEaten (n : Z)
| SpecialFoodEaten (n : Z)
| TimeUpdate (t : Z).

Record Callbacks : Type := mkCallbacks {
  onScoreChange : bool;
  onGameOver : bool;
  onPowerUpActivate : bool;
  onPowerUpEnd : bool;
  onFoodEaten : bool;
  onSpecialFoodEaten : bool;
  onTimeUpdate : bool
}.

Record Game : Type := mkGame {
  config : Config;
  state : State;
  snake : Snake;
  food : Food;
  obstacles : list Cell;
  specialFoodTimer : option Z;
  gameLoopInterval : option Q;
  gameTimeInterval : option Q;
  callbacks : Callbacks;
  emitted : list Event
}.

Record RenderData : Type := mkRenderData {
  rd_snake : list Cell;
  rd_food : Food;
  rd_obstacles : list Cell;
  rd_gridSize : Z;
  rd_width : Z;
  rd_height : Z;
  rd_powerUp : option string
}.

(** ** Field updates *)

Definition set_config (c : Config) (g : Game) : Game :=
  mkGame c (state g) (snake g) (food g) (obstacles g) (specialFoodTimer g)
         (gameLoopInterval g) (gameTimeInterval g) (callbacks g) (emitted g).

Definition set_state (s : State) (g : Game) : Game :=
  mkGame (config g) s (snake g) (food g) (obstacles g) (specialFoodTimer g)
         (gameLoopInterval g) (gameTimeInterval g) (callbacks g) (emitted g).

Definition set_snake (s : Snake) (g : Game) : Game :=
  mkGame (config g) (state g) s (food g) (obstacles g) (specialFoodTimer g)
         (gameLoopInterval g) (gameTimeInterval g) (callbacks g) (emitted g).

Definition set_food (f : Food) (g : Game) : Game :=
  mkGame (config g) (state g) (snake g) f (obstacles g) (specialFoodTimer g)
         (gameLoopInterval g) (gameTimeInterval g) (callbacks g) (emitted g).

Definition set_obstacles (o : list Cell) (g : Game) : Game :=
  mkGame (config g) (state g) (snake g) (food g) o (specialFoodTimer g)
         (gameLoopInterval g) (gameTimeInterval g) (callbacks g) (emitted g).

Definition set_specialFoodTimer (t : option Z) (g : Game) : Game :=
  mkGame (config g) (state g) (snake g) (food g) (obstacles g) t
         (gameLoopInterval g) (gameTimeInterval g) (callbacks g) (emitted g).

Definition set_gameLoopInterval (t : option Q) (g : Game) : Game :=
  mkGame (config g) (state g) (snake g) (food g) (obstacles g) (specialFoodTimer g)
         t (gameTimeInterval g) (callbacks g) (emitted g).

Definition set_gameTimeInterval (t : option Q) (g : Game) : Game :=
  mkGame (config g) (state g) (snake g) (food g) (obstacles g) (specialFoodTimer g)
         (gameLoopInterval g) t (callbacks g) (emitted g).

Definition set_callbacks (c : Callbacks) (g : Game) : Game :=
  mkGame (config g) (state g) (snake g) (food g) (obstacles g) (specialFoodTimer g)
         (gameLoopInterval g) (gameTimeInterval g) c (emitted g).

(** A handler is called only when one is registered. *)
Definition emit (registered : bool) (e : Event) (g : Game) : Game :=
  if registered
  then mkGame (config g) (state g) (snake g) (food g) (obstacles g) (specialFoodTimer g)
              (gameLoopInterval g) (gameTimeInterval g) (callbacks g) (e :: emitted g)
  else g.

Definition set_lifecycle (r p o : bool) (s : State) : State :=
  mkState r p o (score s) (time s) (foodEaten s) (specialFoodEaten s)
          (powerUpActive s) (powerUpType s) (powerUpEndTime s).

Definition set_score (n : Z) (s : State) : State :=
  mkState (running s) (paused s) (gameOver s) n (time s) (foodEaten s)
          (specialFoodEaten s) (powerUpActive s) (powerUpType s) (powerUpEndTime s).

Definition set_time (n : Z) (s : State) : State :=
  mkState (running s) (paused s) (gameOver s) (score s) n (foodEaten s)
          (specialFoodEaten s) (powerUpActive s) (powerUpType s) (powerUpEndTime s).

Definition set_foodEaten (n : Z) (s : State) : State :=
  mkState (running s) (paused s) (gameOver s) (score s) (time s) n
          (specialFoodEaten s) (powerUpActive s) (powerUpType s) (powerUpEndTime s).

Definition set_specialFoodEaten (n : Z) (s : State) : State :=
  mkState (running s) (paused s) (gameOver s) (score s) (time s) (foodEaten s)
          n (powerUpActive s) (powerUpType s) (powerUpEndTime s).

Definition set_powerUp (a : bool) (t : option string) (e : Z) (s : State) : State :=
  mkState (running s) (paused s) (gameOver s) (score s) (time s) (foodEaten s)
          (specialFoodEaten s) a t e.

Definition set_body (b : list Cell) (s : Snake) : Snake :=
  mkSnake b (direction s) (nextDirection s) (growing s).

Definition set_direction (d : string) (s : Snake) : Snake :=
  mkSnake (body s) d (nextDirection s) (growing s).

Definition set_nextDirection (d : string) (s : Snake) : Snake :=
  mkSnake (body s) (direction s) d (growing s).

Definition set_growing (b : bool) (s : Snake) : Snake :=
  mkSnake (body s) (direction s) (nextDirection s) b.

(** ** Randomness and outcomes *)

(** The successive results of [Math.random()]. *)
Definition Rand : Type := nat -> Q.

Inductive Outcome (A : Type) : Type :=
| Done (a : A)
| Hang
| Crash.

Arguments Done {A} a.
Arguments Hang {A}.
Arguments Crash {A}.

(** Computations that read the random source. *)
Definition M (A : Type) : Type := Rand -> Outcome (A * Rand).

Definition ret {A : Type} (a : A) : M A := fun r => Done (a, r).

Definition bind {A B : Type} (c : M A) (k : A -> M B) : M B :=
  fun r => match c r with
           | Done (a, r') => k a r'
           | Hang => Hang
           | Crash => Crash
           end.

Definition random : M Q := fun r => Done (r 0%nat, fun n => r (S n)).

Definition crash {A : Type} : M A := fun _ => Crash.

Definition hang {A : Type} : M A := fun _ => Hang.

Notation "x <- c ;; k" := (bind c (fun x => k))
  (at level 61, c at next level, right associativity).

Definition Qltb (a b : Q) : bool := negb (Qle_bool b a).

(** ** Utils *)

(** [Utils.getRandomInt(min, max)], given the draw [u] of its
    [Math.random()] call; [min] and [max] are integers, so [Math.ceil] and
    [Math.floor] leave them as they are. *)
Definition getRandomInt (min max : Z) : M Z :=
  u <- random ;;
  ret (Qfloor (u * inject_Z (max - min + 1)) + min).

(** [Utils.checkCollision(obj1, obj2)]. *)
Definition checkCollisionCells (obj1 obj2 : Cell) : bool :=
  (cell_x obj1 =? cell_x obj2) && (cell_y obj1 =? cell_y obj2).

(** [Utils.checkCollisionWithArray(obj, array, ignoreHead)]. *)
Definition checkCollisionWithArray (obj : Cell) (array : list Cell) (ignoreHead : bool) : bool :=
  let startIndex := if ignoreHead then 1%nat else 0%nat in
  existsb (checkCollisionCells obj) (skipn startIndex array).

(** ** Utils: the helpers outside the engine *)

(** The remaining pure helpers of [class Utils], and its two timer
    wrappers.  Conventions:
    - [clamp] works on numbers that are not [NaN] ([Q]: the minimum and the
      maximum of two doubles are exact);
    - the other helpers work on integers whose arithmetic is exact in
      JavaScript numbers (below [2^53] in absolute value), and on strings of
      code units below 256;
    - the built-ins they call ([toString], [padStart], [parseInt], the
      32-bit operators) are modelled next to them. *)

(** [Utils.clamp(value, min, max)]. *)
Definition clamp (value min max : Q) : Q :=
  Qmin (Qmax value min) max.

Record Rect : Type := mkRect {
  rect_x : Z;
  rect_y : Z;
  rect_width : Z;
  rect_height : Z
}.

(** [Utils.checkAABBCollision(rect1, rect2)]. *)
Definition checkAABBCollision (rect1 rect2 : Rect) : bool :=
  (rect_x rect1 <? rect_x rect2 + rect_width rect2)
  && (rect_x rect1 + rect_width rect1 >? rect_x rect2)
  && (rect_y rect1 <? rect_y rect2 + rect_height rect2)
  && (rect_y rect1 + rect_height rect1 >? rect_y rect2).

(** [Number.prototype.toString(10)] and [toString(16)] on an integer: the
    digits, lower case, after a minus sign for a negative number. *)
Definition toString (n : Z) : string :=
  DecimalString.NilZero.string_of_int (Z.to_int n).

Definition toStringHex (n : Z) : string :=
  HexadecimalString.NilZero.string_of_int (Z.to_hex_int n).

(** [String.prototype.padStart(targetLength, pad)] for a pad of one
    character: a string that is long enough is returned as it is. *)
Definition padStart (targetLength : nat) (pad : ascii) (s : string) : string :=
  string_of_list_ascii (repeat pad (targetLength - String.length s)) ++ s.

(** [Utils.formatTime(seconds)]: [Math.floor(seconds / 60)] is the floored
    quotient, [seconds % 60] the remainder with the sign of [seconds]. *)
Definition formatTime (seconds : Z) : string :=
  let mins := seconds / 60 in
  let secs := Z.rem seconds 60 in
  padStart 2 "0" (toString mins) ++ ":" ++ padStart 2 "0" (toString secs).

Record Rgb : Type := mkRgb { rgb_r : Z; rgb_g : Z; rgb_b : Z }.

(** The callback of [rgbToHex]: one component in base 16, with a leading
    zero when it has one digit. *)
Definition hexPair (x : Z) : string :=
  let hex := toStringHex x in
  if (String.length hex =? 1)%nat then "0" ++ hex else hex.

(** [Utils.rgbToHex(r, g, b)]. *)
Definition rgbToHex (r g b : Z) : string :=
  "#" ++ String.concat "" (map hexPair [r; g; b]).

(** The values [parseInt] can return. *)
Inductive JsNumber : Type :=
| NotANumber
| Infinite (negative : bool)
| Integer (value : Z).

(** The white space [parseInt] skips, among the code units below 256: TAB,
    LF, VT, FF, CR, SP and NBSP. *)
Definition isWhiteSpace (c : ascii) : bool :=
  existsb (Ascii.eqb c) ["009"; "010"; "011"; "012"; "013"; " "; "160"]%char.

Fixpoint skipWhiteSpace (s : string) : string :=
  match s with
  | String c t => if isWhiteSpace c then skipWhiteSpace t else s
  | EmptyString => s
  end.

(** The value of a digit of base 16, in either case. *)
Definition hexDigitValue (c : ascii) : option Z :=
  let n := Z.of_N (N_of_ascii c) in
  if (48 <=? n) && (n <=? 57) then Some (n - 48)
  else if (97 <=? n) && (n <=? 102) then Some (n - 87)
  else if (65 <=? n) && (n <=? 70) then Some (n - 55)
  else None.

(** The values of the longest prefix of digits. *)
Fixpoint hexDigits (s : string) : list Z :=
  match s with
  | String c t =>
      match hexDigitValue c with
      | Some d => d :: hexDigits t
      | None => []
      end
  | EmptyString => []
  end.

(** The JavaScript number of an integer: the integer itself below [2^53],
    and beyond that the nearest number with 53 significant bits, a tie going
    to the even one, or an infinity from [2^1024] on. *)
Definition toDouble (z : Z) : JsNumber :=
  let a := Z.abs z in
  if a <? 2 ^ 53 then Integer z
  else
    let e := Z.log2 a - 52 in
    let q := Z.shiftr a e in
    let rest := a - Z.shiftl q e in
    let half := Z.shiftl 1 (e - 1) in
    let q' := if (half <? rest) || ((half =? rest) && Z.odd q) then q + 1 else q in
    let v := Z.shiftl q' e in
    if 2 ^ 1024 <=? v then Infinite (z <? 0)
    else Integer (if z <? 0 then - v else v).

(** [parseInt(s, 16)]: white space, a sign and a [0x] prefix are skipped,
    the digits that follow are read up to the first other character, and
    there is no number when there is no digit. *)
Definition parseInt16 (s : string) : JsNumber :=
  let s1 := skipWhiteSpace s in
  let negative := match s1 with String "-" _ => true | _ => false end in
  let s2 := match s1 with
            | String "-" t => t
            | String "+" t => t
            | _ => s1
            end in
  let s3 := match s2 with
            | String "0" (String "x" t) => t
            | String "0" (String "X" t) => t
            | _ => s2
            end in
  match hexDigits s3 with
  | [] => NotANumber
  | ds =>
      let mathInt := fold_left (fun acc d => 16 * acc + d) ds 0 in
      toDouble (if negative then - mathInt else mathInt)
  end.

(** The conversion the operators [>>] and [&] apply to an operand. *)
Definition toInt32 (n : JsNumber) : Z :=
  match n with
  | Integer z =>
      let m := z mod 2 ^ 32 in
      if 2 ^ 31 <=? m then m - 2 ^ 32 else m
  | _ => 0
  end.

(** [hex.replace(/^#/, '')]. *)
Definition stripHash (hex : string) : string :=
  match hex with
  | String "#" t => t
  | _ => hex
  end.

(** [hex.split('').map(char => char + char).join('')]. *)
Fixpoint doubleChars (s : string) : string :=
  match s with
  | String c t => String c (String c (doubleChars t))
  | EmptyString => EmptyString
  end.

(** [Utils.hexToRgb(hex)]. *)
Definition hexToRgb (hex : string) : Rgb :=
  let hex1 := stripHash hex in
  let hex2 := if (String.length hex1 =? 3)%nat then doubleChars hex1 else hex1 in
  let bigint := parseInt16 hex2 in
  {| rgb_r := Z.land (Z.shiftr (toInt32 bigint) 16) 255;
     rgb_g := Z.land (Z.shiftr (toInt32 bigint) 8) 255;
     rgb_b := Z.land (toInt32 bigint) 255 |}.

(** [Utils.throttle(func, limit)]: the state of the function it returns.
    [inThrottle] is the variable of the closure ([undefined] at first, which
    counts as false), [releaseTimers] the number of pending timeouts (each
    of them runs [inThrottle = false]), and [throttleApplied] the arguments
    [func] has been applied to, oldest first.  [func] is taken to return
    normally. *)
Record Throttled (A : Type) : Type := mkThrottled {
  inThrottle : bool;
  releaseTimers : nat;
  throttleApplied : list A
}.

Arguments mkThrottled {A}.
Arguments inThrottle {A}.
Arguments releaseTimers {A}.
Arguments throttleApplied {A}.

Definition throttle {A : Type} : Throttled A := mkThrottled false 0 [].

(** A call of the throttled function. *)
Definition throttledCall {A : Type} (args : A) (t : Throttled A) : Throttled A :=
  if inThrottle t then t
  else mkThrottled true (S (releaseTimers t)) (throttleApplied t ++ [args]).

(** A pending timeout fires. *)
Definition throttleTimeout {A : Type} (t : Throttled A) : Throttled A :=
  match releaseTimers t with
  | O => t
  | S n => mkThrottled false n (throttleApplied t)
  end.

Inductive WrapperEvent (A : Type) : Type :=
| Invoke (args : A)
| Fire (timer : nat).

Arguments Invoke {A}.
Arguments Fire {A}.

Definition throttleStep {A : Type} (t : Throttled A) (e : WrapperEvent A) : Throttled A :=
  match e with
  | Invoke args => throttledCall args t
  | Fire _ => throttleTimeout t
  end.

(** [Utils.debounce(func, delay)]: the state of the function it returns.
    [debounceHandle] is the variable [timeout] of the closure,
    [debouncePending] the timeouts that are armed, each with its handle and
    the arguments its callback passes to [func], [debounceNext] the handle
    [setTimeout] returns next, and [debounceApplied] the arguments [func]
    has been applied to, oldest first. *)
Record Debounced (A : Type) : Type := mkDebounced {
  debounceHandle : option nat;
  debouncePending : list (nat * A);
  debounceNext : nat;
  debounceApplied : list A
}.

Arguments mkDebounced {A}.
Arguments debounceHandle {A}.
Arguments debouncePending {A}.
Arguments debounceNext {A}.
Arguments debounceApplied {A}.

Definition debounce {A : Type} : Debounced A := mkDebounced None [] 1 [].

(** [clearTimeout(handle)]: nothing happens for [undefined] and for a handle
    that is not armed. *)
Definition clearTimeout {A : Type} (handle : option nat) (timers : list (nat * A)) : list (nat * A) :=
  match handle with
  | None => timers
  | Some h => filter (fun t => negb (fst t =? h)%nat) timers
  end.

(** A call of the debounced function. *)
Definition debouncedCall {A : Type} (args : A) (d : Debounced A) : Debounced A :=
  mkDebounced (Some (debounceNext d))
              (clearTimeout (debounceHandle d) (debouncePending d)
               ++ [(debounceNext d, args)])
              (S (debounceNext d))
              (debounceApplied d).

(** The timeout with the given handle fires, if it is armed. *)
Definition debounceTimeout {A : Type} (handle : nat) (d : Debounced A) : Debounced A :=
  match find (fun t => (fst t =? handle)%nat) (debouncePending d) with
  | Some (_, args) =>
      mkDebounced (debounceHandle d)
                  (clearTimeout (Some handle) (debouncePending d))
                  (debounceNext d)
                  (debounceApplied d ++ [args])
  | None => d
  end.

Definition debounceStep {A : Type} (d : Debounced A) (e : WrapperEvent A) : Debounced A :=
  match e with
  | Invoke args => debouncedCall args d
  | Fire handle => debounceTimeout handle d
  end.

(** The character of a decimal digit. *)
Definition digitChar (d : Z) : ascii := ascii_of_N (48 + Z.to_N d).

(** The cells a rectangle covers, on one axis: [from, from + size). *)
Definition covers (from size i : Z) : Prop := from <= i < from + size.

(** The character of a digit of base 16, lower case. *)
Definition hexChar (d : Z) : ascii :=
  if d <? 10 then ascii_of_N (48 + Z.to_N d) else ascii_of_N (87 + Z.to_N d).

(** At most one timeout of a debounced function is armed, and the variable
    of the closure holds its handle. *)
Definition debounceInv {A : Type} (d : Debounced A) : Prop :=
  debouncePending d = []
  \/ exists h a, debouncePending d = [(h, a)] /\ debounceHandle d = Some h.

(** [Utils.isPointInRect(point, rect)]. *)
Definition isPointInRect (point : Cell) (rect : Rect) : bool :=
  (cell_x point >=? rect_x rect)
  && (cell_x point <=? rect_x rect + rect_width rect)
  && (cell_y point >=? rect_y rect)
  && (cell_y point <=? rect_y rect + rect_height rect).

(** ** AudioManager: the volume controls *)

(** The part of [class AudioManager] that sets volumes: the settings, the
    values assigned to the [gain.value] of the three gain nodes, and the
    entries of [audioBuffers], each a decoded buffer or a fallback
    [HTMLAudioElement] with the value assigned to its [volume].  An element
    is identified by a number, and [currentMusicElement] is the element of
    [currentMusic], if it has one.  Volumes are exact rationals.  When
    [supported] is false the constructor has returned before creating the
    other fields, and no method of the model reads or writes them. *)
Record Settings : Type := mkSettings {
  masterVolume : Q;
  musicVolume : Q;
  sfxVolume : Q;
  musicEnabled : bool;
  sfxEnabled : bool
}.

Inductive AudioEntry : Type :=
| DecodedBuffer
| AudioElement (element : nat) (volume : Q).

Record AudioManager : Type := mkAudioManager {
  supported : bool;
  settings : Settings;
  masterGain : Q;
  sfxGain : Q;
  musicGain : Q;
  audioBuffers : list (string * AudioEntry);
  currentMusicElement : option nat
}.

Definition isCurrentMusic (a : AudioManager) (element : nat) : bool :=
  match currentMusicElement a with
  | Some e => (e =? element)%nat
  | None => false
  end.

(** [applyVolumeSettings()]. *)
Definition applyVolumeSettings (a : AudioManager) : AudioManager :=
  if negb (supported a) then a
  else
    let s := settings a in
    {| supported := supported a;
       settings := s;
       masterGain := masterVolume s;
       sfxGain := if sfxEnabled s then sfxVolume s else 0%Q;
       musicGain := if musicEnabled s then musicVolume s else 0%Q;
       audioBuffers :=
         map (fun entry =>
                match entry with
                | (name, AudioElement element _) =>
                    if isCurrentMusic a element
                    then (name, AudioElement element (musicVolume s * masterVolume s))
                    else (name, AudioElement element (sfxVolume s * masterVolume s))
                | (name, DecodedBuffer) => entry
                end)
             (audioBuffers a);
       currentMusicElement := currentMusicElement a |}.

Definition withSettings (s : Settings) (a : AudioManager) : AudioManager :=
  {| supported := supported a;
     settings := s;
     masterGain := masterGain a;
     sfxGain := sfxGain a;
     musicGain := musicGain a;
     audioBuffers := audioBuffers a;
     currentMusicElement := currentMusicElement a |}.

(** [setMasterVolume(volume)], [setSfxVolume(volume)] and
    [setMusicVolume(volume)]. *)
Definition setMasterVolume (volume : Q) (a : AudioManager) : AudioManager :=
  if negb (supported a) then a
  else
    let s := settings a in
    applyVolumeSettings
      (withSettings (mkSettings (Qmax 0 (Qmin 1 volume)) (musicVolume s) (sfxVolume s)
                                (musicEnabled s) (sfxEnabled s)) a).

Definition setSfxVolume (volume : Q) (a : AudioManager) : AudioManager :=
  if negb (supported a) then a
  else
    let s := settings a in
    applyVolumeSettings
      (withSettings (mkSettings (masterVolume s) (musicVolume s) (Qmax 0 (Qmin 1 volume))
                                (musicEnabled s) (sfxEnabled s)) a).

Definition setMusicVolume (volume : Q) (a : AudioManager) : AudioManager :=
  if negb (supported a) then a
  else
    let s := settings a in
    applyVolumeSettings
      (withSettings (mkSettings (masterVolume s) (Qmax 0 (Qmin 1 volume)) (sfxVolume s)
                                (musicEnabled s) (sfxEnabled s)) a).

(** The constructor, in a browser with the Web Audio API: the default
    settings, applied to the gain nodes; nothing is loaded and no music
    plays. *)
Definition newAudioManager : AudioManager :=
  applyVolumeSettings
    {| supported := true;
       settings := mkSettings (7 # 10) (1 # 2) (8 # 10) true true;
       masterGain := 1%Q;
       sfxGain := 1%Q;
       musicGain := 1%Q;
       audioBuffers := [];
       currentMusicElement := None |}.

Inductive VolumeCall : Type :=
| SetMasterVolume (volume : Q)
| SetSfxVolume (volume : Q)
| SetMusicVolume (volume : Q).

Definition volumeCall (a : AudioManager) (c : VolumeCall) : AudioManager :=
  match c with
  | SetMasterVolume v => setMasterVolume v a
  | SetSfxVolume v => setSfxVolume v a
  | SetMusicVolume v => setMusicVolume v a
  end.

(** A volume lies between 0 and 1. *)
Definition unitVolume (v : Q) : Prop := (0 <= v)%Q /\ (v <= 1)%Q.

Definition settingsInRange (s : Settings) : Prop :=
  unitVolume (masterVolume s) /\ unitVolume (musicVolume s) /\ unitVolume (sfxVolume s).

(** The gain nodes and the fallback elements carry the volumes of the
    settings. *)
Definition volumesApplied (a : AudioManager) : Prop :=
  masterGain a = masterVolume (settings a)
  /\ sfxGain a = (if sfxEnabled (settings a) then sfxVolume (settings a) else 0%Q)
  /\ musicGain a = (if musicEnabled (settings a) then musicVolume (settings a) else 0%Q)
  /\ forall name element v,
      In (name, AudioElement element v) (audioBuffers a) ->
      unitVolume v
      /\ v = (if isCurrentMusic a element
              then musicVolume (settings a) * masterVolume (settings a)
              else sfxVolume (settings a) * masterVolume (settings a))%Q.

(** Sample: a manager that fell back to elements for two of its files and
    plays the second one as music. *)
Definition sampleAudio : AudioManager :=
  {| supported := true;
     settings := mkSettings (7 # 10) (1 # 2) (8 # 10) true true;
     masterGain := 7 # 10;
     sfxGain := 8 # 10;
     musicGain := 1 # 2;
     audioBuffers := [("eat", AudioElement 1 1); ("gameOver", DecodedBuffer);
                      ("backgroundMusic", AudioElement 2 1)];
     currentMusicElement := Some 2%nat |}.

(** ** The Game class *)

Definition defaultConfig : Config :=
  {| gridSize := 20; width := 30; height := 20;
     speed := 150 # 1; speedIncrease := 2 # 1; maxSpeed := 50 # 1;
     initialSnakeLength := 3; mode := "classic"; timeLimit := 120;
     obstacleCount := 5; specialFoodChance := 1 # 10;
     specialFoodDuration := 5000 |}.

Definition emptyPatch : ConfigPatch :=
  mkPatch None None None None None None None None None None None None.

Definition override {A : Type} (old : A) (new : option A) : A :=
  match new with Some v => v | None => old end.

(** The object spread [{...this.config, ...config}]. *)
Definition mergeConfig (c : Config) (p : ConfigPatch) : Config :=
  {| gridSize := override (gridSize c) (p_gridSize p);
     width := override (width c) (p_width p);
     height := override (height c) (p_height p);
     speed := override (speed c) (p_speed p);
     speedIncrease := override (speedIncrease c) (p_speedIncrease p);
     maxSpeed := override (maxSpeed c) (p_maxSpeed p);
     initialSnakeLength := override (initialSnakeLength c) (p_initialSnakeLength p);
     mode := override (mode c) (p_mode p);
     timeLimit := override (timeLimit c) (p_timeLimit p);
     obstacleCount := override (obstacleCount c) (p_obstacleCount p);
     specialFoodChance := override (specialFoodChance c) (p_specialFoodChance p);
     specialFoodDuration := override (specialFoodDuration c) (p_specialFoodDuration p) |}.

Definition initialState : State :=
  {| running := false; paused := false; gameOver := false;
     score := 0; time := 0; foodEaten := 0; specialFoodEaten := 0;
     powerUpActive := false; powerUpType := None; powerUpEndTime := 0 |}.

Definition noCallbacks : Callbacks :=
  mkCallbacks false false false false false false false.

(** The fields as the constructor sets them before it calls [init]. *)
Definition blankGame (c : Config) : Game :=
  {| config := c;
     state := initialState;
     snake := {| body := []; direction := "right"; nextDirection := "right";
                 growing := false |};
     food := {| food_pos := mkCell 0 0; food_type := "normal" |};
     obstacles := [];
     specialFoodTimer := None;
     gameLoopInterval := None;
     gameTimeInterval := None;
     callbacks := noCallbacks;
     emitted := [] |}.

Definition hasPowerUp (g : Game) (kind : string) : bool :=
  powerUpActive (state g) &&
  match powerUpType (state g) with
  | Some t => String.eqb t kind
  | None => false
  end.

Definition initSnake (g : Game) : Game :=
  let centerX := width (config g) / 2 in
  let centerY := height (config g) / 2 in
  let cells := map (fun i => mkCell (centerX - Z.of_nat i) centerY)
                   (seq 0 (Z.to_nat (initialSnakeLength (config g)))) in
  set_snake (mkSnake cells "right" "right" (growing (snake g))) g.

(** The loop of [spawnObstacle]; it returns the accepted candidate. *)
Fixpoint spawnObstacle_search (fuel : nat) (g : Game) : M Cell :=
  match fuel with
  | O => hang
  | S fuel' =>
      ox <- getRandomInt 0 (width (config g) - 1) ;;
      oy <- getRandomInt 0 (height (config g) - 1) ;;
      let obstacle := mkCell ox oy in
      let collidesWithSnake := checkCollisionWithArray obstacle (body (snake g)) false in
      let collidesWithFood := checkCollisionCells obstacle (food_pos (food g)) in
      let collidesWithObstacles := existsb (checkCollisionCells obstacle) (obstacles g) in
      if negb collidesWithSnake && negb collidesWithFood && negb collidesWithObstacles
      then ret obstacle
      else spawnObstacle_search fuel' g
  end.

Definition spawnObstacle (fuel : nat) (g : Game) : M Game :=
  obstacle <- spawnObstacle_search fuel g ;;
  ret (set_obstacles (obstacles g ++ [obstacle]) g).

Fixpoint spawnObstacles (fuel : nat) (count : nat) (g : Game) : M Game :=
  match count with
  | O => ret g
  | S count' => g' <- spawnObstacle fuel g ;; spawnObstacles fuel count' g'
  end.

Definition initObstacles (fuel : nat) (g : Game) : M Game :=
  spawnObstacles fuel (Z.to_nat (obstacleCount (config g))) (set_obstacles [] g).

Definition clearTimers (g : Game) : Game :=
  set_specialFoodTimer None (set_gameTimeInterval None (set_gameLoopInterval None g)).

Definition resetState (g : Game) : Game :=
  clearTimers (set_state initialState g).

(** The loop of [spawnFood]; every iteration overwrites [this.food]. *)
Fixpoint spawnFood_search (fuel : nat) (isSpecial : bool) (g : Game) : M Game :=
  match fuel with
  | O => hang
  | S fuel' =>
      fx <- getRandomInt 0 (width (config g) - 1) ;;
      fy <- getRandomInt 0 (height (config g) - 1) ;;
      let f := mkFood (mkCell fx fy) (if isSpecial then "special" else "normal") in
      let g' := set_food f g in
      let collidesWithSnake := checkCollisionWithArray (food_pos f) (body (snake g')) false in
      let collidesWithObstacles := existsb (checkCollisionCells (food_pos f)) (obstacles g') in
      if negb collidesWithSnake && negb collidesWithObstacles
      then ret g'
      else spawnFood_search fuel' isSpecial g'
  end.

Definition spawnFood (fuel : nat) (g : Game) : M Game :=
  let g0 := set_specialFoodTimer None g in
  u <- random ;;
  let isSpecial := Qltb u (specialFoodChance (config g0)) in
  g1 <- spawnFood_search fuel isSpecial g0 ;;
  ret (if isSpecial
       then set_specialFoodTimer (Some (specialFoodDuration (config g1))) g1
       else g1).

(** The callback armed by [spawnFood] for a special food. *)
Definition specialFoodTimeout (fuel : nat) (g : Game) : M Game :=
  if String.eqb (food_type (food g)) "special" then spawnFood fuel g else ret g.

Definition init (fuel : nat) (g : Game) : M Game :=
  let g1 := initSnake g in
  g2 <- spawnFood fuel g1 ;;
  g3 <- (if String.eqb (mode (config g2)) "obstacle" then initObstacles fuel g2 else ret g2) ;;
  ret (resetState g3).

(** [new Game(config)]. *)
Definition newGame (fuel : nat) (p : ConfigPatch) : M Game :=
  init fuel (blankGame (mergeConfig defaultConfig p)).

Definition getCurrentSpeed (g : Game) : Q :=
  let speed0 := (speed (config g) - inject_Z (foodEaten (state g)) * speedIncrease (config g))%Q in
  let speed1 := if hasPowerUp g "speedBoost" then (speed0 * (7 # 10))%Q else speed0 in
  Qmax (maxSpeed (config g)) speed1.

Definition endGame (g : Game) : Game :=
  if negb (running (state g)) then g
  else
    let g1 := set_state (set_lifecycle false (paused (state g)) true (state g)) g in
    let g2 := clearTimers g1 in
    emit (onGameOver (callbacks g2))
         (GameOver {| sum_score := score (state g2); sum_time := time (state g2);
                      sum_foodEaten := foodEaten (state g2);
                      sum_specialFoodEaten := specialFoodEaten (state g2);
                      sum_mode := mode (config g2) |})
         g2.

(** The one-second callback armed by [start] and [resume]. *)
Definition timeTick (g : Game) : Game :=
  let g1 := set_state (set_time (time (state g) + 1) (state g)) g in
  let g2 := if String.eqb (mode (config g1)) "timeAttack"
               && (time (state g1) >=? timeLimit (config g1))
            then endGame g1 else g1 in
  emit (onTimeUpdate (callbacks g2)) (TimeUpdate (time (state g2))) g2.

Definition start (g : Game) : Game :=
  if running (state g) then g
  else
    let g1 := set_state (set_lifecycle true false false (state g)) g in
    let g2 := set_gameLoopInterval (Some (getCurrentSpeed g1)) g1 in
    set_gameTimeInterval (Some (1000 # 1)) g2.

Definition pause (g : Game) : Game :=
  if negb (running (state g)) || paused (state g) then g
  else
    let g1 := set_state (set_lifecycle (running (state g)) true (gameOver (state g)) (state g)) g in
    set_gameTimeInterval None (set_gameLoopInterval None g1).

Definition resume (g : Game) : Game :=
  if negb (running (state g)) || negb (paused (state g)) then g
  else
    let g1 := set_state (set_lifecycle (running (state g)) false (gameOver (state g)) (state g)) g in
    let g2 := set_gameLoopInterval (Some (getCurrentSpeed g1)) g1 in
    set_gameTimeInterval (Some (1000 # 1)) g2.

Definition reset (fuel : nat) (g : Game) : M Game :=
  init fuel (clearTimers g).

Definition lift {A : Type} (o : Outcome A) : M A :=
  fun r => match o with
           | Done a => Done (a, r)
           | Hang => Hang
           | Crash => Crash
           end.

(** The [switch] of [moveSnake]; it has no default case. *)
Definition shiftHead (d : string) (head : Cell) : Cell :=
  if String.eqb d "up" then mkCell (cell_x head) (cell_y head - 1)
  else if String.eqb d "down" then mkCell (cell_x head) (cell_y head + 1)
  else if String.eqb d "left" then mkCell (cell_x head - 1) (cell_y head)
  else if String.eqb d "right" then mkCell (cell_x head + 1) (cell_y head)
  else head.

(** The four wrap-around assignments, each testing the value the previous
    one left. *)
Definition wrapHead (c : Config) (head : Cell) : Cell :=
  let x1 := if cell_x head <? 0 then width c - 1 else cell_x head in
  let x2 := if x1 >=? width c then 0 else x1 in
  let y1 := if cell_y head <? 0 then height c - 1 else cell_y head in
  let y2 := if y1 >=? height c then 0 else y1 in
  mkCell x2 y2.

(** The head cell [moveSnake] builds from the current head. *)
Definition newHead (g : Game) (head : Cell) : Cell :=
  let head1 := shiftHead (direction (snake g)) head in
  if hasPowerUp g "wallPass" then wrapHead (config g) head1 else head1.

Definition moveSnake (g : Game) : Outcome Game :=
  match body (snake g) with
  | [] => Crash
  | head0 :: _ =>
      let head := newHead g head0 in
      let unshifted := head :: body (snake g) in
      if negb (growing (snake g))
      then Done (set_snake (set_body (removelast unshifted) (snake g)) g)
      else Done (set_snake (set_growing false (set_body unshifted (snake g))) g)
  end.

Definition outOfGrid (c : Config) (head : Cell) : bool :=
  (cell_x head <? 0) || (cell_x head >=? width c)
  || (cell_y head <? 0) || (cell_y head >=? height c).

Definition checkCollision (g : Game) : Outcome bool :=
  match body (snake g) with
  | [] => Crash
  | head :: rest =>
      if negb (hasPowerUp g "wallPass") && outOfGrid (config g) head then Done true
      else if negb (hasPowerUp g "invincible")
              && existsb (fun c => (cell_x head =? cell_x c) && (cell_y head =? cell_y c)) rest
      then Done true
      else if String.eqb (mode (config g)) "obstacle" && negb (hasPowerUp g "invincible")
              && existsb (fun o => (cell_x head =? cell_x o) && (cell_y head =? cell_y o))
                         (obstacles g)
      then Done true
      else Done false
  end.

Definition addScore (points : Z) (g : Game) : Game :=
  let g1 := set_state (set_score (score (state g) + points) (state g)) g in
  emit (onScoreChange (callbacks g1)) (ScoreChange (score (state g1))) g1.

Definition powerUps : list string := ["speedBoost"; "invincible"; "wallPass"].

Definition pick (l : list string) (i : Z) : option string :=
  if i <? 0 then None else nth_error l (Z.to_nat i).

Definition activatePowerUp (now : Z) (g : Game) : M Game :=
  i <- getRandomInt 0 (Z.of_nat (List.length powerUps) - 1) ;;
  let powerUpType := pick powerUps i in
  let g1 := set_state (set_powerUp true powerUpType (now + 5000) (state g)) g in
  ret (emit (onPowerUpActivate (callbacks g1)) (PowerUpActivate powerUpType) g1).

Definition checkFood (now : Z) (fuel : nat) (g : Game) : M Game :=
  match body (snake g) with
  | [] => crash
  | head :: _ =>
      if (cell_x head =? cell_x (food_pos (food g)))
         && (cell_y head =? cell_y (food_pos (food g)))
      then
        let special := String.eqb (food_type (food g)) "special" in
        let g1 := addScore (if special then 5 else 1) g in
        let g2 := set_state (set_foodEaten (foodEaten (state g1) + 1) (state g1)) g1 in
        g3 <- (if special
               then
                 let a := set_state (set_specialFoodEaten (specialFoodEaten (state g2) + 1)
                                                          (state g2)) g2 in
                 b <- activatePowerUp now a ;;
                 ret (emit (onSpecialFoodEaten (callbacks b))
                           (SpecialFoodEaten (specialFoodEaten (state b))) b)
               else ret g2) ;;
        let g4 := emit (onFoodEaten (callbacks g3)) (FoodEaten (foodEaten (state g3))) g3 in
        let g5 := set_snake (set_growing true (snake g4)) g4 in
        g6 <- spawnFood fuel g5 ;;
        g7 <- (if String.eqb (mode (config g6)) "obstacle"
               then u <- random ;;
                    if Qltb u (3 # 10) then spawnObstacle fuel g6 else ret g6
               else ret g6) ;;
        ret (match gameLoopInterval g7 with
             | Some _ => set_gameLoopInterval (Some (getCurrentSpeed g7)) g7
             | None => g7
             end)
      else ret g
  end.

Definition checkPowerUps (now : Z) (g : Game) : Game :=
  if powerUpActive (state g) && (now >=? powerUpEndTime (state g))
  then
    let powerUpType0 := powerUpType (state g) in
    let g1 := set_state (set_powerUp false None (powerUpEndTime (state g)) (state g)) g in
    emit (onPowerUpEnd (callbacks g1)) (PowerUpEnd powerUpType0) g1
  else g.

(** The first statement of [gameLoop]. *)
Definition commitDirection (g : Game) : Game :=
  set_snake (set_direction (nextDirection (snake g)) (snake g)) g.

Definition gameLoop (now : Z) (fuel : nat) (g : Game) : M Game :=
  g1 <- lift (moveSnake (commitDirection g)) ;;
  hit <- lift (checkCollision g1) ;;
  if (hit : bool) then ret (endGame g1)
  else
    g2 <- checkFood now fuel g1 ;;
    ret (checkPowerUps now g2).

Definition changeDirection (d : string) (g : Game) : Game :=
  if (String.eqb d "up" && negb (String.eqb (direction (snake g)) "down"))
     || (String.eqb d "down" && negb (String.eqb (direction (snake g)) "up"))
     || (String.eqb d "left" && negb (String.eqb (direction (snake g)) "right"))
     || (String.eqb d "right" && negb (String.eqb (direction (snake g)) "left"))
  then set_snake (set_nextDirection d (snake g)) g
  else g.

Definition setConfig (fuel : nat) (p : ConfigPatch) (g : Game) : M Game :=
  let g1 := set_config (mergeConfig (config g) p) g in
  if negb (running (state g1)) then reset fuel g1 else ret g1.

Definition getRenderData (g : Game) : RenderData :=
  {| rd_snake := body (snake g);
     rd_food := food g;
     rd_obstacles := obstacles g;
     rd_gridSize := gridSize (config g);
     rd_width := width (config g);
     rd_height := height (config g);
     rd_powerUp := if powerUpActive (state g) then powerUpType (state g) else None |}.

Definition destroy (g : Game) : Game :=
  set_callbacks noCallbacks (clearTimers g).

(** [on(event, callback)]; [registered] tells whether [callback] is a
    function rather than [null]. *)
Definition on (event : string) (registered : bool) (g : Game) : Game :=
  let c := callbacks g in
  if String.eqb event "onScoreChange" then
    set_callbacks (mkCallbacks registered (onGameOver c) (onPowerUpActivate c) (onPowerUpEnd c)
                               (onFoodEaten c) (onSpecialFoodEaten c) (onTimeUpdate c)) g
  else if String.eqb event "onGameOver" then
    set_callbacks (mkCallbacks (onScoreChange c) registered (onPowerUpActivate c) (onPowerUpEnd c)
                               (onFoodEaten c) (onSpecialFoodEaten c) (onTimeUpdate c)) g
  else if String.eqb event "onPowerUpActivate" then
    set_callbacks (mkCallbacks (onScoreChange c) (onGameOver c) registered (onPowerUpEnd c)
                               (onFoodEaten c) (onSpecialFoodEaten c) (onTimeUpdate c)) g
  else if String.eqb event "onPowerUpEnd" then
    set_callbacks (mkCallbacks (onScoreChange c) (onGameOver c) (onPowerUpActivate c) registered
                               (onFoodEaten c) (onSpecialFoodEaten c) (onTimeUpdate c)) g
  else if String.eqb event "onFoodEaten" then
    set_callbacks (mkCallbacks (onScoreChange c) (onGameOver c) (onPowerUpActivate c)
                               (onPowerUpEnd c) registered (onSpecialFoodEaten c)
                               (onTimeUpdate c)) g
  else if String.eqb event "onSpecialFoodEaten" then
    set_callbacks (mkCallbacks (onScoreChange c) (onGameOver c) (onPowerUpActivate c)
                               (onPowerUpEnd c) (onFoodEaten c) registered (onTimeUpdate c)) g
  else if String.eqb event "onTimeUpdate" then
    set_callbacks (mkCallbacks (onScoreChange c) (onGameOver c) (onPowerUpActivate c)
                               (onPowerUpEnd c) (onFoodEaten c) (onSpecialFoodEaten c)
                               registered) g
  else g.

(** ** The speed formula on JavaScript numbers *)

(** [getCurrentSpeed()] computes on binary64 numbers, where [getCurrentSpeed]
    above computes on rationals.  [getCurrentSpeedBinary64] is the same
    expression with the operations of IEEE 754 binary64 (53 bits of
    precision, exponents up to 1024, results rounded to nearest, ties to
    even), as the Standard Library specifies them. *)
Definition Binary64 : Type := SpecFloat.spec_float.

Definition binary64OfZ (z : Z) : Binary64 :=
  SpecFloat.binary_normalize 53 1024 z 0 false.

(** The number the literal [0.7] denotes: the binary64 number nearest to
    7/10. *)
Definition binary64_0_7 : Binary64 :=
  SpecFloat.S754_finite false 6305039478318694 (-53).

(** [Math.max] of two numbers: [NaN] when one of them is, and [+0] above
    [-0]. *)
Definition mathMax (a b : Binary64) : Binary64 :=
  match a, b with
  | SpecFloat.S754_nan, _ => SpecFloat.S754_nan
  | _, SpecFloat.S754_nan => SpecFloat.S754_nan
  | _, _ =>
      if SpecFloat.SFltb a b then b
      else if SpecFloat.SFltb b a then a
      else match a with
           | SpecFloat.S754_zero true => b
           | _ => a
           end
  end.

Definition getCurrentSpeedBinary64 (speed speedIncrease maxSpeed foodEaten : Binary64)
    (boosted : bool) : Binary64 :=
  let speed0 :=
    SpecFloat.SFsub 53 1024 speed (SpecFloat.SFmul 53 1024 foodEaten speedIncrease) in
  let speed1 := if boosted then SpecFloat.SFmul 53 1024 speed0 binary64_0_7 else speed0 in
  mathMax maxSpeed speed1.

(** The rational a finite binary64 number stands for. *)
Definition binary64Value (x : Binary64) : option Q :=
  match x with
  | SpecFloat.S754_zero _ => Some 0%Q
  | SpecFloat.S754_finite s m e =>
      Some ((if s then - inject_Z (Z.pos m) else inject_Z (Z.pos m)) * Qpower 2 e)%Q
  | _ => None
  end.

(** ** Vocabulary of the specification *)

(** A power-up of the given kind is active. *)
Definition powerUpIs (g : Game) (kind : string) : Prop :=
  powerUpActive (state g) = true /\ powerUpType (state g) = Some kind.

(** The cell lies in [0,width) x [0,height). *)
Definition inGrid (c : Config) (p : Cell) : Prop :=
  0 <= cell_x p < width c /\ 0 <= cell_y p < height c.

(** The collision rule of the specification, for the head cell [head]. *)
Definition collisionRule (g : Game) (head : Cell) : Prop :=
  (~ powerUpIs g "wallPass" /\ ~ inGrid (config g) head)
  \/ (~ powerUpIs g "invincible"
      /\ exists i, (1 <= i)%nat /\ nth_error (body (snake g)) i = Some head)
  \/ (mode (config g) = "obstacle" /\ ~ powerUpIs g "invincible"
      /\ In head (obstacles g)).

(** The speed formula of the specification. *)
Definition intervalFormula (c : Config) (eaten : Z) (boosted : bool) : Q :=
  let linear := (speed c - inject_Z eaten * speedIncrease c)%Q in
  if boosted then Qmax (maxSpeed c) (linear * (7 # 10)) else Qmax (maxSpeed c) linear.

Definition cardinal (d : string) : Prop :=
  d = "up" \/ d = "down" \/ d = "left" \/ d = "right".

Definition reverseOf (d current : string) : Prop :=
  (d = "up" /\ current = "down") \/ (d = "down" /\ current = "up")
  \/ (d = "left" /\ current = "right") \/ (d = "right" /\ current = "left").

(** A call [changeDirection(d)] that the engine accepts while the
    committed direction is [current]. *)
Definition validTurn (current d : string) : bool :=
  (String.eqb d "up" && negb (String.eqb current "down"))
  || (String.eqb d "down" && negb (String.eqb current "up"))
  || (String.eqb d "left" && negb (String.eqb current "right"))
  || (String.eqb d "right" && negb (String.eqb current "left")).

(** The calls made between two ticks, in order. *)
Definition changeDirections (ds : list string) (g : Game) : Game :=
  fold_left (fun acc d => changeDirection d acc) ds g.

(** ** Vocabulary of the proofs *)

(** What no step after [moveSnake] touches. *)
Definition stable (g g' : Game) : Prop :=
  config g' = config g
  /\ body (snake g') = body (snake g)
  /\ direction (snake g') = direction (snake g)
  /\ nextDirection (snake g') = nextDirection (snake g)
  /\ running (state g') = running (state g)
  /\ paused (state g') = paused (state g)
  /\ gameOver (state g') = gameOver (state g)
  /\ callbacks g' = callbacks g.

(** The candidate cell drawn by one iteration of a spawn loop. *)
Definition candidate (c : Config) (r : Rand) : Cell :=
  mkCell (Qfloor (r 0%nat * inject_Z (width c - 1 - 0 + 1)) + 0)
         (Qfloor (r 1%nat * inject_Z (height c - 1 - 0 + 1)) + 0).

Definition after2 (r : Rand) : Rand := fun n => r (S (S n)).

(** Every draw is a result [Math.random()] can give. *)
Definition inRange (r : Rand) : Prop := forall n, (0 <= r n)%Q /\ (r n < 1)%Q.

(** The acceptance tests of the two loops. *)
Definition foodCellFree (g : Game) (c : Cell) : bool :=
  negb (checkCollisionWithArray c (body (snake g)) false)
  && negb (existsb (checkCollisionCells c) (obstacles g)).

Definition obstacleCellFree (g : Game) (c : Cell) : bool :=
  negb (checkCollisionWithArray c (body (snake g)) false)
  && negb (checkCollisionCells c (food_pos (food g)))
  && negb (existsb (checkCollisionCells c) (obstacles g)).

(** The grid is fully occupied: no cell is left for a food, or for an
    obstacle. *)
Definition fullForFood (g : Game) : Prop :=
  forall p, inGrid (config g) p -> In p (body (snake g)) \/ In p (obstacles g).

Definition fullForObstacle (g : Game) : Prop :=
  forall p, inGrid (config g) p ->
            In p (body (snake g)) \/ p = food_pos (food g) \/ In p (obstacles g).

Definition after1 (r : Rand) : Rand := fun n => r (S n).

Fixpoint dropPairs (k : nat) (r : Rand) : Rand :=
  match k with
  | O => r
  | S k' => dropPairs k' (after2 r)
  end.

(** The candidate of iteration [k] (from 0) of a spawn loop. *)
Definition nthCandidate (c : Config) (r : Rand) (k : nat) : Cell :=
  candidate c (dropPairs k r).

(** ** Sample inputs *)

Definition fromList (l : list Q) (d : Q) : Rand := fun n => nth n l d.

(** A game that was never started, heading right. *)
Definition sampleIdle (cells : list Cell) (f : Food) (obs : list Cell) (c : Config) : Game :=
  {| config := c;
     state := initialState;
     snake := mkSnake cells "right" "right" false;
     food := f;
     obstacles := obs;
     specialFoodTimer := None;
     gameLoopInterval := None;
     gameTimeInterval := None;
     callbacks := noCallbacks;
     emitted := [] |}.

Definition sampleRunning (cells : list Cell) (f : Food) (obs : list Cell) (c : Config) : Game :=
  start (sampleIdle cells f obs c).

Definition centreSnake : list Cell := [mkCell 15 10; mkCell 14 10; mkCell 13 10].

Definition edgeSnake : list Cell := [mkCell 29 10; mkCell 28 10; mkCell 27 10].

Definition rndHalf : Rand := fun _ => 1 # 2.

Definition rndThird : Rand := fun _ => 1 # 3.

Definition obstaclePatch : ConfigPatch :=
  mkPatch None None None None None None None (Some "obstacle") None None None None.

Definition classicPatch : ConfigPatch :=
  mkPatch None None None None None None None (Some "classic") None None None None.

Definition timeAttackPatch : ConfigPatch :=
  mkPatch None None None None None None None (Some "timeAttack") (Some 1) None None None.

Definition narrowPatch : ConfigPatch :=
  mkPatch None (Some 10) None None None None None None None None None None.

(** The head is on the right edge of the default grid. *)
Definition gEdge : Game :=
  sampleRunning edgeSnake (mkFood (mkCell 5 5) "normal") [] defaultConfig.

(** The food is one cell ahead of the head. *)
Definition gFoodAhead : Game :=
  sampleRunning centreSnake (mkFood (mkCell 16 10) "normal") [] defaultConfig.

Definition gSpecialAhead : Game :=
  sampleRunning centreSnake (mkFood (mkCell 16 10) "special") [] defaultConfig.

(** Obstacle mode with a game-over handler; the cell ahead of the head
    holds an obstacle and the food. *)
Definition gObstacleAhead : Game :=
  on "onGameOver" true
    (sampleRunning centreSnake (mkFood (mkCell 16 10) "normal") [mkCell 16 10]
                   (mergeConfig defaultConfig obstaclePatch)).

(** A time-attack game with a one-second limit. *)
Definition gTimeAttack : Game :=
  sampleRunning centreSnake (mkFood (mkCell 16 10) "normal") []
                (mergeConfig defaultConfig timeAttackPatch).

(** A grid of one cell, which the snake occupies. *)
Definition fullBoard : Game :=
  sampleIdle [mkCell 0 0] (mkFood (mkCell 0 0) "normal") []
             (mkConfig 20 1 1 (150 # 1) (2 # 1) (50 # 1) 1 "classic" 120 5 (1 # 10) 5000).

(** Draws that make the first food special, twice in a row. *)
Definition drawsSpecial : Rand :=
  fromList [1 # 20; 1 # 3; 1 # 4; 1 # 20; 1 # 3; 1 # 4] (1 # 3).

(** Draws that pick [speedBoost] and then place a normal food. *)
Definition drawsBoost : Rand := fromList [1 # 10; 1 # 2; 1 # 3; 1 # 4] (1 # 3).

(** Draws whose first candidate is the head cell of [centreSnake]. *)
Definition drawsRetry : Rand := fromList [1 # 2; 1 # 2; 1 # 2] (1 # 3).

(** Draws for a construction in obstacle mode: a normal food at (10,5) and
    obstacles at (1,1) ... (5,5). *)
Definition drawsObstacles : Rand :=
  fromList [1 # 2; 1 # 3; 1 # 4;
            3 # 60; 3 # 40; 5 # 60; 5 # 40; 7 # 60; 7 # 40;
            9 # 60; 9 # 40; 11 # 60; 11 # 40] (1 # 3).

(** The default configuration with a negative speed increment. *)
Definition negativeIncrementPatch : ConfigPatch :=
  mkPatch None None None None (Some (-2 # 1)) None None None None None None None.

Definition gNegativeIncrement : Game :=
  sampleIdle centreSnake (mkFood (mkCell 0 0) "normal") []
             (mergeConfig defaultConfig negativeIncrementPatch).

(** A default game after two foods, with the speed boost active. *)
Definition gBoostedTwoFoods : Game :=
  set_state (set_powerUp true (Some "speedBoost") 5000 (set_foodEaten 2 (state gFoodAhead)))
            gFoodAhead.

(** Draws that place the next food, a normal one, two cells ahead of the
    head of [centreSnake]. *)
Definition drawsFoodAhead : Rand := fromList [1 # 2; 35 # 60; 21 # 40] (1 # 3).

(** ** Sequences of calls *)

(** What a host can make the engine do: call a public method, or let one of
    the three timers fire.  A timer callback is taken as a call the host may
    make at any moment, armed or not, which covers every real schedule. *)
Inductive Call : Type :=
| CallStart
| CallPause
| CallResume
| CallEndGame
| CallReset
| CallGameLoop (now : Z)
| CallTimeTick
| CallFoodTimeout
| CallChangeDirection (d : string)
| CallSetConfig (p : ConfigPatch)
| CallOn (event : string) (registered : bool)
| CallDestroy.

Definition call (fuel : nat) (c : Call) (g : Game) : M Game :=
  match c with
  | CallStart => ret (start g)
  | CallPause => ret (pause g)
  | CallResume => ret (resume g)
  | CallEndGame => ret (endGame g)
  | CallReset => reset fuel g
  | CallGameLoop now => gameLoop now fuel g
  | CallTimeTick => ret (timeTick g)
  | CallFoodTimeout => specialFoodTimeout fuel g
  | CallChangeDirection d => ret (changeDirection d g)
  | CallSetConfig p => setConfig fuel p g
  | CallOn event registered => ret (on event registered g)
  | CallDestroy => ret (destroy g)
  end.

Fixpoint calls (fuel : nat) (cs : list Call) (g : Game) : M Game :=
  match cs with
  | [] => ret g
  | c :: cs' => g' <- call fuel c g ;; calls fuel cs' g'
  end.

(** A construction followed by a sequence of calls. *)
Definition session (fuel : nat) (p : ConfigPatch) (cs : list Call) : M Game :=
  g <- newGame fuel p ;; calls fuel cs g.

(** The timers exist only while the game runs unpaused, they exist together,
    and a running game is not over. *)
Definition lifecycleInv (g : Game) : Prop :=
  (gameLoopInterval g <> None ->
   running (state g) = true /\ paused (state g) = false)
  /\ (gameLoopInterval g = None <-> gameTimeInterval g = None)
  /\ (running (state g) = true -> gameOver (state g) = false).

(** One point per food, four more per special food. *)
Definition scoreInv (g : Game) : Prop :=
  score (state g) = foodEaten (state g) + 4 * specialFoodEaten (state g)
  /\ 0 <= specialFoodEaten (state g) <= foodEaten (state g).

Definition directionInv (g : Game) : Prop :=
  cardinal (direction (snake g))
  /\ cardinal (nextDirection (snake g))
  /\ ~ reverseOf (nextDirection (snake g)) (direction (snake g)).

Definition wellFormed (g : Game) : Prop :=
  lifecycleInv g /\ scoreInv g /\ directionInv g.

(** The cells [initSnake] lays out for a configuration. *)
Definition initialBody (c : Config) : list Cell :=
  map (fun i => mkCell (width c / 2 - Z.of_nat i) (height c / 2))
      (seq 0 (Z.to_nat (initialSnakeLength c))).

(** The board is consistent: the food is on no snake cell and on no
    obstacle, and no two obstacles share a cell. *)
Definition boardInv (g : Game) : Prop :=
  ~ In (food_pos (food g)) (body (snake g))
  /\ ~ In (food_pos (food g)) (obstacles g)
  /\ NoDup (obstacles g).

(** No obstacle lies under the snake. *)
Definition clearOfObstacles (g : Game) : Prop :=
  forall c, In c (body (snake g)) -> ~ In c (obstacles g).

(** A call that registers a handler. *)
Definition registers (c : Call) : Prop :=
  match c with
  | CallOn _ true => True
  | _ => False
  end.

(** The names [on] accepts. *)
Definition eventNames : list string :=
  ["onScoreChange"; "onGameOver"; "onPowerUpActivate"; "onPowerUpEnd";
   "onFoodEaten"; "onSpecialFoodEaten"; "onTimeUpdate"].

(** Draws for a session: a special food one cell ahead of the head at
    construction, then the speed boost and a normal food at (10,5). *)
Definition drawsSession : Rand :=
  fromList [1 # 20; 33 # 60; 21 # 40; 1 # 10; 1 # 2; 1 # 3; 1 # 4] (1 # 3).

Definition sampleSession : list Call :=
  [CallOn "onScoreChange" true; CallStart; CallGameLoop 0;
   CallChangeDirection "up"; CallChangeDirection "left"; CallGameLoop 100;
   CallTimeTick; CallPause].

(** A default game that has not been started. *)
Definition gIdle : Game :=
  sampleIdle centreSnake (mkFood (mkCell 0 0) "normal") [] defaultConfig.

(* -------------------------------------------------------------------- *)
(** * Properties *)

(** ** Auxiliary facts *)

Lemma bind_Done {A B : Type} (c : M A) (k : A -> M B) (r : Rand) (x : B * Rand) :
  bind c k r = Done x ->
  exists a r1, c r = Done (a, r1) /\ k a r1 = Done x.
Proof.
  unfold bind. destruct (c r) as [[a r1] | |]; try discriminate.
  intros H. exists a, r1. split; [reflexivity | exact H].
Qed.

Lemma hasPowerUp_spec (g : Game) (kind : string) :
  hasPowerUp g kind = true <-> powerUpIs g kind.
Proof.
  unfold hasPowerUp, powerUpIs. split.
  - intros H. apply andb_true_iff in H. destruct H as [Ha Ht].
    split; [exact Ha |].
    destruct (powerUpType (state g)) as [t |]; [| discriminate].
    apply String.eqb_eq in Ht. now subst.
  - intros [Ha Ht]. rewrite Ha, Ht. simpl. apply String.eqb_refl.
Qed.

Lemma hasPowerUp_false (g : Game) (kind : string) :
  hasPowerUp g kind = false <-> ~ powerUpIs g kind.
Proof.
  rewrite <- hasPowerUp_spec. destruct (hasPowerUp g kind); split; intros H;
    try reflexivity; try discriminate; congruence.
Qed.

(** ** Speed formula *)


(** ** Frame properties of the operations of a tick *)

Lemma stable_refl (g : Game) : stable g g.
Proof. repeat split. Qed.

Lemma stable_trans (a b c : Game) : stable a b -> stable b c -> stable a c.
Proof.
  unfold stable. intros H1 H2.
  repeat match goal with H : _ /\ _ |- _ => destruct H end.
  repeat split; congruence.
Qed.

Lemma stable_emit (b : bool) (e : Event) (g : Game) : stable g (emit b e g).
Proof. destruct b; repeat split. Qed.

Lemma spawnFood_search_S (k : nat) (isSpecial : bool) (g : Game) (r : Rand) :
  spawnFood_search (S k) isSpecial g r
  = let f := mkFood (candidate (config g) r) (if isSpecial then "special" else "normal") in
    if negb (checkCollisionWithArray (food_pos f) (body (snake g)) false)
       && negb (existsb (checkCollisionCells (food_pos f)) (obstacles g))
    then Done (set_food f g, after2 r)
    else spawnFood_search k isSpecial (set_food f g) (after2 r).
Proof.
  cbn [spawnFood_search].
  cbv beta iota zeta delta [bind getRandomInt random ret candidate after2].
  cbn [body snake obstacles food set_food food_pos].
  match goal with |- _ = (if ?b then _ else _) => destruct b end; reflexivity.
Qed.

Lemma spawnObstacle_search_S (k : nat) (g : Game) (r : Rand) :
  spawnObstacle_search (S k) g r
  = let o := candidate (config g) r in
    if negb (checkCollisionWithArray o (body (snake g)) false)
       && negb (checkCollisionCells o (food_pos (food g)))
       && negb (existsb (checkCollisionCells o) (obstacles g))
    then Done (o, after2 r)
    else spawnObstacle_search k g (after2 r).
Proof.
  cbn [spawnObstacle_search].
  cbv beta iota zeta delta [bind getRandomInt random ret candidate after2].
  cbn [body snake obstacles food set_food food_pos].
  match goal with |- _ = (if ?b then _ else _) => destruct b end; reflexivity.
Qed.

Lemma spawnFood_search_frame (fuel : nat) (isSpecial : bool) :
  forall g r g' r',
    spawnFood_search fuel isSpecial g r = Done (g', r') ->
    g' = set_food (food g') g.
Proof.
  induction fuel as [| k IH]; intros g r g' r' H.
  - discriminate H.
  - rewrite spawnFood_search_S in H. cbv zeta in H.
    match type of H with
    | (if ?b then _ else _) = _ => destruct b
    end.
    + injection H as <- _. reflexivity.
    + apply IH in H. rewrite H at 1. reflexivity.
Qed.

Lemma spawnFood_frame (fuel : nat) (g : Game) (r : Rand) (g' : Game) (r' : Rand) :
  spawnFood fuel g r = Done (g', r') ->
  g' = set_specialFoodTimer (specialFoodTimer g') (set_food (food g') g).
Proof.
  unfold spawnFood. intros H.
  apply bind_Done in H. destruct H as (u & r1 & Hu & H).
  apply bind_Done in H. destruct H as (g1 & r2 & Hs & H).
  apply spawnFood_search_frame in Hs.
  unfold ret in H. injection H as <- _.
  rewrite Hs. destruct (Qltb u _); reflexivity.
Qed.

Lemma spawnFood_stable (fuel : nat) (g : Game) (r : Rand) (g' : Game) (r' : Rand) :
  spawnFood fuel g r = Done (g', r') -> stable g g'.
Proof.
  intros H. apply spawnFood_frame in H. rewrite H. repeat split.
Qed.

Lemma spawnObstacle_frame (fuel : nat) (g : Game) (r : Rand) (g' : Game) (r' : Rand) :
  spawnObstacle fuel g r = Done (g', r') ->
  exists o, g' = set_obstacles (obstacles g ++ [o]) g.
Proof.
  unfold spawnObstacle. intros H.
  apply bind_Done in H. destruct H as (o & r1 & _ & H).
  unfold ret in H. injection H as <- _. now exists o.
Qed.

Lemma spawnObstacle_stable (fuel : nat) (g : Game) (r : Rand) (g' : Game) (r' : Rand) :
  spawnObstacle fuel g r = Done (g', r') -> stable g g'.
Proof.
  intros H. apply spawnObstacle_frame in H. destruct H as [o ->]. repeat split.
Qed.

Lemma activatePowerUp_stable (now : Z) (g : Game) (r : Rand) (g' : Game) (r' : Rand) :
  activatePowerUp now g r = Done (g', r') -> stable g g'.
Proof.
  unfold activatePowerUp, bind, getRandomInt, random, ret. intros H.
  injection H as <- _.
  match goal with |- stable _ (emit ?b ?e ?x) => apply stable_trans with x end;
    [repeat split | apply stable_emit].
Qed.

Lemma checkPowerUps_stable (now : Z) (g : Game) : stable g (checkPowerUps now g).
Proof.
  unfold checkPowerUps.
  destruct (powerUpActive (state g) && (now >=? powerUpEndTime (state g))).
  - match goal with |- stable _ (emit ?b ?e ?x) => apply stable_trans with x end;
      [repeat split | apply stable_emit].
  - apply stable_refl.
Qed.

Lemma emit_config b e g : config (emit b e g) = config g.
Proof. destruct b; reflexivity. Qed.

Lemma emit_state b e g : state (emit b e g) = state g.
Proof. destruct b; reflexivity. Qed.

Lemma emit_snake b e g : snake (emit b e g) = snake g.
Proof. destruct b; reflexivity. Qed.

Lemma emit_food b e g : food (emit b e g) = food g.
Proof. destruct b; reflexivity. Qed.

Lemma emit_obstacles b e g : obstacles (emit b e g) = obstacles g.
Proof. destruct b; reflexivity. Qed.

Lemma emit_gameLoopInterval b e g : gameLoopInterval (emit b e g) = gameLoopInterval g.
Proof. destruct b; reflexivity. Qed.

Lemma emit_specialFoodTimer b e g : specialFoodTimer (emit b e g) = specialFoodTimer g.
Proof. destruct b; reflexivity. Qed.

Lemma emit_callbacks b e g : callbacks (emit b e g) = callbacks g.
Proof. destruct b; reflexivity. Qed.

Create Rewrite HintDb game.

#[local] Hint Rewrite emit_config emit_state emit_snake emit_food emit_obstacles
  emit_gameLoopInterval emit_specialFoodTimer emit_callbacks : game.

Ltac game_simpl :=
  repeat (autorewrite with game in *; cbn [config state snake food obstacles
    specialFoodTimer gameLoopInterval gameTimeInterval callbacks
    set_config set_state set_snake set_food set_obstacles set_specialFoodTimer
    set_gameLoopInterval set_gameTimeInterval set_callbacks
    running paused gameOver score time foodEaten specialFoodEaten
    powerUpActive powerUpType powerUpEndTime
    set_lifecycle set_score set_time set_foodEaten set_specialFoodEaten set_powerUp
    body direction nextDirection growing
    set_body set_direction set_nextDirection set_growing] in *).

Lemma activatePowerUp_frame (now : Z) (g : Game) (r : Rand) (g' : Game) (r' : Rand) :
  activatePowerUp now g r = Done (g', r') ->
  exists t,
    g' = emit (onPowerUpActivate (callbacks g)) (PowerUpActivate t)
              (set_state (set_powerUp true t (now + 5000) (state g)) g).
Proof.
  unfold activatePowerUp, bind, getRandomInt, random, ret. intros H.
  injection H as <- _. eexists. reflexivity.
Qed.

(** [checkFood] does nothing when the head is not on the food. *)
Lemma checkFood_not_on_food (now : Z) (fuel : nat) (g : Game) (r : Rand)
      (head : Cell) (rest : list Cell) :
  body (snake g) = head :: rest ->
  (cell_x head =? cell_x (food_pos (food g))) && (cell_y head =? cell_y (food_pos (food g)))
  = false ->
  checkFood now fuel g r = Done (g, r).
Proof.
  intros Hb Hc. unfold checkFood. rewrite Hb, Hc. reflexivity.
Qed.

(** When the head is on the food: the growth flag is set, the counters move,
    and an armed simulation timer is rescheduled to the current speed. *)
Lemma checkFood_on_food (now : Z) (fuel : nat) (g : Game) (r : Rand)
      (head : Cell) (rest : list Cell) (g' : Game) (r' : Rand) :
  body (snake g) = head :: rest ->
  (cell_x head =? cell_x (food_pos (food g))) && (cell_y head =? cell_y (food_pos (food g)))
  = true ->
  checkFood now fuel g r = Done (g', r') ->
  stable g g'
  /\ growing (snake g') = true
  /\ foodEaten (state g') = foodEaten (state g) + 1
  /\ score (state g')
     = score (state g) + (if String.eqb (food_type (food g)) "special" then 5 else 1)
  /\ (gameLoopInterval g <> None -> gameLoopInterval g' = Some (getCurrentSpeed g')).
Proof.
  intros Hb Hc H. unfold checkFood in H. rewrite Hb, Hc in H.
  apply bind_Done in H. destruct H as (g3 & r3 & H3 & H).
  apply bind_Done in H. destruct H as (g6 & r6 & H6 & H).
  apply bind_Done in H. destruct H as (g7 & r7 & H7 & H).
  unfold ret in H. injection H as <- _.
  apply spawnFood_frame in H6.
  assert (E7 : exists o, g7 = set_obstacles o g6).
  { destruct (String.eqb (mode (config g6)) "obstacle").
    - apply bind_Done in H7. destruct H7 as (u & ru & _ & H7).
      destruct (Qltb u (3 # 10)).
      + apply spawnObstacle_frame in H7. destruct H7 as [o ->]. eexists. reflexivity.
      + unfold ret in H7. injection H7 as <- _. exists (obstacles g6).
        destruct g6; reflexivity.
    - unfold ret in H7. injection H7 as <- _. exists (obstacles g6).
      destruct g6; reflexivity. }
  destruct E7 as [o ->]. clear H7.
  assert (E3 : stable g g3 /\ growing (snake g3) = growing (snake g)
               /\ foodEaten (state g3) = foodEaten (state g) + 1
               /\ score (state g3)
                  = score (state g) + (if String.eqb (food_type (food g)) "special" then 5 else 1)
               /\ gameLoopInterval g3 = gameLoopInterval g).
  { destruct (String.eqb (food_type (food g)) "special").
    - apply bind_Done in H3. destruct H3 as (b & rb & Hp & H3).
      unfold ret in H3. injection H3 as <- _.
      apply activatePowerUp_frame in Hp. destruct Hp as [t ->].
      unfold addScore, stable. game_simpl. repeat split.
    - unfold ret in H3. injection H3 as <- _.
      unfold addScore, stable. game_simpl. repeat split. }
  destruct E3 as (S3 & G3 & F3 & P3 & T3).
  rewrite H6. unfold stable in *.
  destruct S3 as (S3a & S3b & S3c & S3d & S3e & S3f & S3g & S3h).
  destruct (gameLoopInterval g) as [p |] eqn:Hp; game_simpl; rewrite T3; game_simpl;
    repeat split; try assumption; intros Hn; now contradiction Hn.
Qed.

Lemma checkFood_stable (now : Z) (fuel : nat) (g : Game) (r : Rand) (g' : Game) (r' : Rand) :
  checkFood now fuel g r = Done (g', r') -> stable g g'.
Proof.
  intros H. destruct (body (snake g)) as [| head rest] eqn:Hb.
  - unfold checkFood in H. rewrite Hb in H. discriminate H.
  - destruct ((cell_x head =? cell_x (food_pos (food g)))
              && (cell_y head =? cell_y (food_pos (food g)))) eqn:Hc.
    + eapply checkFood_on_food in H; eauto. tauto.
    + rewrite (checkFood_not_on_food now fuel g r head rest Hb Hc) in H.
      injection H as <- _. apply stable_refl.
Qed.

(** ** The collision check against the collision rule *)

Lemma cell_eqb_eq (a b : Cell) :
  (cell_x a =? cell_x b) && (cell_y a =? cell_y b) = true <-> a = b.
Proof.
  rewrite andb_true_iff, !Z.eqb_eq. destruct a, b; simpl. split.
  - intros [-> ->]. reflexivity.
  - intros E. injection E as -> ->. split; reflexivity.
Qed.

Lemma outOfGrid_spec (c : Config) (p : Cell) :
  outOfGrid c p = true <-> ~ inGrid c p.
Proof.
  unfold outOfGrid, inGrid.
  rewrite !orb_true_iff, !Z.ltb_lt, !Z.geb_le. lia.
Qed.

Lemma existsb_cell_In (head : Cell) (l : list Cell) :
  existsb (fun c => (cell_x head =? cell_x c) && (cell_y head =? cell_y c)) l = true
  <-> In head l.
Proof.
  rewrite existsb_exists. split.
  - intros (c & Hin & E). apply cell_eqb_eq in E. now subst.
  - intros Hin. exists head. split; [exact Hin | now apply cell_eqb_eq].
Qed.

Lemma In_tail_index (head : Cell) (rest : list Cell) :
  In head rest <-> exists i, (1 <= i)%nat /\ nth_error (head :: rest) i = Some head.
Proof.
  split.
  - intros Hin. apply In_nth_error in Hin. destruct Hin as [n Hn].
    exists (S n). split; [lia | exact Hn].
  - intros (i & Hi & Hn). destruct i as [| n]; [lia |].
    simpl in Hn. eapply nth_error_In. exact Hn.
Qed.

Lemma checkCollision_spec (g : Game) (head : Cell) (rest : list Cell) :
  body (snake g) = head :: rest ->
  exists b, checkCollision g = Done b /\ (b = true <-> collisionRule g head).
Proof.
  intros Hb. unfold checkCollision, collisionRule. rewrite Hb.
  setoid_rewrite <- hasPowerUp_false.
  setoid_rewrite <- outOfGrid_spec.
  setoid_rewrite <- In_tail_index.
  setoid_rewrite <- (existsb_cell_In head rest).
  setoid_rewrite <- (existsb_cell_In head (obstacles g)).
  destruct (String.eqb_spec (mode (config g)) "obstacle") as [Hm | Hm];
  destruct (hasPowerUp g "wallPass"), (hasPowerUp g "invincible"),
    (outOfGrid (config g) head),
    (existsb (fun c => (cell_x head =? cell_x c) && (cell_y head =? cell_y c)) rest),
    (existsb (fun o => (cell_x head =? cell_x o) && (cell_y head =? cell_y o)) (obstacles g));
    simpl; eexists; (split; [reflexivity |]); intuition congruence.
Qed.

Lemma moveSnake_head (g : Game) (head0 : Cell) (rest0 : list Cell) :
  body (snake g) = head0 :: rest0 ->
  exists m rest,
    moveSnake g = Done m
    /\ body (snake m) = newHead g head0 :: rest
    /\ config m = config g /\ state m = state g /\ food m = food g
    /\ obstacles m = obstacles g /\ callbacks m = callbacks g
    /\ emitted m = emitted g
    /\ specialFoodTimer m = specialFoodTimer g
    /\ gameLoopInterval m = gameLoopInterval g
    /\ gameTimeInterval m = gameTimeInterval g
    /\ direction (snake m) = direction (snake g)
    /\ nextDirection (snake m) = nextDirection (snake g).
Proof.
  intros Hb. unfold moveSnake. rewrite Hb.
  destruct (growing (snake g)); simpl.
  - eexists. eexists. split; [reflexivity |]. simpl. repeat split.
  - eexists. exists (removelast (head0 :: rest0)). split; [reflexivity |].
    simpl. repeat split.
Qed.

(** ** The tick *)

Lemma gameLoop_unfold (now : Z) (fuel : nat) (g : Game) (r : Rand) (m : Game) (b : bool) :
  moveSnake (commitDirection g) = Done m ->
  checkCollision m = Done b ->
  gameLoop now fuel g r
  = if b then Done (endGame m, r)
    else match checkFood now fuel m r with
         | Done (g2, r2) => Done (checkPowerUps now g2, r2)
         | Hang => Hang
         | Crash => Crash
         end.
Proof.
  intros Hm Hc. unfold gameLoop, bind, lift, ret. rewrite Hm, Hc.
  destruct b; [reflexivity |].
  destruct (checkFood now fuel m r) as [[g2 r2] | |]; reflexivity.
Qed.

Lemma spawnFood_search_no_crash (fuel : nat) (isSpecial : bool) :
  forall g r, spawnFood_search fuel isSpecial g r <> Crash.
Proof.
  induction fuel as [| k IH]; intros g r.
  - discriminate.
  - rewrite spawnFood_search_S. cbv zeta.
    match goal with |- (if ?b then _ else _) <> _ => destruct b end;
      [discriminate | apply IH].
Qed.

Lemma spawnObstacle_search_no_crash (fuel : nat) :
  forall g r, spawnObstacle_search fuel g r <> Crash.
Proof.
  induction fuel as [| k IH]; intros g r.
  - discriminate.
  - rewrite spawnObstacle_search_S. cbv zeta.
    match goal with |- (if ?b then _ else _) <> _ => destruct b end;
      [discriminate | apply IH].
Qed.

Lemma bind_no_crash {A B : Type} (c : M A) (k : A -> M B) (r : Rand) :
  c r <> Crash ->
  (forall a r1, c r = Done (a, r1) -> k a r1 <> Crash) ->
  bind c k r <> Crash.
Proof.
  intros Hc Hk. unfold bind.
  destruct (c r) as [[a r1] | |]; [now apply Hk | discriminate | now contradiction Hc].
Qed.

Lemma spawnFood_no_crash (fuel : nat) (g : Game) (r : Rand) :
  spawnFood fuel g r <> Crash.
Proof.
  unfold spawnFood. apply bind_no_crash; [discriminate |]. intros u r1 _.
  apply bind_no_crash; [apply spawnFood_search_no_crash |]. discriminate.
Qed.

Lemma spawnObstacle_no_crash (fuel : nat) (g : Game) (r : Rand) :
  spawnObstacle fuel g r <> Crash.
Proof.
  unfold spawnObstacle.
  apply bind_no_crash; [apply spawnObstacle_search_no_crash |]. discriminate.
Qed.

Lemma checkFood_no_crash (now : Z) (fuel : nat) (g : Game) (r : Rand) :
  body (snake g) <> [] -> checkFood now fuel g r <> Crash.
Proof.
  intros Hb. unfold checkFood.
  destruct (body (snake g)) as [| head rest]; [now contradiction Hb |].
  destruct ((cell_x head =? cell_x (food_pos (food g)))
            && (cell_y head =? cell_y (food_pos (food g)))); [| discriminate].
  apply bind_no_crash.
  - destruct (String.eqb (food_type (food g)) "special"); [| discriminate].
    apply bind_no_crash; discriminate.
  - intros g3 r3 _. apply bind_no_crash; [apply spawnFood_no_crash |].
    intros g6 r6 _. apply bind_no_crash; [| discriminate].
    destruct (String.eqb (mode (config g6)) "obstacle"); [| discriminate].
    apply bind_no_crash; [discriminate |]. intros u ru _.
    destruct (Qltb u (3 # 10)); [apply spawnObstacle_no_crash | discriminate].
Qed.

Lemma endGame_running (g : Game) :
  running (state g) = true ->
  running (state (endGame g)) = false
  /\ gameOver (state (endGame g)) = true
  /\ score (state (endGame g)) = score (state g)
  /\ foodEaten (state (endGame g)) = foodEaten (state g)
  /\ specialFoodEaten (state (endGame g)) = specialFoodEaten (state g)
  /\ powerUpActive (state (endGame g)) = powerUpActive (state g)
  /\ powerUpType (state (endGame g)) = powerUpType (state g)
  /\ food (endGame g) = food g
  /\ snake (endGame g) = snake g
  /\ obstacles (endGame g) = obstacles g
  /\ config (endGame g) = config g
  /\ gameLoopInterval (endGame g) = None
  /\ gameTimeInterval (endGame g) = None
  /\ specialFoodTimer (endGame g) = None.
Proof.
  intros Hr. unfold endGame. rewrite Hr. simpl.
  destruct (onGameOver (callbacks g)); simpl; repeat split.
Qed.

(** C1: a tick of a running game ends the game exactly when the collision
    rule holds for the head the move produced.  On a collision the tick is
    [endGame] applied to the moved state and nothing else (score, counters,
    food and power-up are those before the tick); without one the tick
    leaves the game running. *)
Theorem tick_ends_game_iff_collision :
  forall (now : Z) (fuel : nat) (g : Game) (r : Rand) (head0 : Cell) (rest0 : list Cell),
    running (state g) = true ->
    body (snake g) = head0 :: rest0 ->
    exists m rest,
      moveSnake (commitDirection g) = Done m
      /\ body (snake m) = newHead (commitDirection g) head0 :: rest
      /\ (collisionRule m (newHead (commitDirection g) head0) ->
          gameLoop now fuel g r = Done (endGame m, r)
          /\ running (state (endGame m)) = false
          /\ gameOver (state (endGame m)) = true
          /\ score (state (endGame m)) = score (state g)
          /\ foodEaten (state (endGame m)) = foodEaten (state g)
          /\ specialFoodEaten (state (endGame m)) = specialFoodEaten (state g)
          /\ powerUpActive (state (endGame m)) = powerUpActive (state g)
          /\ powerUpType (state (endGame m)) = powerUpType (state g)
          /\ food (endGame m) = food g)
      /\ (~ collisionRule m (newHead (commitDirection g) head0) ->
          match gameLoop now fuel g r with
          | Done (g', _) =>
              running (state g') = true /\ gameOver (state g') = gameOver (state g)
          | Hang => True
          | Crash => False
          end)
      /\ (forall g' r',
             gameLoop now fuel g r = Done (g', r') ->
             (running (state g') = false
              <-> collisionRule m (newHead (commitDirection g) head0))).
Proof.
  intros now fuel g r head0 rest0 Hrun Hb.
  destruct (moveSnake_head (commitDirection g) head0 rest0 Hb)
    as (m & rest & Hm & Hbm & Hcfg & Hst & Hfood & _).
  destruct (checkCollision_spec m _ rest Hbm) as (b & Hc & Hrule).
  pose proof (gameLoop_unfold now fuel g r m b Hm Hc) as Hloop.
  assert (Hrm : running (state m) = true) by (rewrite Hst; exact Hrun).
  assert (Hno : b = false ->
                match gameLoop now fuel g r with
                | Done (g', _) =>
                    running (state g') = true /\ gameOver (state g') = gameOver (state g)
                | Hang => True
                | Crash => False
                end).
  { intros ->. rewrite Hloop.
    destruct (checkFood now fuel m r) as [[g2 r2] | |] eqn:Hf.
    - apply checkFood_stable in Hf.
      pose proof (stable_trans _ _ _ Hf (checkPowerUps_stable now g2)) as Hs.
      destruct Hs as (_ & _ & _ & _ & Hr' & _ & Ho' & _).
      rewrite Hr', Ho', Hst. split; [exact Hrun | reflexivity].
    - exact I.
    - apply (checkFood_no_crash now fuel m r); [rewrite Hbm; discriminate | exact Hf]. }
  exists m, rest. split; [exact Hm |]. split; [exact Hbm |].
  split; [| split].
  - intros Hcol. apply Hrule in Hcol. subst b.
    destruct (endGame_running m Hrm)
      as (E1 & E2 & E3 & E4 & E5 & E6 & E7 & E8 & _).
    rewrite E1, E2, E3, E4, E5, E6, E7, E8, Hst, Hfood.
    repeat split. exact Hloop.
  - intros Hcol. apply Hno. destruct b; [| reflexivity].
    exfalso. apply Hcol, Hrule. reflexivity.
  - intros g' r' Hd. destruct b.
    + rewrite Hloop in Hd. injection Hd as <- _.
      destruct (endGame_running m Hrm) as (E1 & _). rewrite E1.
      split; intros _; [now apply Hrule | reflexivity].
    + specialize (Hno eq_refl). rewrite Hd in Hno. destruct Hno as [Hr' _].
      rewrite Hr'. split; [discriminate |]. intros Hcol.
      apply Hrule in Hcol. discriminate Hcol.
Qed.

Lemma gameLoop_cases (now : Z) (fuel : nat) (g : Game) (r : Rand) (g' : Game) (r' : Rand) :
  gameLoop now fuel g r = Done (g', r') ->
  exists m b,
    moveSnake (commitDirection g) = Done m
    /\ checkCollision m = Done b
    /\ (b = true -> g' = endGame m /\ r' = r)
    /\ (b = false ->
        exists g2, checkFood now fuel m r = Done (g2, r') /\ g' = checkPowerUps now g2).
Proof.
  intros H. unfold gameLoop, bind at 1 2, lift in H.
  destruct (moveSnake (commitDirection g)) as [m | |] eqn:Hm; try discriminate.
  destruct (checkCollision m) as [b | |] eqn:Hc; try discriminate.
  exists m, b. split; [first [reflexivity | exact Hm] |]. split; [exact Hc |].
  clear Hc. destruct b.
  - unfold ret in H. injection H as <- <-. split; [auto | discriminate].
  - split; [discriminate |]. intros _.
    apply bind_Done in H. destruct H as (g2 & r3 & Hf & H).
    unfold ret in H. injection H as <- <-. exists g2. split; [exact Hf | reflexivity].
Qed.

Lemma endGame_stable_snake (g : Game) :
  snake (endGame g) = snake g /\ config (endGame g) = config g.
Proof.
  unfold endGame. destruct (negb (running (state g))); [split; reflexivity |].
  game_simpl. split; reflexivity.
Qed.

(** After [moveSnake] nothing in the tick touches the body or the
    directions. *)
Lemma gameLoop_snake (now : Z) (fuel : nat) (g : Game) (r : Rand) (g' : Game) (r' : Rand) :
  gameLoop now fuel g r = Done (g', r') ->
  exists m,
    moveSnake (commitDirection g) = Done m
    /\ body (snake g') = body (snake m)
    /\ direction (snake g') = nextDirection (snake g)
    /\ config g' = config g.
Proof.
  intros H. apply gameLoop_cases in H.
  destruct H as (m & b & Hm & Hc & Ht & Hf).
  exists m. split; [exact Hm |].
  assert (Hd : direction (snake m) = nextDirection (snake g) /\ config m = config g).
  { unfold moveSnake in Hm. destruct (body (snake (commitDirection g))); [discriminate |].
    destruct (negb (growing (snake (commitDirection g)))); injection Hm as <-;
      split; reflexivity. }
  destruct Hd as [Hd Hcfg].
  destruct b.
  - destruct (Ht eq_refl) as [-> _].
    destruct (endGame_stable_snake m) as [-> ->]. auto.
  - destruct (Hf eq_refl) as (g2 & Hfood & ->).
    apply checkFood_stable in Hfood.
    pose proof (stable_trans _ _ _ Hfood (checkPowerUps_stable now g2)) as Hs.
    destruct Hs as (S1 & S2 & S3 & _). rewrite S1, S2, S3. auto.
Qed.

Lemma endGame_emitted (g : Game) :
  running (state g) = true ->
  emitted (endGame g)
  = if onGameOver (callbacks g)
    then GameOver {| sum_score := score (state g); sum_time := time (state g);
                     sum_foodEaten := foodEaten (state g);
                     sum_specialFoodEaten := specialFoodEaten (state g);
                     sum_mode := mode (config g) |} :: emitted g
    else emitted g.
Proof.
  intros Hr. unfold endGame. rewrite Hr. simpl.
  destruct (onGameOver (callbacks g)); reflexivity.
Qed.

(** C8: in obstacle mode without invincibility, a tick of a running game
    whose new head is an obstacle cell ends in game over with [score] and
    [foodEaten] as before the tick, whatever the food cell is; the summary
    handed to the host carries those unchanged values. *)
Theorem obstacle_hit_ends_game_before_food :
  forall (now : Z) (fuel : nat) (g : Game) (r : Rand) (head0 : Cell) (rest0 : list Cell),
    running (state g) = true ->
    body (snake g) = head0 :: rest0 ->
    mode (config g) = "obstacle" ->
    ~ powerUpIs g "invincible" ->
    In (newHead (commitDirection g) head0) (obstacles g) ->
    exists g',
      gameLoop now fuel g r = Done (g', r)
      /\ gameOver (state g') = true
      /\ running (state g') = false
      /\ foodEaten (state g') = foodEaten (state g)
      /\ score (state g') = score (state g)
      /\ specialFoodEaten (state g') = specialFoodEaten (state g)
      /\ food g' = food g
      /\ emitted g'
         = if onGameOver (callbacks g)
           then GameOver {| sum_score := score (state g); sum_time := time (state g);
                            sum_foodEaten := foodEaten (state g);
                            sum_specialFoodEaten := specialFoodEaten (state g);
                            sum_mode := mode (config g) |} :: emitted g
           else emitted g.
Proof.
  intros now fuel g r head0 rest0 Hrun Hb Hmode Hinv Hobs.
  destruct (moveSnake_head (commitDirection g) head0 rest0 Hb)
    as (m & rest & Hm & Hbm & Hcfg & Hst & Hfood & Hob & Hcb & Hem & _).
  destruct (checkCollision_spec m _ rest Hbm) as (b & Hc & Hrule).
  assert (Hb1 : b = true).
  { apply Hrule. right. right. unfold powerUpIs. rewrite Hcfg, Hst, Hob.
    split; [exact Hmode |]. split; [exact Hinv | exact Hobs]. }
  subst b.
  assert (Hrm : running (state m) = true) by (rewrite Hst; exact Hrun).
  exists (endGame m).
  rewrite (gameLoop_unfold now fuel g r m true Hm Hc).
  rewrite (endGame_emitted m Hrm).
  destruct (endGame_running m Hrm) as (E1 & E2 & E3 & E4 & E5 & _ & _ & E8 & _).
  rewrite E1, E2, E3, E4, E5, E8, Hst, Hfood, Hcb, Hem, Hcfg.
  repeat split.
Qed.

Lemma removelast_length_cons {A : Type} (x : A) (l : list A) :
  List.length (removelast (x :: l)) = List.length l.
Proof.
  revert x. induction l as [| y l IH]; intros x.
  - reflexivity.
  - change (removelast (x :: y :: l)) with (x :: removelast (y :: l)).
    cbn [List.length]. f_equal. apply IH.
Qed.

Lemma moveSnake_length (g : Game) (m : Game) :
  moveSnake g = Done m ->
  List.length (body (snake m))
  = (List.length (body (snake g)) + (if growing (snake g) then 1 else 0))%nat
  /\ growing (snake m) = false.
Proof.
  unfold moveSnake. destruct (body (snake g)) as [| h t] eqn:Hb; [discriminate |].
  destruct (growing (snake g)) eqn:Hg; cbn [negb]; intros H; injection H as <-.
  - game_simpl. cbn [List.length]. split; [lia | reflexivity].
  - game_simpl. split; [| exact Hg].
    match goal with
    | |- List.length ?X = _ => change X with (removelast (newHead g h :: h :: t))
    end.
    rewrite removelast_length_cons. cbn [List.length]. lia.
Qed.

Lemma checkPowerUps_snake (now : Z) (g : Game) :
  snake (checkPowerUps now g) = snake g.
Proof.
  unfold checkPowerUps.
  destruct (powerUpActive (state g) && (now >=? powerUpEndTime (state g)));
    [now game_simpl | reflexivity].
Qed.

Lemma gameLoop_length (now : Z) (fuel : nat) (g : Game) (r : Rand) (g' : Game) (r' : Rand) :
  gameLoop now fuel g r = Done (g', r') ->
  List.length (body (snake g'))
  = (List.length (body (snake g)) + (if growing (snake g) then 1 else 0))%nat.
Proof.
  intros H. destruct (gameLoop_snake _ _ _ _ _ _ H) as (m & Hm & Hbody & _).
  rewrite Hbody. exact (proj1 (moveSnake_length _ _ Hm)).
Qed.

(** C2, as the code has it: the body grows by one in the tick that starts
    with the growth flag set, and in no other; the flag is set at the end of
    a tick exactly when its head landed on the food without a collision.
    So the tick after an eating tick adds one cell, the tick after any
    other tick adds none, and the eating tick itself keeps the length
    unless the flag was already set when it started. *)
Theorem tick_length_follows_growing_flag :
  forall (now : Z) (fuel : nat) (g : Game) (r : Rand) (head0 : Cell) (rest0 : list Cell),
    body (snake g) = head0 :: rest0 ->
    exists m,
      moveSnake (commitDirection g) = Done m
      /\ List.length (body (snake m))
         = (List.length (body (snake g)) + (if growing (snake g) then 1 else 0))%nat
      /\ forall g' r',
          gameLoop now fuel g r = Done (g', r') ->
          body (snake g') = body (snake m)
          /\ List.length (body (snake g'))
          = (List.length (body (snake g)) + (if growing (snake g) then 1 else 0))%nat
          /\ (growing (snake g') = true
              <-> ~ collisionRule m (newHead (commitDirection g) head0)
                  /\ newHead (commitDirection g) head0 = food_pos (food g))
          /\ forall (now2 : Z) (fuel2 : nat) (r2 : Rand) (g2 : Game) (r2' : Rand),
              gameLoop now2 fuel2 g' r2 = Done (g2, r2') ->
              (~ collisionRule m (newHead (commitDirection g) head0)
               /\ newHead (commitDirection g) head0 = food_pos (food g) ->
               List.length (body (snake g2)) = S (List.length (body (snake g'))))
              /\ (~ (~ collisionRule m (newHead (commitDirection g) head0)
                     /\ newHead (commitDirection g) head0 = food_pos (food g)) ->
                  List.length (body (snake g2)) = List.length (body (snake g'))).
Proof.
  intros now fuel g r head0 rest0 Hb.
  destruct (moveSnake_head (commitDirection g) head0 rest0 Hb)
    as (m & rest & Hm & Hbm & _ & _ & Hfood & _).
  change (food (commitDirection g)) with (food g) in Hfood.
  destruct (moveSnake_length _ _ Hm) as [Hlen Hgrow].
  exists m. split; [exact Hm |]. split; [exact Hlen |]. intros g' r' Hloop.
  assert (Hbody : body (snake g') = body (snake m)).
  { destruct (gameLoop_snake _ _ _ _ _ _ Hloop) as (m' & Hm' & Hbody & _).
    rewrite Hm in Hm'. injection Hm' as <-. exact Hbody. }
  assert (Hflag : growing (snake g') = true
                  <-> ~ collisionRule m (newHead (commitDirection g) head0)
                      /\ newHead (commitDirection g) head0 = food_pos (food g)).
  { destruct (checkCollision_spec m _ rest Hbm) as (b & Hc & Hrule).
    destruct (gameLoop_cases _ _ _ _ _ _ Hloop) as (m' & b' & Hm' & Hc' & Ht & Hf).
    rewrite Hm in Hm'. injection Hm' as <-.
    rewrite Hc in Hc'. injection Hc' as <-.
    destruct b.
    + destruct (Ht eq_refl) as [-> _].
      destruct (endGame_stable_snake m) as [-> _]. rewrite Hgrow.
      split; [discriminate |]. intros [Hn _]. exfalso. apply Hn, Hrule. reflexivity.
    + destruct (Hf eq_refl) as (g2 & Hcf & ->). rewrite checkPowerUps_snake.
      assert (Hnc : ~ collisionRule m (newHead (commitDirection g) head0)).
      { intros Hcol. apply Hrule in Hcol. discriminate Hcol. }
      destruct ((cell_x (newHead (commitDirection g) head0) =? cell_x (food_pos (food m)))
                && (cell_y (newHead (commitDirection g) head0) =? cell_y (food_pos (food m))))
        eqn:Hon.
      * destruct (checkFood_on_food _ _ _ _ _ _ _ _ Hbm Hon Hcf) as (_ & Hg2 & _).
        rewrite Hg2. apply cell_eqb_eq in Hon. rewrite Hfood in Hon. tauto.
      * rewrite (checkFood_not_on_food _ _ _ _ _ _ Hbm Hon) in Hcf.
        injection Hcf as <- _. rewrite Hgrow.
        split; [discriminate |]. intros [_ E].
        assert (Hon' : (cell_x (newHead (commitDirection g) head0) =? cell_x (food_pos (food m)))
                       && (cell_y (newHead (commitDirection g) head0)
                           =? cell_y (food_pos (food m))) = true)
          by (apply cell_eqb_eq; rewrite Hfood; exact E).
        rewrite Hon in Hon'. discriminate Hon'. }
  split; [exact Hbody |]. split; [rewrite Hbody; exact Hlen |]. split; [exact Hflag |].
  intros now2 fuel2 r2 g2 r2' Hloop2.
  rewrite (gameLoop_length _ _ _ _ _ _ Hloop2). split.
  - intros HP. apply Hflag in HP. rewrite HP. lia.
  - intros HP. destruct (growing (snake g')); [| lia].
    exfalso. apply HP, Hflag. reflexivity.
Qed.

(** ** Direction changes *)

Lemma validTurn_spec (current d : string) :
  validTurn current d = true <-> cardinal d /\ ~ reverseOf d current.
Proof.
  unfold validTurn, cardinal, reverseOf.
  destruct (String.eqb_spec d "up") as [-> | Hu];
    [| destruct (String.eqb_spec d "down") as [-> | Hd];
       [| destruct (String.eqb_spec d "left") as [-> | Hl];
          [| destruct (String.eqb_spec d "right") as [-> | Hr]]]];
    cbn [String.eqb Ascii.eqb Bool.eqb andb orb negb].
  - destruct (String.eqb_spec current "down"); cbn [negb]; intuition (congruence || discriminate).
  - destruct (String.eqb_spec current "up"); cbn [negb]; intuition (congruence || discriminate).
  - destruct (String.eqb_spec current "right"); cbn [negb]; intuition (congruence || discriminate).
  - destruct (String.eqb_spec current "left"); cbn [negb]; intuition (congruence || discriminate).
  - intuition (congruence || discriminate).
Qed.

Lemma changeDirection_validTurn (d : string) (g : Game) :
  changeDirection d g
  = if validTurn (direction (snake g)) d
    then set_snake (set_nextDirection d (snake g)) g
    else g.
Proof. reflexivity. Qed.

Lemma last_cons_default {A : Type} (x d : A) (l : list A) :
  last (x :: l) d = last l x.
Proof.
  revert x d. induction l as [| y l IH]; intros x d; [reflexivity |].
  change (last (x :: y :: l) d) with (last (y :: l) d).
  rewrite IH. symmetry. apply IH.
Qed.

Lemma changeDirection_direction (d : string) (g : Game) :
  direction (snake (changeDirection d g)) = direction (snake g).
Proof.
  rewrite changeDirection_validTurn.
  destruct (validTurn (direction (snake g)) d); reflexivity.
Qed.

Lemma changeDirections_last (ds : list string) :
  forall g,
    direction (snake (changeDirections ds g)) = direction (snake g)
    /\ nextDirection (snake (changeDirections ds g))
       = last (filter (validTurn (direction (snake g))) ds) (nextDirection (snake g)).
Proof.
  induction ds as [| d ds IH]; intros g.
  - split; reflexivity.
  - unfold changeDirections in *. cbn [fold_left filter].
    destruct (IH (changeDirection d g)) as [IHd IHn].
    rewrite IHd, IHn, changeDirection_direction.
    split; [reflexivity |].
    rewrite changeDirection_validTurn.
    destruct (validTurn (direction (snake g)) d).
    + cbn [snake set_snake nextDirection set_nextDirection].
      now rewrite last_cons_default.
    + reflexivity.
Qed.

(** C7: [changeDirection(d)] is a no-op when [d] reverses the committed
    direction or is no cardinal value, and otherwise buffers [d]; after any
    sequence of calls the next tick commits the argument of the last
    accepted call (or what was buffered before, when none was accepted). *)
Theorem changeDirection_ignores_reversal_and_coalesces :
  forall (d : string) (g : Game),
    (reverseOf d (direction (snake g)) \/ ~ cardinal d -> changeDirection d g = g)
    /\ (cardinal d -> ~ reverseOf d (direction (snake g)) ->
        changeDirection d g = set_snake (set_nextDirection d (snake g)) g
        /\ nextDirection (snake (changeDirection d g)) = d)
    /\ (validTurn (direction (snake g)) d = true
        <-> cardinal d /\ ~ reverseOf d (direction (snake g)))
    /\ forall ds : list string,
        direction (snake (commitDirection (changeDirections ds g)))
        = last (filter (validTurn (direction (snake g))) ds) (nextDirection (snake g))
        /\ forall (now : Z) (fuel : nat) (r : Rand) (g' : Game) (r' : Rand),
            gameLoop now fuel (changeDirections ds g) r = Done (g', r') ->
            direction (snake g')
            = last (filter (validTurn (direction (snake g))) ds) (nextDirection (snake g)).
Proof.
  intros d g. pose proof (validTurn_spec (direction (snake g)) d) as Hv.
  split; [| split; [| split]].
  - intros H. rewrite changeDirection_validTurn.
    destruct (validTurn (direction (snake g)) d); [| reflexivity].
    exfalso. destruct Hv as [Hv _]. specialize (Hv eq_refl). tauto.
  - intros Hc Hr. rewrite changeDirection_validTurn.
    destruct Hv as [_ Hv]. rewrite (Hv (conj Hc Hr)). split; reflexivity.
  - exact Hv.
  - intros ds. split; [apply changeDirections_last |].
    intros now fuel r g' r' Hloop.
    apply gameLoop_snake in Hloop. destruct Hloop as (m & _ & _ & Hdir & _).
    rewrite Hdir. apply changeDirections_last.
Qed.

(** ** Grid bounds *)

Lemma moveSnake_body (g m : Game) (h : Cell) (t : list Cell) :
  body (snake g) = h :: t ->
  moveSnake g = Done m ->
  body (snake m)
  = newHead g h :: (if growing (snake g) then h :: t else removelast (h :: t)).
Proof.
  intros Hb. unfold moveSnake. rewrite Hb.
  destruct (growing (snake g)); cbn [negb]; intros H; injection H as <-; reflexivity.
Qed.

Lemma Forall_removelast {A : Type} (P : A -> Prop) (l : list A) :
  Forall P l -> Forall P (removelast l).
Proof.
  induction 1 as [| x l Hx Hl IH]; [constructor |].
  destruct l as [| y l']; [constructor |].
  change (removelast (x :: y :: l')) with (x :: removelast (y :: l')).
  constructor; assumption.
Qed.

Lemma newHead_wallPass_inGrid (g : Game) (h : Cell) :
  hasPowerUp g "wallPass" = true ->
  inGrid (config g) h ->
  inGrid (config g) (newHead g h).
Proof.
  intros Hw [Hx Hy]. unfold newHead, shiftHead, wrapHead, inGrid. rewrite Hw.
  destruct (String.eqb (direction (snake g)) "up");
    [| destruct (String.eqb (direction (snake g)) "down");
       [| destruct (String.eqb (direction (snake g)) "left");
          [| destruct (String.eqb (direction (snake g)) "right")]]];
    cbn [cell_x cell_y]; rewrite !Z.geb_leb;
    repeat match goal with
           | |- context [?a <? ?b] => destruct (Z.ltb_spec a b)
           | |- context [?a <=? ?b] => destruct (Z.leb_spec a b)
           end; lia.
Qed.

Lemma no_collision_inGrid (m : Game) (head : Cell) (rest : list Cell) :
  body (snake m) = head :: rest ->
  checkCollision m = Done false ->
  hasPowerUp m "wallPass" = false ->
  inGrid (config m) head.
Proof.
  intros Hb Hc Hw. unfold checkCollision in Hc. rewrite Hb, Hw in Hc.
  cbn [negb andb] in Hc.
  destruct (outOfGrid (config m) head) eqn:Ho; [discriminate Hc |].
  unfold outOfGrid in Ho. unfold inGrid.
  rewrite !Z.geb_leb in Ho.
  repeat match type of Ho with
         | context [?a <? ?b] => destruct (Z.ltb_spec a b)
         | context [?a <=? ?b] => destruct (Z.leb_spec a b)
         end; try discriminate Ho; lia.
Qed.

(** C10, as the code has it.  A tick of a running game that, without the
    wall pass, moves the head out of the grid ends the game and leaves
    that out-of-range head first in the snapshot of [getRenderData].
    Conversely, a tick of a running game that does not end the game keeps
    every body cell inside the grid when every body cell was inside
    before it. *)
Theorem wall_hit_keeps_head_and_ticks_keep_bounds :
  forall (now : Z) (fuel : nat) (g : Game) (r : Rand) (head0 : Cell) (rest0 : list Cell),
    running (state g) = true ->
    body (snake g) = head0 :: rest0 ->
    (~ powerUpIs g "wallPass" ->
     ~ inGrid (config g) (newHead (commitDirection g) head0) ->
     exists g',
       gameLoop now fuel g r = Done (g', r)
       /\ gameOver (state g') = true
       /\ hd_error (rd_snake (getRenderData g')) = Some (newHead (commitDirection g) head0)
       /\ ~ (0 <= cell_x (newHead (commitDirection g) head0) < rd_width (getRenderData g')
             /\ 0 <= cell_y (newHead (commitDirection g) head0) < rd_height (getRenderData g')))
    /\ (forall g' r',
           gameLoop now fuel g r = Done (g', r') ->
           gameOver (state g') = false ->
           Forall (inGrid (config g)) (body (snake g)) ->
           Forall (inGrid (config g')) (body (snake g'))).
Proof.
  intros now fuel g r head0 rest0 Hrun Hb.
  destruct (moveSnake_head (commitDirection g) head0 rest0 Hb)
    as (m & rest & Hm & Hbm & Hcfg & Hst & _).
  change (config (commitDirection g)) with (config g) in Hcfg.
  change (state (commitDirection g)) with (state g) in Hst.
  assert (Hrm : running (state m) = true) by (rewrite Hst; exact Hrun).
  destruct (checkCollision_spec m _ rest Hbm) as (b & Hc & Hrule).
  split.
  - intros Hw Hout.
    assert (Hb1 : b = true).
    { apply Hrule. left. unfold powerUpIs. rewrite Hst, Hcfg. split; assumption. }
    subst b. exists (endGame m).
    destruct (endGame_running m Hrm)
      as (_ & E2 & _ & _ & _ & _ & _ & _ & E9 & _ & E11 & _).
    split; [apply (gameLoop_unfold now fuel g r m true Hm Hc) |].
    split; [exact E2 |].
    unfold getRenderData. cbn [rd_snake rd_width rd_height].
    rewrite E9, E11, Hbm, Hcfg. split; [reflexivity | exact Hout].
  - intros g' r' Hloop Hover Hall.
    destruct (gameLoop_snake _ _ _ _ _ _ Hloop) as (m' & Hm' & Hbody & _ & Hcfg').
    rewrite Hm in Hm'. injection Hm' as <-.
    destruct (gameLoop_cases _ _ _ _ _ _ Hloop) as (m' & b' & Hm' & Hc' & Ht & _).
    rewrite Hm in Hm'. injection Hm' as <-.
    rewrite Hc in Hc'. injection Hc' as <-.
    destruct b.
    + destruct (Ht eq_refl) as [-> _].
      destruct (endGame_running m Hrm) as (_ & E2 & _). congruence.
    + rewrite Hbody, Hcfg'.
      rewrite (moveSnake_body (commitDirection g) m head0 rest0 Hb Hm).
      rewrite Hb in Hall.
      constructor.
      * destruct (hasPowerUp (commitDirection g) "wallPass") eqn:Hw.
        -- apply (newHead_wallPass_inGrid (commitDirection g) head0 Hw).
           now inversion Hall.
        -- rewrite <- Hcfg. apply (no_collision_inGrid m _ rest Hbm Hc).
           unfold hasPowerUp in *. rewrite Hst. exact Hw.
      * destruct (growing (snake (commitDirection g)));
          [exact Hall | apply Forall_removelast; exact Hall].
Qed.

(** ** The spawn search *)

Lemma floor_scale (u : Q) (n : Z) :
  (0 <= u)%Q -> (u < 1)%Q -> 1 <= n -> 0 <= Qfloor (u * inject_Z n) < n.
Proof.
  intros H0 H1 Hn.
  assert (Hpos : (0 < inject_Z n)%Q) by (unfold Qlt, inject_Z; simpl; lia).
  split.
  - change 0 with (Qfloor 0). apply Qfloor_resp_le.
    apply Qmult_le_0_compat; [exact H0 | now apply Qlt_le_weak].
  - rewrite Zlt_Qlt.
    apply Qle_lt_trans with (u * inject_Z n)%Q; [apply Qfloor_le |].
    setoid_replace (inject_Z n) with (1 * inject_Z n)%Q at 2 by ring.
    now apply Qmult_lt_compat_r.
Qed.

Lemma inRange_after2 (r : Rand) : inRange r -> inRange (after2 r).
Proof. intros H n. apply H. Qed.

Lemma inRange_after1 (r : Rand) : inRange r -> inRange (after1 r).
Proof. intros H n. apply H. Qed.

Lemma candidate_inGrid (c : Config) (r : Rand) :
  inRange r -> 1 <= width c -> 1 <= height c -> inGrid c (candidate c r).
Proof.
  intros Hr Hw Hh. unfold candidate, inGrid. cbn [cell_x cell_y].
  replace (width c - 1 - 0 + 1) with (width c) by lia.
  replace (height c - 1 - 0 + 1) with (height c) by lia.
  destruct (Hr 0%nat) as [Ha Hb]. destruct (Hr 1%nat) as [Hc Hd].
  pose proof (floor_scale (r 0%nat) (width c) Ha Hb Hw).
  pose proof (floor_scale (r 1%nat) (height c) Hc Hd Hh).
  lia.
Qed.

Lemma spawnFood_search_test (k : nat) (isSpecial : bool) (g : Game) (r : Rand) :
  spawnFood_search (S k) isSpecial g r
  = let f := mkFood (candidate (config g) r) (if isSpecial then "special" else "normal") in
    if foodCellFree g (candidate (config g) r)
    then Done (set_food f g, after2 r)
    else spawnFood_search k isSpecial (set_food f g) (after2 r).
Proof. apply spawnFood_search_S. Qed.

Lemma spawnObstacle_search_test (k : nat) (g : Game) (r : Rand) :
  spawnObstacle_search (S k) g r
  = if obstacleCellFree g (candidate (config g) r)
    then Done (candidate (config g) r, after2 r)
    else spawnObstacle_search k g (after2 r).
Proof. apply spawnObstacle_search_S. Qed.

Lemma existsb_checkCollisionCells (p : Cell) (l : list Cell) :
  existsb (checkCollisionCells p) l = true <-> In p l.
Proof. apply existsb_cell_In. Qed.

Lemma foodCellFree_false (g : Game) (p : Cell) :
  foodCellFree g p = false <-> In p (body (snake g)) \/ In p (obstacles g).
Proof.
  unfold foodCellFree, checkCollisionWithArray. cbn [skipn].
  rewrite <- !existsb_checkCollisionCells.
  destruct (existsb (checkCollisionCells p) (body (snake g))),
    (existsb (checkCollisionCells p) (obstacles g)); cbn; intuition congruence.
Qed.

Lemma obstacleCellFree_false (g : Game) (p : Cell) :
  obstacleCellFree g p = false
  <-> In p (body (snake g)) \/ p = food_pos (food g) \/ In p (obstacles g).
Proof.
  unfold obstacleCellFree, checkCollisionWithArray. cbn [skipn].
  rewrite <- !existsb_checkCollisionCells.
  rewrite <- (cell_eqb_eq p (food_pos (food g))).
  change ((cell_x p =? cell_x (food_pos (food g))) && (cell_y p =? cell_y (food_pos (food g))))
    with (checkCollisionCells p (food_pos (food g))).
  destruct (existsb (checkCollisionCells p) (body (snake g))),
    (checkCollisionCells p (food_pos (food g))),
    (existsb (checkCollisionCells p) (obstacles g)); cbn; intuition congruence.
Qed.

Lemma food_search_hangs_when_full (fuel : nat) (isSpecial : bool) :
  forall g r,
    inRange r -> 1 <= width (config g) -> 1 <= height (config g) ->
    fullForFood g ->
    spawnFood_search fuel isSpecial g r = Hang.
Proof.
  induction fuel as [| k IH]; intros g r Hr Hw Hh Hfull; [reflexivity |].
  rewrite spawnFood_search_test. cbv zeta.
  rewrite (proj2 (foodCellFree_false g _) (Hfull _ (candidate_inGrid _ _ Hr Hw Hh))).
  apply IH; [now apply inRange_after2 | exact Hw | exact Hh | exact Hfull].
Qed.

Lemma obstacle_search_hangs_when_full (fuel : nat) :
  forall g r,
    inRange r -> 1 <= width (config g) -> 1 <= height (config g) ->
    fullForObstacle g ->
    spawnObstacle_search fuel g r = Hang.
Proof.
  induction fuel as [| k IH]; intros g r Hr Hw Hh Hfull; [reflexivity |].
  rewrite spawnObstacle_search_test.
  rewrite (proj2 (obstacleCellFree_false g _) (Hfull _ (candidate_inGrid _ _ Hr Hw Hh))).
  apply IH; [now apply inRange_after2 | exact Hw | exact Hh | exact Hfull].
Qed.

Lemma food_search_finds (k : nat) :
  forall fuel isSpecial g r,
    (k < fuel)%nat ->
    (forall j, (j < k)%nat -> foodCellFree g (nthCandidate (config g) r j) = false) ->
    foodCellFree g (nthCandidate (config g) r k) = true ->
    spawnFood_search fuel isSpecial g r
    = Done (set_food (mkFood (nthCandidate (config g) r k)
                             (if isSpecial then "special" else "normal")) g,
            after2 (dropPairs k r)).
Proof.
  induction k as [| k IH]; intros fuel isSpecial g r Hk Hbefore Hat;
    (destruct fuel as [| fuel]; [lia |]); rewrite spawnFood_search_test; cbv zeta.
  - unfold nthCandidate in Hat. cbn [dropPairs] in *. rewrite Hat. reflexivity.
  - pose proof (Hbefore 0%nat ltac:(lia)) as H0.
    unfold nthCandidate in H0. cbn [dropPairs] in H0. rewrite H0.
    rewrite (IH fuel isSpecial _ (after2 r)).
    + reflexivity.
    + lia.
    + intros j Hj. apply (Hbefore (S j)). lia.
    + exact Hat.
Qed.

Lemma obstacle_search_finds (k : nat) :
  forall fuel g r,
    (k < fuel)%nat ->
    (forall j, (j < k)%nat -> obstacleCellFree g (nthCandidate (config g) r j) = false) ->
    obstacleCellFree g (nthCandidate (config g) r k) = true ->
    spawnObstacle_search fuel g r
    = Done (nthCandidate (config g) r k, after2 (dropPairs k r)).
Proof.
  induction k as [| k IH]; intros fuel g r Hk Hbefore Hat;
    (destruct fuel as [| fuel]; [lia |]); rewrite spawnObstacle_search_test.
  - unfold nthCandidate in Hat. cbn [dropPairs] in *. rewrite Hat. reflexivity.
  - pose proof (Hbefore 0%nat ltac:(lia)) as H0.
    unfold nthCandidate in H0. cbn [dropPairs] in H0. rewrite H0.
    rewrite (IH fuel _ (after2 r)).
    + reflexivity.
    + lia.
    + intros j Hj. apply (Hbefore (S j)). lia.
    + exact Hat.
Qed.

(** C6, as the code has it: the spawn search has no retry cap and no
    failure outcome.  On a fully occupied grid it is still searching after
    any number of iterations, for food and for obstacles; and it returns
    as soon as a candidate passes the acceptance test, with that candidate,
    however many candidates were rejected before. *)
Theorem spawn_search_is_unbounded :
  (forall (fuel : nat) (g : Game) (r : Rand),
      inRange r -> 1 <= width (config g) -> 1 <= height (config g) ->
      fullForFood g ->
      spawnFood fuel g r = Hang)
  /\ (forall (fuel : nat) (g : Game) (r : Rand),
        inRange r -> 1 <= width (config g) -> 1 <= height (config g) ->
        fullForObstacle g ->
        spawnObstacle fuel g r = Hang)
  /\ (forall (k fuel : nat) (g : Game) (r : Rand),
        (k < fuel)%nat ->
        (forall j, (j < k)%nat ->
                   foodCellFree g (nthCandidate (config g) (after1 r) j) = false) ->
        foodCellFree g (nthCandidate (config g) (after1 r) k) = true ->
        exists g',
          spawnFood fuel g r = Done (g', after2 (dropPairs k (after1 r)))
          /\ food_pos (food g') = nthCandidate (config g) (after1 r) k
          /\ g' = set_specialFoodTimer (specialFoodTimer g') (set_food (food g') g))
  /\ (forall (k fuel : nat) (g : Game) (r : Rand),
        (k < fuel)%nat ->
        (forall j, (j < k)%nat ->
                   obstacleCellFree g (nthCandidate (config g) r j) = false) ->
        obstacleCellFree g (nthCandidate (config g) r k) = true ->
        spawnObstacle fuel g r
        = Done (set_obstacles (obstacles g ++ [nthCandidate (config g) r k]) g,
                after2 (dropPairs k r))).
Proof.
  split; [| split; [| split]].
  - intros fuel g r Hr Hw Hh Hfull. unfold spawnFood, bind, random.
    rewrite food_search_hangs_when_full; try assumption; [reflexivity |].
    apply (inRange_after1 r Hr).
  - intros fuel g r Hr Hw Hh Hfull. unfold spawnObstacle, bind.
    now rewrite obstacle_search_hangs_when_full.
  - intros k fuel g r Hk Hbefore Hat. unfold spawnFood, bind, random, ret.
    rewrite (food_search_finds k fuel _ (set_specialFoodTimer None g) (after1 r) Hk Hbefore Hat).
    eexists. split; [reflexivity |].
    destruct (Qltb (r 0%nat) (specialFoodChance (config (set_specialFoodTimer None g))));
      split; reflexivity.
  - intros k fuel g r Hk Hbefore Hat. unfold spawnObstacle, bind, ret.
    now rewrite (obstacle_search_finds k fuel g r Hk Hbefore Hat).
Qed.

(* -------------------------------------------------------------------- *)
(** * The properties on concrete games *)

(** The collision rule at work: the head of [gEdge] leaves the grid and the
    tick ends the game. *)
Lemma tick_ends_game_witness :
  exists g',
    gameLoop 0 5 gEdge rndHalf = Done (g', rndHalf)
    /\ running (state g') = false
    /\ gameOver (state g') = true
    /\ score (state g') = 0.
Proof.
  destruct (tick_ends_game_iff_collision 0 5 gEdge rndHalf (mkCell 29 10)
              [mkCell 28 10; mkCell 27 10] eq_refl eq_refl)
    as (m & rest & Hm & _ & Hcol & _).
  assert (Hc : collisionRule m (newHead (commitDirection gEdge) (mkCell 29 10))).
  { vm_compute in Hm. injection Hm as <-. left. split.
    - intros [Ha _]. discriminate Ha.
    - unfold inGrid. vm_compute. intros [[_ Hx] _]. discriminate Hx. }
  destruct (Hcol Hc) as (H1 & H2 & H3 & H4 & _).
  exists (endGame m). repeat split; assumption.
Defined.



Lemma obstacle_hit_witness :
  exists g',
    gameLoop 0 5 gObstacleAhead rndThird = Done (g', rndThird)
    /\ gameOver (state g') = true
    /\ foodEaten (state g') = 0
    /\ score (state g') = 0
    /\ emitted g' = [GameOver (mkSummary 0 0 0 0 "obstacle")].
Proof.
  assert (Hinv : ~ powerUpIs gObstacleAhead "invincible").
  { intros [Ha _]. discriminate Ha. }
  destruct (obstacle_hit_ends_game_before_food 0 5 gObstacleAhead rndThird
              (mkCell 15 10) [mkCell 14 10; mkCell 13 10]
              eq_refl eq_refl eq_refl Hinv (or_introl eq_refl))
    as (g' & Hloop & Hover & _ & Hfood & Hscore & _ & _ & Hem).
  exists g'. repeat split; assumption.
Defined.

Lemma changeDirection_witness :
  nextDirection (snake (changeDirection "up" gFoodAhead)) = "up"
  /\ changeDirection "left" gFoodAhead = gFoodAhead
  /\ changeDirection "banana" gFoodAhead = gFoodAhead
  /\ exists g' r',
      gameLoop 0 5 (changeDirections ["up"; "left"; "banana"; "down"] gFoodAhead) rndThird
      = Done (g', r')
      /\ direction (snake g') = "down".
Proof.
  split; [| split; [| split]].
  - destruct (changeDirection_ignores_reversal_and_coalesces "up" gFoodAhead)
      as (_ & Hok & _).
    apply Hok.
    + left. reflexivity.
    + intros [[_ H] | [[H _] | [[H _] | [H _]]]]; discriminate H.
  - destruct (changeDirection_ignores_reversal_and_coalesces "left" gFoodAhead)
      as (Hno & _).
    apply Hno. left. right. right. left. split; reflexivity.
  - destruct (changeDirection_ignores_reversal_and_coalesces "banana" gFoodAhead)
      as (Hno & _).
    apply Hno. right. intros [H | [H | [H | H]]]; discriminate H.
  - destruct (changeDirection_ignores_reversal_and_coalesces "up" gFoodAhead)
      as (_ & _ & _ & Hlast).
    assert (Hloop : exists g' r',
               gameLoop 0 5 (changeDirections ["up"; "left"; "banana"; "down"] gFoodAhead)
                        rndThird = Done (g', r')).
    { eexists. eexists. vm_compute. reflexivity. }
    destruct Hloop as (g' & r' & Hloop). exists g', r'.
    split; [exact Hloop |].
    rewrite (proj2 (Hlast _) _ _ _ _ _ Hloop). reflexivity.
Defined.

(** Against C2 as stated: the head of [gFoodAhead] lands on the food, the
    food is eaten, and the body is as long after the tick as before it. *)
Lemma eating_tick_keeps_length :
  exists g' r',
    gameLoop 0 5 gFoodAhead rndThird = Done (g', r')
    /\ hd_error (body (snake g')) = Some (food_pos (food gFoodAhead))
    /\ foodEaten (state g') = foodEaten (state gFoodAhead) + 1
    /\ List.length (body (snake gFoodAhead)) = 3%nat
    /\ List.length (body (snake g')) = 3%nat
    /\ growing (snake g') = true
    /\ exists g'' r'',
        gameLoop 0 5 g' r' = Done (g'', r'')
        /\ foodEaten (state g'') = foodEaten (state g')
        /\ List.length (body (snake g'')) = 4%nat.
Proof.
  eexists. eexists. split; [vm_compute; reflexivity |].
  repeat (split; [reflexivity |]).
  eexists. eexists. split; [vm_compute; reflexivity |].
  split; reflexivity.
Qed.

(** Two foods on consecutive ticks: the first eating tick keeps the three
    cells and sets the flag, the second one lands on the next food and ends
    with four cells. *)
Lemma tick_length_witness :
  exists g' r' g2 r2,
    gameLoop 0 5 gFoodAhead drawsFoodAhead = Done (g', r')
    /\ List.length (body (snake g')) = 3%nat
    /\ growing (snake g') = true
    /\ gameLoop 100 5 g' r' = Done (g2, r2)
    /\ foodEaten (state g2) = 2
    /\ List.length (body (snake g2)) = 4%nat.
Proof.
  destruct (tick_length_follows_growing_flag 0 5 gFoodAhead drawsFoodAhead (mkCell 15 10)
              [mkCell 14 10; mkCell 13 10] eq_refl)
    as (m & Hm & _ & Hlen).
  assert (Hloop : exists g' r' g2 r2,
             gameLoop 0 5 gFoodAhead drawsFoodAhead = Done (g', r')
             /\ gameLoop 100 5 g' r' = Done (g2, r2)
             /\ foodEaten (state g2) = 2).
  { eexists. eexists. eexists. eexists.
    split; [vm_compute; reflexivity |]. split; vm_compute; reflexivity. }
  destruct Hloop as (g' & r' & g2 & r2 & Hloop & Hloop2 & He). exists g', r', g2, r2.
  destruct (Hlen g' r' Hloop) as (_ & H1 & H2 & H3).
  assert (HP : ~ collisionRule m (newHead (commitDirection gFoodAhead) (mkCell 15 10))
               /\ newHead (commitDirection gFoodAhead) (mkCell 15 10)
                  = food_pos (food gFoodAhead)).
  { vm_compute in Hm. injection Hm as <-. split; [| reflexivity].
    intros [[_ Hout] | [[_ (i & Hi & Hnth)] | [Hmode _]]].
    - apply Hout. unfold inGrid. vm_compute. repeat split; discriminate.
    - destruct i as [| [| [| i]]]; try lia; try discriminate Hnth.
      destruct i; discriminate Hnth.
    - discriminate Hmode. }
  split; [exact Hloop |]. split; [exact H1 |]. split; [apply H2; exact HP |].
  split; [exact Hloop2 |]. split; [exact He |].
  destruct (H3 _ _ _ _ _ Hloop2) as (Hgrow & _).
  rewrite (Hgrow HP), H1. reflexivity.
Defined.

Lemma inRange_const (q : Q) : (0 <= q)%Q -> (q < 1)%Q -> inRange (fun _ => q).
Proof. intros H0 H1 n. split; assumption. Qed.

Lemma fullBoard_full : fullForFood fullBoard /\ fullForObstacle fullBoard.
Proof.
  assert (H : forall p, inGrid (config fullBoard) p -> p = mkCell 0 0).
  { intros [px py] [Hx Hy]. cbn in Hx, Hy. f_equal; lia. }
  split; intros p Hp; left; left; symmetry; now apply H.
Qed.

(** Against C6 as stated: on the one-cell grid that the snake occupies the
    search for a food cell and the search for an obstacle cell are still
    running after any number of iterations; no failure is reported. *)
Lemma spawn_on_full_board_never_returns :
  (forall fuel, spawnFood fuel fullBoard rndThird = Hang)
  /\ (forall fuel, spawnObstacle fuel fullBoard rndThird = Hang).
Proof.
  assert (Hr : inRange rndThird) by (apply inRange_const; [discriminate | reflexivity]).
  destruct fullBoard_full as [Hf Ho].
  split; intros fuel.
  - unfold spawnFood, bind, random.
    rewrite food_search_hangs_when_full;
      try assumption; try reflexivity; try (cbn; lia).
  - unfold spawnObstacle, bind.
    rewrite obstacle_search_hangs_when_full;
      try assumption; try reflexivity; try (cbn; lia).
Qed.

Lemma spawn_search_witness :
  spawnFood 1000 fullBoard rndHalf = Hang
  /\ exists g',
      spawnFood 2 (sampleIdle centreSnake (mkFood (mkCell 0 0) "normal") [] defaultConfig)
                drawsRetry
      = Done (g', after2 (dropPairs 1 (after1 drawsRetry)))
      /\ food_pos (food g') = mkCell 10 6.
Proof.
  destruct spawn_search_is_unbounded as (Hfull & _ & Hfind & _).
  split.
  - apply Hfull.
    + apply inRange_const; [discriminate | reflexivity].
    + cbn. lia.
    + cbn. lia.
    + apply fullBoard_full.
  - destruct (Hfind 1%nat 2%nat
                (sampleIdle centreSnake (mkFood (mkCell 0 0) "normal") [] defaultConfig)
                drawsRetry) as (g' & Hs & Hpos & _).
    + lia.
    + intros j Hj. assert (j = 0%nat) as -> by lia. reflexivity.
    + reflexivity.
    + exists g'. split; [exact Hs |]. rewrite Hpos. reflexivity.
Defined.

(** Against C10 as stated: after the wall collision of [gEdge] a call of
    [start] clears [gameOver] while the head is still outside the grid;
    and narrowing the grid of the running [gFoodAhead] with [setConfig]
    leaves its body outside the new bounds. *)
Lemma body_outside_grid_while_not_over :
  (exists g1,
      gameLoop 0 5 gEdge rndHalf = Done (g1, rndHalf)
      /\ gameOver (state g1) = true
      /\ running (state (start g1)) = true
      /\ gameOver (state (start g1)) = false
      /\ hd_error (body (snake (start g1))) = Some (mkCell 30 10)
      /\ ~ Forall (inGrid (config (start g1))) (body (snake (start g1))))
  /\ (exists g2,
        setConfig 5 narrowPatch gFoodAhead rndHalf = Done (g2, rndHalf)
        /\ running (state g2) = true
        /\ gameOver (state g2) = false
        /\ width (config g2) = 10
        /\ body (snake g2) = centreSnake
        /\ ~ Forall (inGrid (config g2)) (body (snake g2))).
Proof.
  split.
  - eexists. split; [vm_compute; reflexivity |].
    repeat (split; [reflexivity |]).
    intros H. inversion H as [| c l [[_ Hx] _] _]. vm_compute in Hx. discriminate Hx.
  - eexists. split; [vm_compute; reflexivity |].
    repeat (split; [reflexivity |]).
    intros H. inversion H as [| c l [[_ Hx] _] _]. vm_compute in Hx. discriminate Hx.
Qed.

Lemma wall_hit_witness :
  (exists g',
      gameLoop 0 5 gEdge rndHalf = Done (g', rndHalf)
      /\ gameOver (state g') = true
      /\ hd_error (rd_snake (getRenderData g')) = Some (mkCell 30 10))
  /\ (exists g' r',
        gameLoop 0 5 gFoodAhead rndThird = Done (g', r')
        /\ Forall (inGrid (config g')) (body (snake g'))).
Proof.
  split.
  - destruct (wall_hit_keeps_head_and_ticks_keep_bounds 0 5 gEdge rndHalf (mkCell 29 10)
                [mkCell 28 10; mkCell 27 10] eq_refl eq_refl) as (Hwall & _).
    destruct Hwall as (g' & Hloop & Hover & Hhd & _).
    + intros [Ha _]. discriminate Ha.
    + unfold inGrid. vm_compute. intros [[_ Hx] _]. discriminate Hx.
    + exists g'. repeat split; assumption.
  - destruct (wall_hit_keeps_head_and_ticks_keep_bounds 0 5 gFoodAhead rndThird
                (mkCell 15 10) [mkCell 14 10; mkCell 13 10] eq_refl eq_refl)
      as (_ & Hkeep).
    assert (Hloop : exists g' r', gameLoop 0 5 gFoodAhead rndThird = Done (g', r')
                                  /\ gameOver (state g') = false).
    { eexists. eexists. split; [vm_compute; reflexivity | reflexivity]. }
    destruct Hloop as (g' & r' & Hloop & Hover). exists g', r'.
    split; [exact Hloop |].
    apply (Hkeep g' r' Hloop Hover).
    repeat constructor; vm_compute; discriminate.
Defined.

(** ** Timers *)

(** [init] ends with [resetState], which clears every timer: whatever food
    [spawnFood] placed, no expiry timer is pending afterwards. *)
Lemma init_leaves_no_timer (fuel : nat) (g : Game) (r : Rand) (g' : Game) (r' : Rand) :
  init fuel g r = Done (g', r') ->
  specialFoodTimer g' = None /\ gameLoopInterval g' = None /\ gameTimeInterval g' = None.
Proof.
  unfold init. intros H.
  apply bind_Done in H. destruct H as (g2 & r2 & _ & H).
  apply bind_Done in H. destruct H as (g3 & r3 & _ & H).
  unfold ret in H. injection H as <- _. repeat split.
Qed.

(** The expiry callback calls [spawnFood], which draws the kind of the new
    food again. *)
Lemma specialFoodTimeout_respawns (fuel : nat) (g : Game) (r : Rand) :
  food_type (food g) = "special" ->
  specialFoodTimeout fuel g r = spawnFood fuel g r.
Proof. intros H. unfold specialFoodTimeout. now rewrite H. Qed.

(** C3 on the code: a special food spawned by the constructor, or by
    [reset], has no expiry timer (it stays until it is eaten); and when the
    timer armed by a respawn fires, the replacement can be special again. *)
Theorem special_food_expiry_is_lost_or_repeated :
  (exists g r',
      newGame 5 emptyPatch drawsSpecial = Done (g, r')
      /\ food_type (food g) = "special"
      /\ specialFoodTimer g = None
      /\ exists g2 r2,
          reset 5 g r' = Done (g2, r2)
          /\ food_type (food g2) = "special"
          /\ specialFoodTimer g2 = None)
  /\ (exists g r' g2 r2,
        spawnFood 5 (sampleIdle centreSnake (mkFood (mkCell 0 0) "normal") [] defaultConfig)
                  drawsSpecial = Done (g, r')
        /\ food_type (food g) = "special"
        /\ specialFoodTimer g = Some 5000
        /\ specialFoodTimeout 5 g r' = Done (g2, r2)
        /\ food_type (food g2) = "special").
Proof.
  split.
  - eexists. eexists. split; [vm_compute; reflexivity |].
    split; [reflexivity |]. split; [reflexivity |].
    eexists. eexists. split; [vm_compute; reflexivity |].
    split; reflexivity.
  - eexists. eexists. eexists. eexists. split; [vm_compute; reflexivity |].
    split; [reflexivity |]. split; [reflexivity |].
    split; [vm_compute; reflexivity | reflexivity].
Qed.

(** C4 on the code: [gSpecialAhead] eats a special food at time 0 and draws
    the speed boost; the timer is rescheduled to the boosted interval.  The
    tick at time 5000 ends the boost and leaves the timer as it is: it runs
    at 103.6 ms while the speed formula gives 148 ms. *)
Theorem timer_is_stale_after_power_up_expiry :
  exists g1 r1 g2 r2,
    gameLoop 0 5 gSpecialAhead drawsBoost = Done (g1, r1)
    /\ powerUpIs g1 "speedBoost"
    /\ gameLoopInterval g1 = Some (getCurrentSpeed g1)
    /\ gameLoop 5000 5 g1 r1 = Done (g2, r2)
    /\ running (state g2) = true
    /\ powerUpActive (state g2) = false
    /\ gameLoopInterval g2 = Some (getCurrentSpeed g1)
    /\ (getCurrentSpeed g1 == 1036 # 10)%Q
    /\ (getCurrentSpeed g2 == 148 # 1)%Q
    /\ ~ (getCurrentSpeed g1 == getCurrentSpeed g2)%Q.
Proof.
  eexists. eexists. eexists. eexists.
  split; [vm_compute; reflexivity |].
  split; [split; reflexivity |].
  split; [reflexivity |].
  split; [vm_compute; reflexivity |].
  repeat (split; [reflexivity |]).
  vm_compute. discriminate.
Qed.

(** ** setConfig *)

Lemma setConfig_cases (fuel : nat) (p : ConfigPatch) (g : Game) (r : Rand) :
  (running (state g) = true ->
   setConfig fuel p g r = Done (set_config (mergeConfig (config g) p) g, r))
  /\ (running (state g) = false ->
      setConfig fuel p g r = reset fuel (set_config (mergeConfig (config g) p) g) r).
Proof.
  unfold setConfig. cbn [state set_config].
  split; intros ->; reflexivity.
Qed.

(** C9 on the code: the reset that [setConfig] performs on a game that is
    not running does not rebuild everything the constructor sets.  After a
    switch from obstacle mode to classic mode the five obstacles of the
    previous configuration are still there, where a construction with the
    merged configuration has none; and a growth flag left set by a game
    that the time limit ended survives the reset, so the first tick of the
    next game lengthens the snake without any food eaten. *)
Theorem setConfig_reset_keeps_obstacles_and_growth :
  (exists g0 r0 g1 r1 gc rc,
      newGame 5 obstaclePatch drawsObstacles = Done (g0, r0)
      /\ running (state g0) = false
      /\ setConfig 5 classicPatch g0 r0 = Done (g1, r1)
      /\ newGame 5 classicPatch r0 = Done (gc, rc)
      /\ config g1 = config gc
      /\ snake g1 = snake gc /\ food g1 = food gc /\ state g1 = state gc
      /\ obstacles gc = []
      /\ obstacles g1 = [mkCell 1 1; mkCell 2 2; mkCell 3 3; mkCell 4 4; mkCell 5 5])
  /\ (exists g1 r1 g2 r2 g3 r3,
        gameLoop 0 5 gTimeAttack rndThird = Done (g1, r1)
        /\ running (state (timeTick g1)) = false
        /\ growing (snake (timeTick g1)) = true
        /\ setConfig 5 emptyPatch (timeTick g1) r1 = Done (g2, r2)
        /\ List.length (body (snake g2)) = 3%nat
        /\ growing (snake g2) = true
        /\ gameLoop 0 5 (start g2) r2 = Done (g3, r3)
        /\ foodEaten (state g3) = 0
        /\ List.length (body (snake g3)) = 4%nat).
Proof.
  split.
  - do 6 eexists.
    split; [vm_compute; reflexivity |].
    split; [reflexivity |].
    split; [vm_compute; reflexivity |].
    split; [vm_compute; reflexivity |].
    repeat (split; [reflexivity |]). reflexivity.
  - do 6 eexists.
    split; [vm_compute; reflexivity |].
    split; [reflexivity |]. split; [reflexivity |].
    split; [vm_compute; reflexivity |].
    split; [reflexivity |]. split; [reflexivity |].
    split; [vm_compute; reflexivity |].
    split; reflexivity.
Qed.

(* -------------------------------------------------------------------- *)
(** * Further properties of the engine *)

(** ** Spawning *)

Lemma Qltb_lt (a b : Q) : Qltb a b = true <-> (a < b)%Q.
Proof.
  unfold Qltb. rewrite negb_true_iff. split.
  - intros H. apply Qnot_le_lt. intros Hle.
    apply Qle_bool_iff in Hle. congruence.
  - intros H. destruct (Qle_bool b a) eqn:E; [| reflexivity].
    apply Qle_bool_iff in E. exfalso. exact (Qlt_not_le _ _ H E).
Qed.

Lemma foodCellFree_true (g : Game) (p : Cell) :
  foodCellFree g p = true ->
  ~ In p (body (snake g)) /\ ~ In p (obstacles g).
Proof.
  intros H. split; intros Hin;
    assert (F : foodCellFree g p = false) by (apply foodCellFree_false; tauto);
    congruence.
Qed.

Lemma obstacleCellFree_true (g : Game) (p : Cell) :
  obstacleCellFree g p = true ->
  ~ In p (body (snake g)) /\ p <> food_pos (food g) /\ ~ In p (obstacles g).
Proof.
  intros H. repeat split; intros Hin;
    assert (F : obstacleCellFree g p = false) by (apply obstacleCellFree_false; tauto);
    congruence.
Qed.

Lemma spawnFood_search_post (fuel : nat) (isSpecial : bool) :
  forall g r g' r',
    spawnFood_search fuel isSpecial g r = Done (g', r') ->
    foodCellFree g (food_pos (food g')) = true
    /\ food_type (food g') = (if isSpecial then "special" else "normal")
    /\ (inRange r -> 1 <= width (config g) -> 1 <= height (config g) ->
        inGrid (config g) (food_pos (food g'))).
Proof.
  induction fuel as [| k IH]; intros g r g' r' H; [discriminate H |].
  rewrite spawnFood_search_test in H. cbv zeta in H.
  destruct (foodCellFree g (candidate (config g) r)) eqn:Hfree.
  - injection H as <- _. cbn [food set_food food_pos food_type].
    split; [exact Hfree |]. split; [reflexivity |].
    intros Hr Hw Hh. now apply candidate_inGrid.
  - apply IH in H. destruct H as (H1 & H2 & H3).
    split; [exact H1 |]. split; [exact H2 |].
    intros Hr Hw Hh. apply H3; [now apply inRange_after2 | exact Hw | exact Hh].
Qed.

Lemma spawnFood_result (fuel : nat) (g : Game) (r : Rand) (g' : Game) (r' : Rand) :
  spawnFood fuel g r = Done (g', r') ->
  exists f,
    spawnFood_search fuel (Qltb (r 0%nat) (specialFoodChance (config g)))
                     (set_specialFoodTimer None g) (after1 r)
    = Done (set_food f (set_specialFoodTimer None g), r')
    /\ g' = if Qltb (r 0%nat) (specialFoodChance (config g))
            then set_specialFoodTimer (Some (specialFoodDuration (config g))) (set_food f g)
            else set_specialFoodTimer None (set_food f g).
Proof.
  unfold spawnFood. intros H.
  apply bind_Done in H. destruct H as (u & r1 & Hu & H).
  unfold random in Hu. injection Hu as <- <-.
  apply bind_Done in H. destruct H as (g1 & r2 & Hs & H).
  pose proof (spawnFood_search_frame _ _ _ _ _ _ Hs) as Hf.
  unfold ret in H. injection H as <- <-.
  exists (food g1). rewrite <- Hf. split; [exact Hs |].
  rewrite Hf. destruct (Qltb _ _); reflexivity.
Qed.

(** X1: when [spawnFood] returns, the new food lies on no snake cell and on
    no obstacle; its kind is special exactly when the first draw is below
    [specialFoodChance], and exactly then an expiry timer of
    [specialFoodDuration] is armed; nothing but the food and that timer has
    changed; and for draws in [0,1) on a grid of at least one cell the food
    is inside the grid. *)
Theorem spawnFood_places_food_on_free_cell :
  forall (fuel : nat) (g : Game) (r : Rand) (g' : Game) (r' : Rand),
    spawnFood fuel g r = Done (g', r') ->
    ~ In (food_pos (food g')) (body (snake g'))
    /\ ~ In (food_pos (food g')) (obstacles g')
    /\ ((r 0%nat < specialFoodChance (config g))%Q ->
        food_type (food g') = "special"
        /\ specialFoodTimer g' = Some (specialFoodDuration (config g)))
    /\ (~ (r 0%nat < specialFoodChance (config g))%Q ->
        food_type (food g') = "normal" /\ specialFoodTimer g' = None)
    /\ g' = set_specialFoodTimer (specialFoodTimer g') (set_food (food g') g)
    /\ (inRange r -> 1 <= width (config g) -> 1 <= height (config g) ->
        inGrid (config g') (food_pos (food g'))).
Proof.
  intros fuel g r g' r' H.
  apply spawnFood_result in H. destruct H as (f & Hs & Hg').
  apply spawnFood_search_post in Hs. destruct Hs as (Hfree & Htype & Hgrid).
  apply foodCellFree_true in Hfree. destruct Hfree as [Hb Ho].
  cbn [body snake obstacles set_specialFoodTimer set_food config food food_pos food_type]
    in Hb, Ho, Hgrid, Htype.
  pose proof (Qltb_lt (r 0%nat) (specialFoodChance (config g))) as Hq.
  destruct (Qltb (r 0%nat) (specialFoodChance (config g))); subst g';
    cbn [body snake obstacles set_specialFoodTimer set_food config food food_pos food_type
         specialFoodTimer].
  - split; [exact Hb |]. split; [exact Ho |].
    split; [intros _; split; [exact Htype | reflexivity] |].
    split; [intros Hn; exfalso; apply Hn, Hq; reflexivity |].
    split; [reflexivity |].
    intros Hr Hw Hh. apply (Hgrid (inRange_after1 r Hr) Hw Hh).
  - split; [exact Hb |]. split; [exact Ho |].
    split; [intros Hlt; apply Hq in Hlt; discriminate Hlt |].
    split; [intros _; split; [exact Htype | reflexivity] |].
    split; [reflexivity |].
    intros Hr Hw Hh. apply (Hgrid (inRange_after1 r Hr) Hw Hh).
Qed.

Lemma spawnObstacle_search_post (fuel : nat) :
  forall g r o r',
    spawnObstacle_search fuel g r = Done (o, r') ->
    obstacleCellFree g o = true
    /\ (inRange r -> 1 <= width (config g) -> 1 <= height (config g) ->
        inGrid (config g) o).
Proof.
  induction fuel as [| k IH]; intros g r o r' H; [discriminate H |].
  rewrite spawnObstacle_search_test in H.
  destruct (obstacleCellFree g (candidate (config g) r)) eqn:Hfree.
  - injection H as <- _. split; [exact Hfree |].
    intros Hr Hw Hh. now apply candidate_inGrid.
  - apply IH in H. destruct H as [H1 H2]. split; [exact H1 |].
    intros Hr Hw Hh. apply H2; [now apply inRange_after2 | exact Hw | exact Hh].
Qed.

Lemma NoDup_snoc {A : Type} (l : list A) (x : A) :
  NoDup l -> ~ In x l -> NoDup (l ++ [x]).
Proof.
  intros Hl Hx. apply NoDup_app; [exact Hl | repeat constructor; intros [] |].
  intros a Ha [<- | []]. exact (Hx Ha).
Qed.

Lemma spawnObstacle_post (fuel : nat) (g : Game) (r : Rand) (g' : Game) (r' : Rand) :
  spawnObstacle fuel g r = Done (g', r') ->
  exists o,
    g' = set_obstacles (obstacles g ++ [o]) g
    /\ obstacleCellFree g o = true
    /\ (inRange r -> 1 <= width (config g) -> 1 <= height (config g) ->
        inGrid (config g) o).
Proof.
  intros H. unfold spawnObstacle in H.
  apply bind_Done in H. destruct H as (o & r1 & Hs & H).
  unfold ret in H. injection H as <- _.
  apply spawnObstacle_search_post in Hs. destruct Hs as [Hfree Hgrid].
  exists o. split; [reflexivity |]. split; assumption.
Qed.

(** X2: when [spawnObstacle] returns, exactly one obstacle has been appended
    and nothing else has changed; the new obstacle lies on no snake cell,
    not on the food and on no earlier obstacle, so a duplicate-free obstacle
    list stays duplicate-free; for draws in [0,1) on a grid of at least one
    cell it is inside the grid. *)
Theorem spawnObstacle_appends_one_free_cell :
  forall (fuel : nat) (g : Game) (r : Rand) (g' : Game) (r' : Rand),
    spawnObstacle fuel g r = Done (g', r') ->
    exists o,
      g' = set_obstacles (obstacles g ++ [o]) g
      /\ ~ In o (body (snake g))
      /\ o <> food_pos (food g)
      /\ ~ In o (obstacles g)
      /\ (NoDup (obstacles g) -> NoDup (obstacles g'))
      /\ (inRange r -> 1 <= width (config g) -> 1 <= height (config g) ->
          inGrid (config g) o).
Proof.
  intros fuel g r g' r' H.
  apply spawnObstacle_post in H. destruct H as (o & -> & Hfree & Hgrid).
  apply obstacleCellFree_true in Hfree. destruct Hfree as (Hb & Hf & Ho).
  exists o. split; [reflexivity |].
  split; [exact Hb |]. split; [exact Hf |]. split; [exact Ho |].
  split; [| exact Hgrid].
  intros Hn. cbn [obstacles set_obstacles]. now apply NoDup_snoc.
Qed.

Lemma spawnObstacles_post (fuel : nat) (count : nat) :
  forall g r g' r',
    spawnObstacles fuel count g r = Done (g', r') ->
    exists added,
      g' = set_obstacles (obstacles g ++ added) g
      /\ List.length added = count
      /\ (NoDup (obstacles g) -> NoDup (obstacles g ++ added))
      /\ (forall o, In o added ->
                    ~ In o (body (snake g)) /\ o <> food_pos (food g)).
Proof.
  induction count as [| n IH]; intros g r g' r' H.
  - unfold spawnObstacles, ret in H. injection H as <- _.
    exists []. rewrite app_nil_r. split; [destruct g; reflexivity |].
    split; [reflexivity |]. split; [auto |]. intros o [].
  - cbn [spawnObstacles] in H.
    apply bind_Done in H. destruct H as (g1 & r1 & H1 & H).
    apply spawnObstacle_post in H1. destruct H1 as (o & -> & Hfree & _).
    apply obstacleCellFree_true in Hfree. destruct Hfree as (Hb & Hf & Ho).
    apply IH in H. destruct H as (added & -> & Hlen & Hnd & Hall).
    cbn [obstacles set_obstacles body snake food] in *.
    exists (o :: added). rewrite <- app_assoc in *. cbn [app] in *.
    split; [reflexivity |].
    split; [cbn [List.length]; now rewrite Hlen |].
    split.
    + intros Hn. apply Hnd. now apply NoDup_snoc.
    + intros o' [<- | Hin]; [split; assumption | now apply Hall].
Qed.

(** X3: when [initObstacles] returns, the obstacle list has been rebuilt from
    empty: it holds [obstacleCount] obstacles (none for a count of zero or
    less), pairwise distinct, none on a snake cell and none on the food;
    nothing else has changed. *)
Theorem initObstacles_builds_distinct_obstacles :
  forall (fuel : nat) (g : Game) (r : Rand) (g' : Game) (r' : Rand),
    initObstacles fuel g r = Done (g', r') ->
    g' = set_obstacles (obstacles g') g
    /\ List.length (obstacles g') = Z.to_nat (obstacleCount (config g))
    /\ NoDup (obstacles g')
    /\ forall o, In o (obstacles g') ->
                 ~ In o (body (snake g)) /\ o <> food_pos (food g).
Proof.
  intros fuel g r g' r' H. unfold initObstacles in H.
  apply spawnObstacles_post in H. destruct H as (added & -> & Hlen & Hnd & Hall).
  cbn [obstacles set_obstacles config body snake food app] in *.
  split; [reflexivity |]. split; [exact Hlen |].
  split; [apply Hnd; constructor | exact Hall].
Qed.

(** ** The initial snake *)

Lemma initialBody_nth (c : Config) (i : nat) :
  (i < Z.to_nat (initialSnakeLength c))%nat ->
  nth_error (initialBody c) i = Some (mkCell (width c / 2 - Z.of_nat i) (height c / 2)).
Proof.
  intros Hi. unfold initialBody.
  rewrite nth_error_map, nth_error_seq.
  destruct (Nat.ltb_spec i (Z.to_nat (initialSnakeLength c))); [reflexivity | lia].
Qed.

Lemma initialBody_In (c : Config) (p : Cell) :
  In p (initialBody c)
  <-> exists i, (i < Z.to_nat (initialSnakeLength c))%nat
                /\ p = mkCell (width c / 2 - Z.of_nat i) (height c / 2).
Proof.
  unfold initialBody. rewrite in_map_iff. split.
  - intros (i & <- & Hin). apply in_seq in Hin. exists i. split; [lia | reflexivity].
  - intros (i & Hi & ->). exists i. split; [reflexivity | apply in_seq; lia].
Qed.

(** X4: [initSnake] lays the snake out from the centre of the grid to the
    left: [initialSnakeLength] cells (none when that is zero or less), cell
    [i] at [(floor(width/2) - i, floor(height/2))], all distinct, heading
    right; the growth flag and everything outside the snake are left as they
    were.  The whole body is inside the grid exactly when it is empty or the
    grid has at least one cell and [initialSnakeLength <= floor(width/2) + 1]. *)
Theorem initSnake_lays_out_centred_row :
  forall g : Game,
    initSnake g
    = set_snake (mkSnake (initialBody (config g)) "right" "right" (growing (snake g))) g
    /\ List.length (body (snake (initSnake g))) = Z.to_nat (initialSnakeLength (config g))
    /\ (forall i, (i < Z.to_nat (initialSnakeLength (config g)))%nat ->
                  nth_error (body (snake (initSnake g))) i
                  = Some (mkCell (width (config g) / 2 - Z.of_nat i) (height (config g) / 2)))
    /\ NoDup (body (snake (initSnake g)))
    /\ (Forall (inGrid (config g)) (body (snake (initSnake g)))
        <-> initialSnakeLength (config g) <= 0
            \/ (1 <= width (config g) /\ 1 <= height (config g)
                /\ initialSnakeLength (config g) <= width (config g) / 2 + 1)).
Proof.
  intros g. split; [reflexivity |].
  change (body (snake (initSnake g))) with (initialBody (config g)).
  split; [unfold initialBody; now rewrite length_map, length_seq |].
  split; [apply initialBody_nth |].
  split.
  - unfold initialBody. apply NoDup_map_NoDup_ForallPairs; [| apply seq_NoDup].
    intros i j _ _ E. injection E as E. lia.
  - rewrite Forall_forall. split.
    + intros Hall.
      destruct (Z_le_gt_dec (initialSnakeLength (config g)) 0) as [Hle | Hgt];
        [left; exact Hle | right].
      assert (H0 : inGrid (config g) (mkCell (width (config g) / 2 - Z.of_nat 0)
                                             (height (config g) / 2))).
      { apply Hall, initialBody_In. exists 0%nat. split; [lia | reflexivity]. }
      assert (Hl : inGrid (config g)
                     (mkCell (width (config g) / 2
                              - Z.of_nat (Z.to_nat (initialSnakeLength (config g)) - 1))
                             (height (config g) / 2))).
      { apply Hall, initialBody_In.
        exists (Z.to_nat (initialSnakeLength (config g)) - 1)%nat.
        split; [lia | reflexivity]. }
      unfold inGrid in H0, Hl. cbn [cell_x cell_y] in H0, Hl.
      pose proof (Z.div_le_upper_bound (height (config g)) 2 (height (config g))).
      assert (width (config g) / 2 <= width (config g) \/ width (config g) < 0) by
        (destruct (Z_lt_ge_dec (width (config g)) 0);
         [right; lia | left; apply Z.div_le_upper_bound; lia]).
      assert (height (config g) / 2 <= height (config g) \/ height (config g) < 0) by
        (destruct (Z_lt_ge_dec (height (config g)) 0);
         [right; lia | left; apply Z.div_le_upper_bound; lia]).
      lia.
    + intros [Hle | (Hw & Hh & Hlen)] p Hin; apply initialBody_In in Hin;
        destruct Hin as (i & Hi & ->); [lia |].
      unfold inGrid. cbn [cell_x cell_y].
      assert (0 <= width (config g) / 2 < width (config g))
        by (split; [apply Z.div_pos; lia | apply Z.div_lt_upper_bound; lia]).
      assert (0 <= height (config g) / 2 < height (config g))
        by (split; [apply Z.div_pos; lia | apply Z.div_lt_upper_bound; lia]).
      lia.
Qed.

(** ** Invariants of every sequence of calls *)

Ltac wf_unfold :=
  unfold wellFormed, lifecycleInv, scoreInv, directionInv in *; game_simpl.

Ltac wf_solve :=
  wf_unfold; intuition (try congruence; try discriminate; try lia).

Lemma reverseOf_irrefl (d : string) : ~ reverseOf d d.
Proof.
  intros [[-> H] | [[-> H] | [[-> H] | [-> H]]]]; discriminate H.
Qed.

Lemma emit_emitted_off (e : Event) (g : Game) : emit false e g = g.
Proof. reflexivity. Qed.

Lemma emit_gameTimeInterval b e g : gameTimeInterval (emit b e g) = gameTimeInterval g.
Proof. destruct b; reflexivity. Qed.

#[local] Hint Rewrite emit_gameTimeInterval : game.

Lemma emit_wf (b : bool) (e : Event) (g : Game) : wellFormed g -> wellFormed (emit b e g).
Proof. intros H. wf_solve. Qed.

Lemma start_wf (g : Game) : wellFormed g -> wellFormed (start g).
Proof.
  intros H. unfold start. destruct (running (state g)) eqn:Hr; [exact H |]. wf_solve.
Qed.

Lemma pause_wf (g : Game) : wellFormed g -> wellFormed (pause g).
Proof.
  intros H. unfold pause.
  destruct (running (state g)) eqn:Hr, (paused (state g)) eqn:Hp; cbn [negb orb];
    try exact H; wf_solve.
Qed.

Lemma resume_wf (g : Game) : wellFormed g -> wellFormed (resume g).
Proof.
  intros H. unfold resume.
  destruct (running (state g)) eqn:Hr, (paused (state g)) eqn:Hp; cbn [negb orb];
    try exact H; wf_solve.
Qed.

Lemma endGame_wf (g : Game) : wellFormed g -> wellFormed (endGame g).
Proof.
  intros H. unfold endGame.
  destruct (running (state g)) eqn:Hr; cbn [negb]; [| exact H].
  apply emit_wf. unfold clearTimers. wf_solve.
Qed.

Lemma timeTick_wf (g : Game) : wellFormed g -> wellFormed (timeTick g).
Proof.
  intros H. unfold timeTick. apply emit_wf.
  assert (H1 : wellFormed (set_state (set_time (time (state g) + 1) (state g)) g))
    by wf_solve.
  match goal with |- wellFormed (if ?b then _ else _) => destruct b end;
    [now apply endGame_wf | exact H1].
Qed.

Lemma changeDirection_wf (d : string) (g : Game) :
  wellFormed g -> wellFormed (changeDirection d g).
Proof.
  intros H. rewrite changeDirection_validTurn.
  destruct (validTurn (direction (snake g)) d) eqn:Hv; [| exact H].
  apply validTurn_spec in Hv. wf_solve.
Qed.

Lemma on_wf (event : string) (b : bool) (g : Game) : wellFormed g -> wellFormed (on event b g).
Proof.
  intros H. unfold on.
  repeat match goal with |- wellFormed (if ?c then _ else _) => destruct c end;
    try exact H; wf_solve.
Qed.

Lemma destroy_wf (g : Game) : wellFormed g -> wellFormed (destroy g).
Proof. intros H. unfold destroy, clearTimers. wf_solve. Qed.

Lemma spawnObstacles_frame (fuel : nat) (count : nat) (g : Game) (r : Rand)
      (g' : Game) (r' : Rand) :
  spawnObstacles fuel count g r = Done (g', r') -> g' = set_obstacles (obstacles g') g.
Proof.
  intros H. apply spawnObstacles_post in H. destruct H as (added & -> & _). reflexivity.
Qed.

Lemma spawnFood_free (fuel : nat) (g : Game) (r : Rand) (g' : Game) (r' : Rand) :
  spawnFood fuel g r = Done (g', r') ->
  foodCellFree g (food_pos (food g')) = true.
Proof.
  intros H. apply spawnFood_result in H. destruct H as (f & Hs & ->).
  apply spawnFood_search_post in Hs. destruct Hs as (Hfree & _).
  destruct (Qltb _ _); exact Hfree.
Qed.

(** What [init] leaves, whatever the game was before. *)
Lemma init_post (fuel : nat) (g : Game) (r : Rand) (g' : Game) (r' : Rand) :
  init fuel g r = Done (g', r') ->
  state g' = initialState
  /\ snake g' = mkSnake (initialBody (config g)) "right" "right" (growing (snake g))
  /\ config g' = config g
  /\ callbacks g' = callbacks g
  /\ emitted g' = emitted g
  /\ specialFoodTimer g' = None /\ gameLoopInterval g' = None /\ gameTimeInterval g' = None
  /\ ~ In (food_pos (food g')) (body (snake g'))
  /\ (mode (config g) <> "obstacle" ->
      obstacles g' = obstacles g /\ ~ In (food_pos (food g')) (obstacles g'))
  /\ (mode (config g) = "obstacle" ->
      List.length (obstacles g') = Z.to_nat (obstacleCount (config g))
      /\ NoDup (obstacles g')
      /\ forall o, In o (obstacles g') ->
                   ~ In o (body (snake g')) /\ o <> food_pos (food g')).
Proof.
  unfold init. intros H.
  apply bind_Done in H. destruct H as (g2 & r2 & H2 & H).
  apply bind_Done in H. destruct H as (g3 & r3 & H3 & H).
  unfold ret in H. injection H as <- _.
  pose proof (spawnFood_frame _ _ _ _ _ H2) as F2.
  apply spawnFood_free, foodCellFree_true in H2. destruct H2 as [Hfb Hfo].
  change (body (snake (initSnake g))) with (initialBody (config g)) in Hfb.
  change (obstacles (initSnake g)) with (obstacles g) in Hfo.
  assert (Hc2 : config g2 = config g) by (rewrite F2; reflexivity).
  assert (Hs2 : snake g2
                = mkSnake (initialBody (config g)) "right" "right" (growing (snake g)))
    by (rewrite F2; reflexivity).
  assert (Ho2 : obstacles g2 = obstacles g) by (rewrite F2; reflexivity).
  assert (Hk2 : callbacks g2 = callbacks g /\ emitted g2 = emitted g)
    by (rewrite F2; split; reflexivity).
  destruct Hk2 as [Hk2 He2].
  rewrite Hc2 in H3.
  destruct (String.eqb_spec (mode (config g)) "obstacle") as [Hm | Hm].
  - pose proof H3 as F3. unfold initObstacles in F3. apply spawnObstacles_frame in F3.
    cbn [set_obstacles] in F3.
    unfold initObstacles in H3. apply spawnObstacles_post in H3.
    destruct H3 as (added & E3 & Hlen & Hnd & Hall).
    cbn [obstacles set_obstacles body snake food app] in E3, Hnd, Hall.
    assert (Ho3 : obstacles g3 = added) by (rewrite E3; reflexivity).
    assert (Hrest : config g3 = config g2 /\ snake g3 = snake g2 /\ food g3 = food g2
                    /\ callbacks g3 = callbacks g2 /\ emitted g3 = emitted g2)
      by (rewrite E3; repeat split).
    destruct Hrest as (R1 & R2 & R3 & R4 & R5).
    unfold resetState, clearTimers. game_simpl.
    cbn [emitted set_specialFoodTimer set_gameTimeInterval set_gameLoopInterval set_state].
    rewrite R1, R2, R3, R4, R5, Hc2, Hs2, Hk2, He2, Ho3. cbn [body].
    rewrite Hs2 in Hall. cbn [body] in Hall.
    repeat split; try assumption; try congruence;
      try (apply Hnd; constructor); try (apply Hall; assumption).
  - unfold ret in H3. injection H3 as <- _.
    unfold resetState, clearTimers. game_simpl.
    cbn [emitted set_specialFoodTimer set_gameTimeInterval set_gameLoopInterval set_state].
    rewrite Hc2, Hs2, Hk2, He2, Ho2. cbn [body].
    repeat split; try assumption; try congruence.
Qed.

(** The counters and timers after [checkFood]. *)
Lemma checkFood_effect (now : Z) (fuel : nat) (g : Game) (r : Rand) (g' : Game) (r' : Rand) :
  checkFood now fuel g r = Done (g', r') ->
  stable g g'
  /\ gameTimeInterval g' = gameTimeInterval g
  /\ (gameLoopInterval g' = None <-> gameLoopInterval g = None)
  /\ (g' = g
      \/ (foodEaten (state g') = foodEaten (state g) + 1
          /\ ((food_type (food g) = "special"
               /\ score (state g') = score (state g) + 5
               /\ specialFoodEaten (state g') = specialFoodEaten (state g) + 1)
              \/ (food_type (food g) <> "special"
                  /\ score (state g') = score (state g) + 1
                  /\ specialFoodEaten (state g') = specialFoodEaten (state g))))).
Proof.
  intros H. destruct (body (snake g)) as [| head rest] eqn:Hb.
  { unfold checkFood in H. rewrite Hb in H. discriminate H. }
  destruct ((cell_x head =? cell_x (food_pos (food g)))
            && (cell_y head =? cell_y (food_pos (food g)))) eqn:Hc.
  2:{ rewrite (checkFood_not_on_food now fuel g r head rest Hb Hc) in H.
      injection H as <- _. split; [apply stable_refl |].
      split; [reflexivity |]. split; [tauto | left; reflexivity]. }
  pose proof (checkFood_on_food _ _ _ _ _ _ _ _ Hb Hc H) as (Hst & _).
  split; [exact Hst |]. clear Hst.
  unfold checkFood in H. rewrite Hb, Hc in H.
  apply bind_Done in H. destruct H as (g3 & r3 & H3 & H).
  apply bind_Done in H. destruct H as (g6 & r6 & H6 & H).
  apply bind_Done in H. destruct H as (g7 & r7 & H7 & H).
  unfold ret in H. injection H as <- _.
  apply spawnFood_frame in H6.
  assert (E7 : exists o, g7 = set_obstacles o g6).
  { destruct (String.eqb (mode (config g6)) "obstacle").
    - apply bind_Done in H7. destruct H7 as (u & ru & _ & H7).
      destruct (Qltb u (3 # 10)).
      + apply spawnObstacle_frame in H7. destruct H7 as [o ->]. eexists. reflexivity.
      + unfold ret in H7. injection H7 as <- _. exists (obstacles g6).
        destruct g6; reflexivity.
    - unfold ret in H7. injection H7 as <- _. exists (obstacles g6).
      destruct g6; reflexivity. }
  destruct E7 as [o ->]. clear H7.
  assert (E3 : gameLoopInterval g3 = gameLoopInterval g
               /\ gameTimeInterval g3 = gameTimeInterval g
               /\ foodEaten (state g3) = foodEaten (state g) + 1
               /\ ((food_type (food g) = "special"
                    /\ score (state g3) = score (state g) + 5
                    /\ specialFoodEaten (state g3) = specialFoodEaten (state g) + 1)
                   \/ (food_type (food g) <> "special"
                       /\ score (state g3) = score (state g) + 1
                       /\ specialFoodEaten (state g3) = specialFoodEaten (state g)))).
  { revert H3. destruct (String.eqb (food_type (food g)) "special") eqn:Hs; intros H3.
    - apply String.eqb_eq in Hs.
      apply bind_Done in H3. destruct H3 as (b & rb & Hp & H3).
      unfold ret in H3. injection H3 as <- _.
      apply activatePowerUp_frame in Hp. destruct Hp as [t ->].
      unfold addScore. game_simpl. repeat (split; [reflexivity |]).
      left. split; [assumption | split; reflexivity].
    - apply String.eqb_neq in Hs.
      unfold ret in H3. injection H3 as <- _.
      unfold addScore. game_simpl. repeat (split; [reflexivity |]).
      right. split; [assumption | split; reflexivity]. }
  clear H3. destruct E3 as (T3 & U3 & F3 & S3).
  assert (P6 : state g6 = state g3
               /\ gameLoopInterval g6 = gameLoopInterval g3
               /\ gameTimeInterval g6 = gameTimeInterval g3).
  { rewrite H6. game_simpl. repeat split. }
  destruct P6 as (P6s & P6l & P6t). clear H6.
  cbn [gameLoopInterval set_obstacles].
  rewrite P6l, T3.
  destruct (gameLoopInterval g) as [p |] eqn:Hl;
    cbn [gameTimeInterval gameLoopInterval set_gameLoopInterval set_obstacles state];
    rewrite ?P6s, ?P6t, ?U3, ?P6l, ?T3.
  - split; [reflexivity |]. split; [split; discriminate |].
    right. split; [exact F3 | exact S3].
  - split; [reflexivity |]. split; [split; reflexivity |].
    right. split; [exact F3 | exact S3].
Qed.

Lemma checkPowerUps_wf (now : Z) (g : Game) :
  wellFormed g -> wellFormed (checkPowerUps now g).
Proof.
  intros H. unfold checkPowerUps.
  destruct (powerUpActive (state g) && (now >=? powerUpEndTime (state g)));
    [| exact H].
  apply emit_wf. wf_solve.
Qed.

Lemma gameLoop_wf (now : Z) (fuel : nat) (g : Game) (r : Rand) (g' : Game) (r' : Rand) :
  wellFormed g -> gameLoop now fuel g r = Done (g', r') -> wellFormed g'.
Proof.
  intros Hwf H. apply gameLoop_cases in H.
  destruct H as (m & b & Hm & Hc & Ht & Hf).
  assert (Hwm : wellFormed m).
  { destruct (body (snake (commitDirection g))) as [| h t] eqn:Hb.
    - unfold moveSnake in Hm. rewrite Hb in Hm. discriminate Hm.
    - destruct (moveSnake_head _ _ _ Hb)
        as (m' & rest & Hm' & _ & _ & Hst & _ & _ & _ & _ & _ & Hl & Ht' & Hd & Hn).
      rewrite Hm in Hm'. injection Hm' as <-.
      cbn [commitDirection state gameLoopInterval gameTimeInterval snake set_snake
           direction nextDirection set_direction] in Hst, Hl, Ht', Hd, Hn.
      pose proof (reverseOf_irrefl (nextDirection (snake g))).
      unfold wellFormed, lifecycleInv, scoreInv, directionInv in *.
      rewrite Hst, Hl, Ht', Hd, Hn. tauto. }
  destruct b.
  - destruct (Ht eq_refl) as [-> _]. now apply endGame_wf.
  - destruct (Hf eq_refl) as (g2 & Hfood & ->). apply checkPowerUps_wf.
    apply checkFood_effect in Hfood.
    destruct Hfood as (Hst & Htime & Hloop & Hcount).
    destruct Hst as (_ & _ & Sd & Sn & Sr & Sp & So & _).
    unfold wellFormed, lifecycleInv, scoreInv, directionInv in *.
    rewrite Sd, Sn, Sr, Sp, So, Htime.
    destruct Hcount as [-> | (Hfe & [(_ & Hs & Hsp) | (_ & Hs & Hsp)])].
    + tauto.
    + rewrite Hfe, Hs, Hsp. intuition (try congruence; try lia).
    + rewrite Hfe, Hs, Hsp. intuition (try congruence; try lia).
Qed.

Lemma init_wf (fuel : nat) (g : Game) (r : Rand) (g' : Game) (r' : Rand) :
  init fuel g r = Done (g', r') -> wellFormed g'.
Proof.
  intros H. apply init_post in H.
  destruct H as (Hst & Hsn & _ & _ & _ & _ & Hl & Ht & _).
  unfold wellFormed, lifecycleInv, scoreInv, directionInv.
  rewrite Hst, Hsn, Hl, Ht. cbn.
  repeat split; try congruence; try lia; try (right; right; right; reflexivity).
  apply reverseOf_irrefl.
Qed.

Lemma specialFoodTimeout_wf (fuel : nat) (g : Game) (r : Rand) (g' : Game) (r' : Rand) :
  wellFormed g -> specialFoodTimeout fuel g r = Done (g', r') -> wellFormed g'.
Proof.
  intros Hwf H. unfold specialFoodTimeout in H.
  destruct (String.eqb (food_type (food g)) "special").
  - apply spawnFood_frame in H. rewrite H. wf_solve.
  - unfold ret in H. injection H as <- _. exact Hwf.
Qed.

Lemma setConfig_wf (fuel : nat) (p : ConfigPatch) (g : Game) (r : Rand)
      (g' : Game) (r' : Rand) :
  wellFormed g -> setConfig fuel p g r = Done (g', r') -> wellFormed g'.
Proof.
  intros Hwf H. unfold setConfig in H. cbn [state set_config] in H.
  destruct (running (state g)); cbn [negb] in H.
  - unfold ret in H. injection H as <- _. wf_solve.
  - unfold reset in H. now apply init_wf in H.
Qed.

Lemma call_wf (fuel : nat) (c : Call) (g : Game) (r : Rand) (g' : Game) (r' : Rand) :
  wellFormed g -> call fuel c g r = Done (g', r') -> wellFormed g'.
Proof.
  intros Hwf H. destruct c; cbn [call] in H;
    try (unfold ret in H; injection H as <- _).
  - now apply start_wf.
  - now apply pause_wf.
  - now apply resume_wf.
  - now apply endGame_wf.
  - unfold reset in H. now apply init_wf in H.
  - eapply gameLoop_wf; eassumption.
  - now apply timeTick_wf.
  - eapply specialFoodTimeout_wf; eassumption.
  - now apply changeDirection_wf.
  - eapply setConfig_wf; eassumption.
  - now apply on_wf.
  - now apply destroy_wf.
Qed.

Lemma calls_wf (fuel : nat) (cs : list Call) :
  forall g r g' r',
    wellFormed g -> calls fuel cs g r = Done (g', r') -> wellFormed g'.
Proof.
  induction cs as [| c cs IH]; intros g r g' r' Hwf H.
  - unfold calls, ret in H. injection H as <- _. exact Hwf.
  - cbn [calls] in H. apply bind_Done in H. destruct H as (g1 & r1 & H1 & H).
    eapply IH; [| exact H]. eapply call_wf; eassumption.
Qed.

Lemma session_wf (fuel : nat) (p : ConfigPatch) (cs : list Call) (r : Rand)
      (g : Game) (r' : Rand) :
  session fuel p cs r = Done (g, r') -> wellFormed g.
Proof.
  unfold session. intros H.
  apply bind_Done in H. destruct H as (g0 & r0 & H0 & H).
  eapply calls_wf; [| exact H]. unfold newGame in H0. now apply init_wf in H0.
Qed.

(** X5: after a construction and any sequence of method calls and timer
    firings, a pending simulation timer means the game is running and not
    paused, the simulation timer and the one-second timer are pending
    together or not at all, and a running game is not over. *)
Theorem timers_only_while_running_unpaused :
  forall (fuel : nat) (p : ConfigPatch) (cs : list Call) (r : Rand) (g : Game) (r' : Rand),
    session fuel p cs r = Done (g, r') ->
    (gameLoopInterval g <> None ->
     running (state g) = true /\ paused (state g) = false)
    /\ (gameLoopInterval g = None <-> gameTimeInterval g = None)
    /\ (running (state g) = true -> gameOver (state g) = false).
Proof.
  intros fuel p cs r g r' H. apply session_wf in H. exact (proj1 H).
Qed.

(** X6: after a construction and any sequence of method calls and timer
    firings, the score is the number of foods eaten plus four times the
    number of special foods eaten, and the special foods are counted among
    the foods. *)
Theorem score_counts_foods :
  forall (fuel : nat) (p : ConfigPatch) (cs : list Call) (r : Rand) (g : Game) (r' : Rand),
    session fuel p cs r = Done (g, r') ->
    score (state g) = foodEaten (state g) + 4 * specialFoodEaten (state g)
    /\ 0 <= specialFoodEaten (state g) <= foodEaten (state g).
Proof.
  intros fuel p cs r g r' H. apply session_wf in H. exact (proj1 (proj2 H)).
Qed.

(** X7: after a construction and any sequence of method calls and timer
    firings, the committed and the buffered direction are cardinal and the
    buffered one is not the reverse of the committed one: the direction the
    next tick commits is never a 180-degree turn. *)
Theorem snake_never_reverses :
  forall (fuel : nat) (p : ConfigPatch) (cs : list Call) (r : Rand) (g : Game) (r' : Rand),
    session fuel p cs r = Done (g, r') ->
    cardinal (direction (snake g))
    /\ cardinal (nextDirection (snake g))
    /\ ~ reverseOf (direction (snake (commitDirection g))) (direction (snake g)).
Proof.
  intros fuel p cs r g r' H. apply session_wf in H. exact (proj2 (proj2 H)).
Qed.

(** ** Construction and reset *)

(** X8: when [reset] returns, whatever the game was before: the run state is
    the initial one (not running, not over, score and counters zero, no
    power-up), no timer is pending, the snake is the centred row of
    [initialSnakeLength] cells heading right, the food is on no snake cell,
    and configuration, handlers and event trace are untouched.  The growth
    flag is the one thing of the snake that is kept, and the obstacles are
    rebuilt only in obstacle mode (there: [obstacleCount] distinct obstacles
    off the snake and off the food) and kept as they are in every other
    mode. *)
Theorem reset_restores_initial_state :
  forall (fuel : nat) (g : Game) (r : Rand) (g' : Game) (r' : Rand),
    reset fuel g r = Done (g', r') ->
    state g' = initialState
    /\ specialFoodTimer g' = None /\ gameLoopInterval g' = None /\ gameTimeInterval g' = None
    /\ body (snake g') = initialBody (config g)
    /\ List.length (body (snake g')) = Z.to_nat (initialSnakeLength (config g))
    /\ direction (snake g') = "right" /\ nextDirection (snake g') = "right"
    /\ growing (snake g') = growing (snake g)
    /\ ~ In (food_pos (food g')) (body (snake g'))
    /\ config g' = config g /\ callbacks g' = callbacks g /\ emitted g' = emitted g
    /\ (mode (config g) <> "obstacle" -> obstacles g' = obstacles g)
    /\ (mode (config g) = "obstacle" ->
        List.length (obstacles g') = Z.to_nat (obstacleCount (config g))
        /\ NoDup (obstacles g')
        /\ forall o, In o (obstacles g') ->
                     ~ In o (body (snake g')) /\ o <> food_pos (food g')).
Proof.
  intros fuel g r g' r' H. unfold reset in H. apply init_post in H.
  change (config (clearTimers g)) with (config g) in H.
  change (snake (clearTimers g)) with (snake g) in H.
  change (callbacks (clearTimers g)) with (callbacks g) in H.
  change (emitted (clearTimers g)) with (emitted g) in H.
  change (obstacles (clearTimers g)) with (obstacles g) in H.
  destruct H as (Hst & Hsn & Hc & Hk & He & T1 & T2 & T3 & Hf & Hno & Hob).
  rewrite Hsn in *. cbn [body direction nextDirection growing] in *.
  split; [exact Hst |]. split; [exact T1 |]. split; [exact T2 |]. split; [exact T3 |].
  split; [reflexivity |].
  split; [unfold initialBody; now rewrite length_map, length_seq |].
  split; [reflexivity |]. split; [reflexivity |]. split; [reflexivity |].
  split; [exact Hf |]. split; [exact Hc |]. split; [exact Hk |]. split; [exact He |].
  split; [intros Hm; exact (proj1 (Hno Hm)) | exact Hob].
Qed.

(** X9: a construction that returns gives a game that is not running, with
    score and counters zero, no timer pending, no handler registered and no
    event emitted, the merged configuration, the centred snake with the
    growth flag clear, and a consistent board: the food on no snake cell and
    on no obstacle, the obstacles pairwise distinct and off the snake;
    there are [obstacleCount] obstacles in obstacle mode and none in any
    other mode. *)
Theorem newGame_builds_consistent_board :
  forall (fuel : nat) (p : ConfigPatch) (r : Rand) (g : Game) (r' : Rand),
    newGame fuel p r = Done (g, r') ->
    config g = mergeConfig defaultConfig p
    /\ state g = initialState
    /\ specialFoodTimer g = None /\ gameLoopInterval g = None /\ gameTimeInterval g = None
    /\ callbacks g = noCallbacks /\ emitted g = []
    /\ snake g = mkSnake (initialBody (config g)) "right" "right" false
    /\ boardInv g
    /\ clearOfObstacles g
    /\ List.length (obstacles g)
       = (if String.eqb (mode (config g)) "obstacle"
          then Z.to_nat (obstacleCount (config g)) else 0%nat).
Proof.
  intros fuel p r g r' H. unfold newGame in H. apply init_post in H.
  cbn [config blankGame snake growing callbacks emitted obstacles] in H.
  destruct H as (Hst & Hsn & Hc & Hk & He & T1 & T2 & T3 & Hf & Hno & Hob).
  rewrite <- Hc in *.
  split; [reflexivity |]. split; [exact Hst |].
  split; [exact T1 |]. split; [exact T2 |]. split; [exact T3 |].
  split; [exact Hk |]. split; [exact He |]. split; [exact Hsn |].
  unfold boardInv, clearOfObstacles.
  destruct (String.eqb_spec (mode (config g)) "obstacle") as [Hm | Hm].
  - destruct (Hob Hm) as (Hlen & Hnd & Hall).
    split; [| split; [| exact Hlen]].
    + split; [exact Hf |]. split; [| exact Hnd].
      intros Hin. apply Hall in Hin. destruct Hin as [_ Hne]. now apply Hne.
    + intros c Hc1 Hc2. apply Hall in Hc2. tauto.
  - destruct (Hno Hm) as [Hnil Hfo]. rewrite Hnil.
    split; [| split; [| reflexivity]].
    + split; [exact Hf |]. split; [intros [] | constructor].
    + intros c _ [].
Qed.

(** ** The board during play *)

Lemma In_removelast {A : Type} (x : A) (l : list A) :
  In x (removelast l) -> In x l.
Proof.
  induction l as [| y l IH]; [intros [] |].
  destruct l as [| z l']; [intros [] |].
  change (removelast (y :: z :: l')) with (y :: removelast (z :: l')).
  intros [-> | Hin]; [left; reflexivity | right; now apply IH].
Qed.

Lemma NoDup_removelast {A : Type} (l : list A) :
  NoDup l -> NoDup (removelast l).
Proof.
  induction 1 as [| y l Hy Hl IH]; [constructor |].
  destruct l as [| z l']; [constructor |].
  change (removelast (y :: z :: l')) with (y :: removelast (z :: l')).
  constructor; [| exact IH]. intros Hin. apply Hy. now apply In_removelast.
Qed.

Lemma checkCollision_false_facts (m : Game) (head : Cell) (rest : list Cell) :
  body (snake m) = head :: rest ->
  checkCollision m = Done false ->
  ~ powerUpIs m "invincible" ->
  ~ In head rest /\ (mode (config m) = "obstacle" -> ~ In head (obstacles m)).
Proof.
  intros Hb Hc Hinv.
  destruct (checkCollision_spec m head rest Hb) as (b & Hc' & Hrule).
  rewrite Hc in Hc'. injection Hc' as <-.
  assert (Hno : ~ collisionRule m head) by (intros H; apply Hrule in H; discriminate H).
  split.
  - intros Hin. apply Hno. right. left. split; [exact Hinv |].
    rewrite Hb. now apply In_tail_index.
  - intros Hm Hin. apply Hno. right. right. auto.
Qed.

(** The food and the obstacles after [checkFood]. *)
Lemma checkFood_board (now : Z) (fuel : nat) (g : Game) (r : Rand) (g' : Game) (r' : Rand)
      (head : Cell) (rest : list Cell) :
  body (snake g) = head :: rest ->
  checkFood now fuel g r = Done (g', r') ->
  (head <> food_pos (food g) /\ food g' = food g /\ obstacles g' = obstacles g)
  \/ (head = food_pos (food g)
      /\ ~ In (food_pos (food g')) (body (snake g))
      /\ ~ In (food_pos (food g')) (obstacles g)
      /\ (obstacles g' = obstacles g
          \/ exists o : Cell,
              obstacles g' = (obstacles g ++ [o])%list
              /\ ~ In o (body (snake g))
              /\ o <> food_pos (food g')
              /\ ~ In o (obstacles g))).
Proof.
  intros Hb H.
  destruct ((cell_x head =? cell_x (food_pos (food g)))
            && (cell_y head =? cell_y (food_pos (food g)))) eqn:Hc.
  2:{ rewrite (checkFood_not_on_food now fuel g r head rest Hb Hc) in H.
      injection H as <- _. left. split; [| split; reflexivity].
      intros E. apply cell_eqb_eq in E. congruence. }
  right. split; [now apply cell_eqb_eq |].
  unfold checkFood in H. rewrite Hb, Hc in H.
  apply bind_Done in H. destruct H as (g3 & r3 & H3 & H).
  apply bind_Done in H. destruct H as (g6 & r6 & H6 & H).
  apply bind_Done in H. destruct H as (g7 & r7 & H7 & H).
  unfold ret in H. injection H as <- _.
  assert (E3 : snake g3 = snake g /\ obstacles g3 = obstacles g).
  { revert H3. destruct (String.eqb (food_type (food g)) "special"); intros H3.
    - apply bind_Done in H3. destruct H3 as (b & rb & Hp & H3).
      unfold ret in H3. injection H3 as <- _.
      apply activatePowerUp_frame in Hp. destruct Hp as [t ->].
      unfold addScore. game_simpl. split; reflexivity.
    - unfold ret in H3. injection H3 as <- _.
      unfold addScore. game_simpl. split; reflexivity. }
  clear H3. destruct E3 as [Hs3 Ho3].
  pose proof (spawnFood_frame _ _ _ _ _ H6) as F6.
  apply spawnFood_free, foodCellFree_true in H6.
  cbn [body snake obstacles set_snake set_growing] in H6.
  rewrite emit_snake, emit_obstacles, Hs3, Ho3 in H6. cbn [body] in H6.
  destruct H6 as [Hfb Hfo].
  assert (P6 : body (snake g6) = body (snake g) /\ obstacles g6 = obstacles g).
  { rewrite F6. game_simpl. rewrite Hs3, Ho3. split; reflexivity. }
  destruct P6 as [Pb Po].
  assert (Hfin : forall x : Game,
             food match gameLoopInterval x with
                  | Some _ => set_gameLoopInterval (Some (getCurrentSpeed x)) x
                  | None => x
                  end = food x
             /\ obstacles match gameLoopInterval x with
                          | Some _ => set_gameLoopInterval (Some (getCurrentSpeed x)) x
                          | None => x
                          end = obstacles x).
  { intros x. destruct (gameLoopInterval x); split; reflexivity. }
  destruct (Hfin g7) as [-> ->]. clear Hfin.
  assert (E7 : (g7 = g6)
               \/ exists o : Cell, g7 = set_obstacles (obstacles g6 ++ [o]) g6
                            /\ obstacleCellFree g6 o = true).
  { destruct (String.eqb (mode (config g6)) "obstacle").
    - apply bind_Done in H7. destruct H7 as (u & ru & _ & H7).
      destruct (Qltb u (3 # 10)).
      + apply spawnObstacle_post in H7. destruct H7 as (o & -> & Hfree & _).
        right. exists o. split; [reflexivity | exact Hfree].
      + unfold ret in H7. injection H7 as <- _. left. reflexivity.
    - unfold ret in H7. injection H7 as <- _. left. reflexivity. }
  destruct E7 as [-> | (o & -> & Hfree)].
  - split; [exact Hfb |]. split; [exact Hfo |]. left. exact Po.
  - cbn [food obstacles set_obstacles].
    split; [exact Hfb |]. split; [exact Hfo |]. right.
    apply obstacleCellFree_true in Hfree. rewrite Pb, Po in Hfree.
    exists o. rewrite Po. tauto.
Qed.

Lemma checkPowerUps_board (now : Z) (g : Game) :
  food (checkPowerUps now g) = food g /\ obstacles (checkPowerUps now g) = obstacles g.
Proof.
  unfold checkPowerUps.
  destruct (powerUpActive (state g) && (now >=? powerUpEndTime (state g)));
    [now game_simpl | split; reflexivity].
Qed.

(** X10: a tick of a running game that leaves the game running keeps the
    board consistent.  If before the tick the food was on no snake cell and
    on no obstacle and the obstacles were pairwise distinct, the same holds
    after it, also when the food was eaten and respawned and an obstacle was
    added.  Without invincibility a snake whose cells were pairwise distinct
    stays so; and, in obstacle mode without invincibility, a snake that
    covered no obstacle still covers none. *)
Theorem tick_keeps_board_consistent :
  forall (now : Z) (fuel : nat) (g : Game) (r : Rand) (g' : Game) (r' : Rand),
    running (state g) = true ->
    gameLoop now fuel g r = Done (g', r') ->
    running (state g') = true ->
    (boardInv g -> boardInv g')
    /\ (~ powerUpIs g "invincible" ->
        NoDup (body (snake g)) -> NoDup (body (snake g')))
    /\ (~ powerUpIs g "invincible" -> mode (config g) = "obstacle" ->
        clearOfObstacles g -> clearOfObstacles g').
Proof.
  intros now fuel g r g' r' Hrun Hloop Hrun'.
  destruct (gameLoop_cases _ _ _ _ _ _ Hloop) as (m & b & Hm & Hc & Ht & Hf).
  destruct (body (snake g)) as [| h t] eqn:Hb.
  { unfold moveSnake in Hm. cbn [commitDirection snake set_snake body set_direction] in Hm.
    rewrite Hb in Hm. discriminate Hm. }
  assert (Hb0 : body (snake (commitDirection g)) = h :: t) by exact Hb.
  destruct (moveSnake_head _ _ _ Hb0)
    as (m' & rest0 & Hm' & _ & Hcfg & Hst & Hfood & Hobs & _).
  rewrite Hm in Hm'. injection Hm' as <-.
  pose proof (moveSnake_body _ _ _ _ Hb0 Hm) as Hbm.
  cbn [commitDirection config state food obstacles snake set_snake growing set_direction]
    in Hcfg, Hst, Hfood, Hobs, Hbm.
  set (head := newHead (commitDirection g) h) in *.
  set (rest := if growing (snake g) then h :: t else removelast (h :: t)) in *.
  assert (Hsub : forall c, In c rest -> In c (h :: t)).
  { intros c. unfold rest. destruct (growing (snake g)); [auto | apply In_removelast]. }
  destruct b.
  { destruct (Ht eq_refl) as [-> _].
    assert (Hrm : running (state m) = true) by (rewrite Hst; exact Hrun).
    destruct (endGame_running m Hrm) as (E1 & _). congruence. }
  destruct (Hf eq_refl) as (g2 & Hcf & ->). clear Ht Hf.
  destruct (checkPowerUps_board now g2) as [Pf Po].
  rewrite checkPowerUps_snake, ?Pf, ?Po.
  unfold boardInv, clearOfObstacles. rewrite checkPowerUps_snake, Pf, Po.
  pose proof (checkFood_stable _ _ _ _ _ _ Hcf) as (_ & Sb & _).
  rewrite Sb, Hbm.
  assert (Hinv : ~ powerUpIs g "invincible" -> ~ powerUpIs m "invincible")
    by (unfold powerUpIs; rewrite Hst; auto).
  pose proof (checkFood_board _ _ _ _ _ _ _ _ Hbm Hcf) as Hboard.
  rewrite Hfood, Hobs, Hbm in Hboard.
  split; [| split].
  - intros (Hfb & Hfo & Hnd). rewrite Hb in Hfb.
    destruct Hboard as [(Hne & -> & ->) | (_ & Hnb & Hno & [-> | (o & -> & Hob & Hof & Hoo)])].
    + split; [| split; assumption].
      intros [E | Hin]; [now apply Hne | apply Hfb, Hsub, Hin].
    + split; [exact Hnb | split; assumption].
    + split; [exact Hnb |]. split; [| now apply NoDup_snoc].
      intros Hin. apply in_app_or in Hin. destruct Hin as [Hin | [E | []]];
        [now apply Hno | now apply Hof].
  - intros Hni Hnd.
    destruct (checkCollision_false_facts m head rest Hbm Hc (Hinv Hni)) as [Hself _].
    constructor; [exact Hself |].
    unfold rest. destruct (growing (snake g)); [exact Hnd | now apply NoDup_removelast].
  - intros Hni Hmode Hclear. rewrite Hb in Hclear.
    destruct (checkCollision_false_facts m head rest Hbm Hc (Hinv Hni)) as [_ Hobst].
    rewrite Hcfg, Hobs in Hobst. specialize (Hobst Hmode).
    assert (Hold : forall c, In c (head :: rest) -> ~ In c (obstacles g)).
    { intros c [<- | Hin]; [exact Hobst | apply Hclear, Hsub, Hin]. }
    destruct Hboard as [(_ & _ & ->) | (_ & _ & _ & [-> | (o & -> & Hob & _ & _)])];
      try exact Hold.
    intros c Hin Hin2. apply in_app_or in Hin2.
    destruct Hin2 as [Hin2 | [<- | []]]; [exact (Hold c Hin Hin2) | exact (Hob Hin)].
Qed.

(** ** The one-second timer *)

Lemma timeTick_continues (g : Game) :
  String.eqb (mode (config g)) "timeAttack"
  && (time (state g) + 1 >=? timeLimit (config g)) = false ->
  state (timeTick g) = set_time (time (state g) + 1) (state g)
  /\ config (timeTick g) = config g
  /\ gameLoopInterval (timeTick g) = gameLoopInterval g
  /\ gameTimeInterval (timeTick g) = gameTimeInterval g.
Proof.
  intros H. unfold timeTick. game_simpl. rewrite H. game_simpl. repeat split.
Qed.

Lemma timeTicks_below (g : Game) (n : nat) :
  mode (config g) <> "timeAttack" \/ time (state g) + Z.of_nat n < timeLimit (config g) ->
  state (Nat.iter n timeTick g) = set_time (time (state g) + Z.of_nat n) (state g)
  /\ config (Nat.iter n timeTick g) = config g
  /\ gameLoopInterval (Nat.iter n timeTick g) = gameLoopInterval g
  /\ gameTimeInterval (Nat.iter n timeTick g) = gameTimeInterval g.
Proof.
  induction n as [| n IH]; intros H.
  - cbn [Nat.iter nat_rect]. rewrite Z.add_0_r. destruct g as [c s]; destruct s.
    repeat split.
  - cbn [Nat.iter nat_rect]. fold (Nat.iter n timeTick g).
    destruct IH as (Is & Ic & Il & It); [destruct H; [left; assumption | right; lia] |].
    destruct (timeTick_continues (Nat.iter n timeTick g)) as (Ts & Tc & Tl & Tt).
    { rewrite Is, Ic. cbn [time set_time].
      destruct H as [H | H].
      - apply String.eqb_neq in H. rewrite H. reflexivity.
      - apply andb_false_iff. right. rewrite Z.geb_leb. apply Z.leb_gt. lia. }
    rewrite Ts, Tc, Tl, Tt, Is, Ic, Il, It. cbn [time set_time].
    split; [| repeat split].
    unfold set_time. cbn. f_equal. lia.
Qed.

(** X11: the one-second callback adds one to the elapsed time and, outside
    time-attack mode, does nothing else to the run state, however often it
    fires.  In time-attack mode a running game that starts below the limit
    keeps running while the elapsed time is below [timeLimit], and the
    firing that makes it reach [timeLimit] ends the game: it is over, with
    the elapsed time equal to the limit and every timer cancelled. *)
Theorem time_attack_ends_at_the_limit :
  forall (g : Game) (n : nat),
    (mode (config g) <> "timeAttack" ->
     state (Nat.iter n timeTick g) = set_time (time (state g) + Z.of_nat n) (state g))
    /\ (mode (config g) = "timeAttack" ->
        running (state g) = true ->
        time (state g) + Z.of_nat n < timeLimit (config g) ->
        state (Nat.iter n timeTick g) = set_time (time (state g) + Z.of_nat n) (state g)
        /\ gameTimeInterval (Nat.iter n timeTick g) = gameTimeInterval g)
    /\ (mode (config g) = "timeAttack" ->
        running (state g) = true ->
        time (state g) + Z.of_nat n + 1 = timeLimit (config g) ->
        running (state (Nat.iter (S n) timeTick g)) = false
        /\ gameOver (state (Nat.iter (S n) timeTick g)) = true
        /\ time (state (Nat.iter (S n) timeTick g)) = timeLimit (config g)
        /\ score (state (Nat.iter (S n) timeTick g)) = score (state g)
        /\ gameLoopInterval (Nat.iter (S n) timeTick g) = None
        /\ gameTimeInterval (Nat.iter (S n) timeTick g) = None
        /\ specialFoodTimer (Nat.iter (S n) timeTick g) = None).
Proof.
  intros g n. split; [| split].
  - intros Hm. apply timeTicks_below. left. exact Hm.
  - intros Hm Hr Hlt. destruct (timeTicks_below g n) as (Hs & _ & _ & Ht); [right; lia |].
    split; assumption.
  - intros Hm Hr Heq.
    destruct (timeTicks_below g n) as (Hs & Hc & _); [right; lia |].
    cbn [Nat.iter nat_rect]. fold (Nat.iter n timeTick g).
    set (g1 := Nat.iter n timeTick g) in *.
    unfold timeTick. game_simpl. rewrite Hc, Hm, Hs.
    rewrite String.eqb_refl. cbn [time set_time andb].
    replace (time (state g) + Z.of_nat n + 1 >=? timeLimit (config g)) with true
      by (symmetry; rewrite Z.geb_leb; apply Z.leb_le; lia).
    unfold endGame. game_simpl. rewrite Hr.
    cbn [negb]. unfold clearTimers. game_simpl.
    repeat split; try reflexivity. exact Heq.
Qed.

(** ** Silence after destroy *)

Lemma emit_emitted b e g :
  emitted (emit b e g) = if b then e :: emitted g else emitted g.
Proof. destruct b; reflexivity. Qed.

Ltac quiet_simpl H :=
  repeat (game_simpl; rewrite ?emit_emitted; rewrite ?H;
          cbn [onScoreChange onGameOver onPowerUpActivate onPowerUpEnd onFoodEaten
               onSpecialFoodEaten onTimeUpdate noCallbacks emitted
               set_specialFoodTimer set_gameTimeInterval set_gameLoopInterval set_state
               set_snake set_food set_obstacles set_config set_callbacks]).

Lemma endGame_quiet (g : Game) :
  callbacks g = noCallbacks ->
  callbacks (endGame g) = noCallbacks /\ emitted (endGame g) = emitted g.
Proof.
  intros H. unfold endGame. destruct (negb (running (state g))); [auto |].
  unfold clearTimers. quiet_simpl H. auto.
Qed.

Lemma checkPowerUps_quiet (now : Z) (g : Game) :
  callbacks g = noCallbacks ->
  callbacks (checkPowerUps now g) = noCallbacks /\ emitted (checkPowerUps now g) = emitted g.
Proof.
  intros H. unfold checkPowerUps.
  destruct (powerUpActive (state g) && (now >=? powerUpEndTime (state g))); [| auto].
  quiet_simpl H. auto.
Qed.

Lemma timeTick_quiet (g : Game) :
  callbacks g = noCallbacks ->
  callbacks (timeTick g) = noCallbacks /\ emitted (timeTick g) = emitted g.
Proof.
  intros H. unfold timeTick.
  match goal with |- context [if ?b then endGame ?x else _] =>
    assert (Hx : callbacks x = noCallbacks) by exact H;
    destruct (endGame_quiet x Hx) as [E1 E2]; destruct b
  end.
  - rewrite emit_callbacks, emit_emitted, E1, E2. auto.
  - quiet_simpl H. auto.
Qed.

Lemma checkFood_quiet (now : Z) (fuel : nat) (g : Game) (r : Rand) (g' : Game) (r' : Rand) :
  callbacks g = noCallbacks ->
  checkFood now fuel g r = Done (g', r') ->
  callbacks g' = noCallbacks /\ emitted g' = emitted g.
Proof.
  intros Hq H.
  pose proof (checkFood_stable _ _ _ _ _ _ H) as (_ & _ & _ & _ & _ & _ & _ & Hk).
  split; [congruence |].
  destruct (body (snake g)) as [| head rest] eqn:Hb.
  { unfold checkFood in H. rewrite Hb in H. discriminate H. }
  destruct ((cell_x head =? cell_x (food_pos (food g)))
            && (cell_y head =? cell_y (food_pos (food g)))) eqn:Hc.
  2:{ rewrite (checkFood_not_on_food now fuel g r head rest Hb Hc) in H.
      injection H as <- _. reflexivity. }
  unfold checkFood in H. rewrite Hb, Hc in H.
  apply bind_Done in H. destruct H as (g3 & r3 & H3 & H).
  apply bind_Done in H. destruct H as (g6 & r6 & H6 & H).
  apply bind_Done in H. destruct H as (g7 & r7 & H7 & H).
  unfold ret in H. injection H as <- _.
  assert (E3 : callbacks g3 = noCallbacks /\ emitted g3 = emitted g).
  { revert H3. destruct (String.eqb (food_type (food g)) "special"); intros H3.
    - apply bind_Done in H3. destruct H3 as (b & rb & Hp & H3).
      unfold ret in H3. injection H3 as <- _.
      apply activatePowerUp_frame in Hp. destruct Hp as [t ->].
      unfold addScore. quiet_simpl Hq. auto.
    - unfold ret in H3. injection H3 as <- _.
      unfold addScore. quiet_simpl Hq. auto. }
  clear H3. destruct E3 as [K3 M3].
  apply spawnFood_frame in H6.
  assert (E6 : emitted g6 = emitted g).
  { rewrite H6. quiet_simpl K3. exact M3. }
  assert (E7 : emitted g7 = emitted g6).
  { destruct (String.eqb (mode (config g6)) "obstacle").
    - apply bind_Done in H7. destruct H7 as (u & ru & _ & H7).
      destruct (Qltb u (3 # 10)).
      + apply spawnObstacle_frame in H7. destruct H7 as [o ->]. reflexivity.
      + unfold ret in H7. injection H7 as <- _. reflexivity.
    - unfold ret in H7. injection H7 as <- _. reflexivity. }
  destruct (gameLoopInterval g7); cbn [emitted set_gameLoopInterval]; congruence.
Qed.

Lemma call_quiet (fuel : nat) (c : Call) (g : Game) (r : Rand) (g' : Game) (r' : Rand) :
  ~ registers c ->
  callbacks g = noCallbacks ->
  call fuel c g r = Done (g', r') ->
  callbacks g' = noCallbacks /\ emitted g' = emitted g.
Proof.
  intros Hreg Hq H. destruct c; cbn [call] in H;
    try (unfold ret in H; injection H as <- _).
  - unfold start. destruct (running (state g)); auto.
  - unfold pause. destruct (negb (running (state g)) || paused (state g)); auto.
  - unfold resume. destruct (negb (running (state g)) || negb (paused (state g))); auto.
  - now apply endGame_quiet.
  - unfold reset in H. apply init_post in H.
    destruct H as (_ & _ & _ & Hk & He & _).
    split; [rewrite Hk; exact Hq | rewrite He; reflexivity].
  - apply gameLoop_cases in H. destruct H as (m & b & Hm & Hc & Ht & Hf).
    assert (Hmq : callbacks m = noCallbacks /\ emitted m = emitted g).
    { destruct (body (snake (commitDirection g))) as [| h t] eqn:Hb.
      - unfold moveSnake in Hm. rewrite Hb in Hm. discriminate Hm.
      - destruct (moveSnake_head _ _ _ Hb)
          as (m' & rest & Hm' & _ & _ & _ & _ & _ & Hk & He & _).
        rewrite Hm in Hm'. injection Hm' as <-. split; [rewrite Hk | rewrite He];
          [exact Hq | reflexivity]. }
    destruct Hmq as [Km Em]. destruct b.
    + destruct (Ht eq_refl) as [-> _].
      destruct (endGame_quiet m Km) as [E1 E2]. split; congruence.
    + destruct (Hf eq_refl) as (g2 & Hcf & ->).
      destruct (checkFood_quiet _ _ _ _ _ _ Km Hcf) as [K2 E2].
      destruct (checkPowerUps_quiet now g2 K2) as [K3 E3]. split; congruence.
  - now apply timeTick_quiet.
  - unfold specialFoodTimeout in H. destruct (String.eqb (food_type (food g)) "special").
    + apply spawnFood_frame in H. rewrite H. auto.
    + unfold ret in H. injection H as <- _. auto.
  - rewrite changeDirection_validTurn.
    destruct (validTurn (direction (snake g)) d); auto.
  - unfold setConfig in H. cbn [state set_config] in H.
    destruct (negb (running (state g))).
    + unfold reset in H. apply init_post in H.
      destruct H as (_ & _ & _ & Hk & He & _).
      split; [rewrite Hk; exact Hq | rewrite He; reflexivity].
    + unfold ret in H. injection H as <- _. auto.
  - destruct registered; [exfalso; apply Hreg; exact I |].
    unfold on. rewrite Hq.
    repeat match goal with |- context [if ?c then _ else _] => destruct c end;
      split; reflexivity || assumption.
  - split; reflexivity.
Qed.

(** X12: after [destroy] no handler is invoked again until a handler is
    registered with [on]: whatever methods are called and whichever timers
    fire afterwards, the handler table stays empty and not one event is
    added to the trace. *)
Theorem destroy_silences_the_engine :
  forall (fuel : nat) (cs : list Call) (g : Game) (r : Rand) (g' : Game) (r' : Rand),
    Forall (fun c => ~ registers c) cs ->
    calls fuel cs (destroy g) r = Done (g', r') ->
    callbacks g' = noCallbacks /\ emitted g' = emitted g.
Proof.
  intros fuel cs g r g' r' Hcs H.
  assert (Hgen : forall cs g0 r0,
             Forall (fun c => ~ registers c) cs ->
             callbacks g0 = noCallbacks ->
             calls fuel cs g0 r0 = Done (g', r') ->
             callbacks g' = noCallbacks /\ emitted g' = emitted g0).
  { clear. induction cs as [| c cs IH]; intros g0 r0 Hcs Hq H.
    - unfold calls, ret in H. injection H as <- _. auto.
    - cbn [calls] in H. apply bind_Done in H. destruct H as (g1 & r1 & H1 & H).
      inversion Hcs as [| c' cs' Hc Hrest]; subst.
      destruct (call_quiet _ _ _ _ _ _ Hc Hq H1) as [K1 E1].
      destruct (IH g1 r1 Hrest K1 H) as [K2 E2]. split; congruence. }
  apply (Hgen cs (destroy g) r Hcs eq_refl H).
Qed.

(** ** Random integers and power-ups *)

(** X13: for a draw in [0,1) and [min <= max], [Utils.getRandomInt] returns
    an integer between [min] and [max], both included, and consumes one
    draw; every integer of that range is the result of some draw in [0,1).
    For the empty range [max = min - 1] (a grid of width zero) it returns
    [min]. *)
Theorem getRandomInt_covers_the_range :
  forall (min max : Z) (r : Rand),
    (0 <= r 0%nat)%Q -> (r 0%nat < 1)%Q ->
    (min <= max ->
     exists v, getRandomInt min max r = Done (v, after1 r) /\ min <= v <= max)
    /\ (forall v, min <= v <= max ->
                  exists u, (0 <= u)%Q /\ (u < 1)%Q
                            /\ getRandomInt min max (fun _ => u) = Done (v, fun _ => u))
    /\ (max = min - 1 -> getRandomInt min max r = Done (min, after1 r)).
Proof.
  intros min max r H0 H1. split; [| split].
  - intros Hle. eexists. split; [reflexivity |].
    pose proof (floor_scale (r 0%nat) (max - min + 1) H0 H1 ltac:(lia)). lia.
  - intros v Hv.
    assert (Hn : 0 < max - min + 1) by lia.
    assert (Hnq : (0 < inject_Z (max - min + 1))%Q)
      by (unfold Qlt, inject_Z; simpl; lia).
    exists (inject_Z (v - min) / inject_Z (max - min + 1))%Q.
    split; [| split].
    + apply Qle_shift_div_l; [exact Hnq |]. rewrite Qmult_0_l.
      unfold Qle, inject_Z; simpl; lia.
    + apply Qlt_shift_div_r; [exact Hnq |]. rewrite Qmult_1_l.
      unfold Qlt, inject_Z; simpl; lia.
    + unfold getRandomInt, bind, random, ret. f_equal. f_equal.
      assert (E : (inject_Z (v - min) / inject_Z (max - min + 1)
                   * inject_Z (max - min + 1) == inject_Z (v - min))%Q).
      { field. intros E. rewrite E in Hnq. discriminate Hnq. }
      rewrite E, Qfloor_Z. lia.
  - intros ->. unfold getRandomInt, bind, random, ret. f_equal. f_equal.
    replace (min - 1 - min + 1) with 0 by lia.
    assert (E : (r 0%nat * inject_Z 0 == inject_Z 0)%Q) by (unfold inject_Z; ring).
    rewrite E, Qfloor_Z. lia.
Qed.

(** X14: for a draw in [0,1), [activatePowerUp] makes one of the three
    power-ups active, whatever was active before, with the deadline five
    seconds after the clock reading.  [checkPowerUps] leaves the game as it
    is at every clock reading before the deadline; at the deadline or later
    it clears the power-up and reports the kind that ended to a registered
    [onPowerUpEnd] handler. *)
Theorem power_up_lasts_five_seconds :
  forall (now : Z) (g : Game) (r : Rand),
    (0 <= r 0%nat)%Q -> (r 0%nat < 1)%Q ->
    exists k g1,
      In k powerUps
      /\ activatePowerUp now g r = Done (g1, after1 r)
      /\ powerUpIs g1 k
      /\ powerUpEndTime (state g1) = now + 5000
      /\ (forall t, t < now + 5000 -> checkPowerUps t g1 = g1)
      /\ (forall t, now + 5000 <= t ->
                    powerUpActive (state (checkPowerUps t g1)) = false
                    /\ powerUpType (state (checkPowerUps t g1)) = None
                    /\ emitted (checkPowerUps t g1)
                       = if onPowerUpEnd (callbacks g)
                         then PowerUpEnd (Some k) :: emitted g1
                         else emitted g1).
Proof.
  intros now g r H0 H1.
  pose proof (floor_scale (r 0%nat) 3 H0 H1 ltac:(lia)) as Hi.
  assert (Hk : exists k, In k powerUps
                         /\ pick powerUps (Qfloor (r 0%nat * inject_Z 3) + 0) = Some k).
  { assert (Hc : Qfloor (r 0%nat * inject_Z 3) = 0 \/ Qfloor (r 0%nat * inject_Z 3) = 1
                 \/ Qfloor (r 0%nat * inject_Z 3) = 2) by lia.
    destruct Hc as [-> | [-> | ->]]; eexists; (split; [| reflexivity]); cbn; tauto. }
  destruct Hk as (k & Hin & Hpick).
  exists k. eexists. split; [exact Hin |]. split.
  - cbv beta iota zeta delta [activatePowerUp bind getRandomInt random ret].
    change (Z.of_nat (List.length powerUps) - 1 - 0 + 1) with 3.
    rewrite Hpick. reflexivity.
  - unfold powerUpIs, checkPowerUps. game_simpl.
    split; [split; reflexivity |]. split; [reflexivity |]. split.
    + intros t Ht.
      replace (t >=? now + 5000) with false
        by (symmetry; rewrite Z.geb_leb; apply Z.leb_gt; lia).
      reflexivity.
    + intros t Ht.
      replace (t >=? now + 5000) with true
        by (symmetry; rewrite Z.geb_leb; apply Z.leb_le; lia).
      cbn [andb]. game_simpl. rewrite emit_emitted.
      cbn [emitted set_state]. repeat split.
Qed.

(** ** Lifecycle methods *)

(** X15: [pause] followed by [resume] on a running, unpaused game changes
    nothing but the two interval timers, which are armed again at the
    current speed and at one second; when they were armed so before, the
    game is exactly as it was.  A pending special-food timer is not touched
    by [pause]: the food keeps expiring while the game is paused. *)
Theorem pause_then_resume_rearms_timers :
  forall g : Game,
    running (state g) = true ->
    paused (state g) = false ->
    resume (pause g)
    = set_gameTimeInterval (Some (1000 # 1))
        (set_gameLoopInterval (Some (getCurrentSpeed g)) g)
    /\ (gameLoopInterval g = Some (getCurrentSpeed g) ->
        gameTimeInterval g = Some (1000 # 1) ->
        resume (pause g) = g)
    /\ paused (state (pause g)) = true
    /\ gameLoopInterval (pause g) = None
    /\ gameTimeInterval (pause g) = None
    /\ specialFoodTimer (pause g) = specialFoodTimer g.
Proof.
  intros g Hr Hp.
  assert (E : resume (pause g)
              = set_gameTimeInterval (Some (1000 # 1))
                  (set_gameLoopInterval (Some (getCurrentSpeed g)) g)).
  { unfold pause. rewrite Hr, Hp. cbn [negb orb].
    unfold resume. game_simpl. cbn [negb orb].
    destruct g as [c s sn f o t1 t2 t3 k e]. destruct s. cbn in Hr, Hp. subst.
    reflexivity. }
  split; [exact E |]. split.
  - intros Hl Ht. rewrite E, <- Hl, <- Ht. destruct g. reflexivity.
  - unfold pause. rewrite Hr, Hp. cbn [negb orb]. repeat split.
Qed.

(** X16: calling a lifecycle method twice in a row is the same as calling it
    once: [start], [pause], [resume], [endGame] and [destroy] are
    idempotent; in particular a second [endGame] reports no second game
    over. *)
Theorem lifecycle_methods_are_idempotent :
  forall g : Game,
    start (start g) = start g
    /\ pause (pause g) = pause g
    /\ resume (resume g) = resume g
    /\ endGame (endGame g) = endGame g
    /\ destroy (destroy g) = destroy g.
Proof.
  intros g.
  assert (Hstart : forall x, running (state x) = true -> start x = x)
    by (intros x H; unfold start; now rewrite H).
  assert (Hpause : forall x, negb (running (state x)) || paused (state x) = true ->
                             pause x = x)
    by (intros x H; unfold pause; now rewrite H).
  assert (Hresume : forall x, negb (running (state x)) || negb (paused (state x)) = true ->
                              resume x = x)
    by (intros x H; unfold resume; now rewrite H).
  assert (Hend : forall x, running (state x) = false -> endGame x = x)
    by (intros x H; unfold endGame; now rewrite H).
  split; [| split; [| split; [| split]]].
  - apply Hstart. unfold start. destruct (running (state g)) eqn:Hr; [exact Hr | reflexivity].
  - apply Hpause. unfold pause.
    destruct (negb (running (state g)) || paused (state g)) eqn:Hc; [exact Hc |].
    game_simpl. apply orb_true_r.
  - apply Hresume. unfold resume.
    destruct (negb (running (state g)) || negb (paused (state g))) eqn:Hc; [exact Hc |].
    game_simpl. apply orb_true_r.
  - apply Hend. unfold endGame.
    destruct (running (state g)) eqn:Hr; cbn [negb]; [| exact Hr].
    rewrite emit_state. reflexivity.
  - reflexivity.
Qed.

(** ** Movement *)

Lemma nth_error_removelast {A : Type} (l : list A) :
  forall i, (S i < List.length l)%nat -> nth_error (removelast l) i = nth_error l i.
Proof.
  induction l as [| x l IH]; intros i Hi; [cbn in Hi; lia |].
  destruct l as [| y l']; [cbn in Hi; lia |].
  change (removelast (x :: y :: l')) with (x :: removelast (y :: l')).
  destruct i as [| i]; [reflexivity |].
  cbn [nth_error]. apply IH. cbn [List.length] in *. lia.
Qed.

Lemma wrap_coordinate (w x d : Z) :
  0 <= x < w -> -1 <= d <= 1 ->
  (let x1 := if x + d <? 0 then w - 1 else x + d in
   if x1 >=? w then 0 else x1) = (x + d) mod w.
Proof.
  intros Hx Hd. cbv zeta.
  destruct (Z.ltb_spec (x + d) 0) as [Hneg | Hpos].
  - rewrite Z.geb_leb. destruct (Z.leb_spec w (w - 1)); [lia |].
    apply (Z.mod_unique_pos _ _ (-1)); lia.
  - rewrite Z.geb_leb. destruct (Z.leb_spec w (x + d)).
    + assert (x + d = w) as -> by lia. symmetry. apply Z_mod_same_full.
    + symmetry. apply Z.mod_small. lia.
Qed.

Lemma wrap_same (w x : Z) :
  0 <= x < w ->
  (let x1 := if x <? 0 then w - 1 else x in
   if x1 >=? w then 0 else x1) = x mod w.
Proof.
  intros Hx. pose proof (wrap_coordinate w x 0 Hx ltac:(lia)) as E.
  rewrite Z.add_0_r in E. exact E.
Qed.

(** X17: on a snake with a body and a cardinal direction [moveSnake] puts a
    new head in front, and every other cell takes the place of the cell
    before it; the last cell is dropped unless the growth flag is set, and
    the flag is clear afterwards.  Without the wall pass the new head is
    exactly one step from the old one; with it, and the old head inside the
    grid, the stepped coordinates are reduced modulo the grid's width and
    height. *)
Theorem moveSnake_advances_by_one_cell :
  forall (g : Game) (h : Cell) (t : list Cell),
    body (snake g) = h :: t ->
    cardinal (direction (snake g)) ->
    exists m,
      moveSnake g = Done m
      /\ body (snake m)
         = newHead g h :: (if growing (snake g) then h :: t else removelast (h :: t))
      /\ (forall i, (S i < List.length (body (snake m)))%nat ->
                    nth_error (body (snake m)) (S i) = nth_error (h :: t) i)
      /\ growing (snake m) = false
      /\ (~ powerUpIs g "wallPass" ->
          Z.abs (cell_x (newHead g h) - cell_x h)
          + Z.abs (cell_y (newHead g h) - cell_y h) = 1)
      /\ (powerUpIs g "wallPass" -> inGrid (config g) h ->
          newHead g h
          = mkCell (cell_x (shiftHead (direction (snake g)) h) mod width (config g))
                   (cell_y (shiftHead (direction (snake g)) h) mod height (config g))).
Proof.
  intros g h t Hb Hcard.
  destruct (moveSnake_head g h t Hb) as (m & rest & Hm & _).
  pose proof (moveSnake_body g m h t Hb Hm) as Hbm.
  pose proof (moveSnake_length g m Hm) as [Hlen Hgrow].
  exists m. split; [exact Hm |]. split; [exact Hbm |].
  split; [| split; [exact Hgrow | split]].
  - intros i Hi. rewrite Hbm in Hi |- *. cbn [nth_error List.length] in *.
    destruct (growing (snake g)); [reflexivity |].
    apply nth_error_removelast. rewrite removelast_length_cons in Hi.
    cbn [List.length]. lia.
  - intros Hw. apply hasPowerUp_false in Hw. unfold newHead. rewrite Hw.
    unfold shiftHead.
    destruct Hcard as [-> | [-> | [-> | ->]]]; cbn; lia.
  - intros Hw [Hx Hy]. apply hasPowerUp_spec in Hw. unfold newHead. rewrite Hw.
    unfold wrapHead, shiftHead.
    destruct Hcard as [-> | [-> | [-> | ->]]];
      cbn [String.eqb Ascii.eqb Bool.eqb cell_x cell_y]; f_equal.
    + apply wrap_same; lia.
    + apply (wrap_coordinate (height (config g)) (cell_y h) (-1)); lia.
    + apply wrap_same; lia.
    + apply (wrap_coordinate (height (config g)) (cell_y h) 1); lia.
    + apply (wrap_coordinate (width (config g)) (cell_x h) (-1)); lia.
    + apply wrap_same; lia.
    + apply (wrap_coordinate (width (config g)) (cell_x h) 1); lia.
    + apply wrap_same; lia.
Qed.

(** ** Rescheduling after food *)

(** The power-up after [checkFood] has eaten the food. *)
Lemma checkFood_powerUp (now : Z) (fuel : nat) (g : Game) (r : Rand)
      (head : Cell) (rest : list Cell) (g' : Game) (r' : Rand) :
  body (snake g) = head :: rest ->
  (cell_x head =? cell_x (food_pos (food g))) && (cell_y head =? cell_y (food_pos (food g)))
  = true ->
  checkFood now fuel g r = Done (g', r') ->
  (food_type (food g) = "special" ->
   powerUpActive (state g') = true /\ powerUpEndTime (state g') = now + 5000)
  /\ (food_type (food g) <> "special" ->
      powerUpActive (state g') = powerUpActive (state g)
      /\ powerUpType (state g') = powerUpType (state g)
      /\ powerUpEndTime (state g') = powerUpEndTime (state g)).
Proof.
  intros Hb Hc H. unfold checkFood in H. rewrite Hb, Hc in H.
  apply bind_Done in H. destruct H as (g3 & r3 & H3 & H).
  apply bind_Done in H. destruct H as (g6 & r6 & H6 & H).
  apply bind_Done in H. destruct H as (g7 & r7 & H7 & H).
  unfold ret in H. injection H as <- _.
  apply spawnFood_frame in H6.
  assert (E7 : exists o, g7 = set_obstacles o g6).
  { destruct (String.eqb (mode (config g6)) "obstacle").
    - apply bind_Done in H7. destruct H7 as (u & ru & _ & H7).
      destruct (Qltb u (3 # 10)).
      + apply spawnObstacle_frame in H7. destruct H7 as [o ->]. eexists. reflexivity.
      + unfold ret in H7. injection H7 as <- _. exists (obstacles g6).
        destruct g6; reflexivity.
    - unfold ret in H7. injection H7 as <- _. exists (obstacles g6).
      destruct g6; reflexivity. }
  destruct E7 as [o ->]. clear H7.
  assert (P6 : state g6 = state g3) by (rewrite H6; now game_simpl).
  assert (Hfin : state match gameLoopInterval (set_obstacles o g6) with
                       | Some _ => set_gameLoopInterval
                                     (Some (getCurrentSpeed (set_obstacles o g6)))
                                     (set_obstacles o g6)
                       | None => set_obstacles o g6
                       end = state g3).
  { destruct (gameLoopInterval (set_obstacles o g6)); exact P6. }
  rewrite Hfin. clear Hfin P6 H6.
  revert H3. destruct (String.eqb (food_type (food g)) "special") eqn:Hs; intros H3.
  - apply bind_Done in H3. destruct H3 as (b & rb & Hp & H3).
    unfold ret in H3. injection H3 as <- _.
    apply activatePowerUp_frame in Hp. destruct Hp as [k ->].
    game_simpl. split; [intros _; split; reflexivity |].
    intros Hn. apply String.eqb_eq in Hs. contradiction.
  - unfold ret in H3. injection H3 as <- _. unfold addScore. game_simpl.
    split; [| intros _; repeat split].
    intros E. apply String.eqb_neq in Hs. contradiction.
Qed.

(** X18: a tick of a running game with the simulation timer armed, in which
    the head lands on the food and the game goes on, leaves the timer
    rescheduled to the interval the speed formula gives for the state after
    the tick, provided no power-up runs out in that same tick (the food is
    special, or no power-up is active, or its deadline lies ahead). *)
Theorem eating_tick_reschedules_timer :
  forall (now : Z) (fuel : nat) (g : Game) (r : Rand) (g' : Game) (r' : Rand)
         (h : Cell) (t : list Cell),
    running (state g) = true ->
    body (snake g) = h :: t ->
    gameLoopInterval g <> None ->
    gameLoop now fuel g r = Done (g', r') ->
    running (state g') = true ->
    newHead (commitDirection g) h = food_pos (food g) ->
    food_type (food g) = "special" \/ powerUpActive (state g) = false
    \/ now < powerUpEndTime (state g) ->
    gameLoopInterval g' = Some (getCurrentSpeed g')
    /\ foodEaten (state g') = foodEaten (state g) + 1.
Proof.
  intros now fuel g r g' r' h t Hrun Hb Htimer Hloop Hrun' Hhead Hpow.
  destruct (gameLoop_cases _ _ _ _ _ _ Hloop) as (m & b & Hm & Hc & Ht & Hf).
  assert (Hb0 : body (snake (commitDirection g)) = h :: t) by exact Hb.
  destruct (moveSnake_head _ _ _ Hb0)
    as (m' & rest & Hm' & Hbm & _ & Hst & Hfood & _ & _ & _ & _ & Hl & _).
  rewrite Hm in Hm'. injection Hm' as <-.
  change (state (commitDirection g)) with (state g) in Hst.
  change (food (commitDirection g)) with (food g) in Hfood.
  change (gameLoopInterval (commitDirection g)) with (gameLoopInterval g) in Hl.
  destruct b.
  { destruct (Ht eq_refl) as [-> _].
    assert (Hrm : running (state m) = true) by (rewrite Hst; exact Hrun).
    destruct (endGame_running m Hrm) as (E1 & _). congruence. }
  destruct (Hf eq_refl) as (g2 & Hcf & ->). clear Ht Hf.
  assert (Hon : (cell_x (newHead (commitDirection g) h) =? cell_x (food_pos (food m)))
                && (cell_y (newHead (commitDirection g) h) =? cell_y (food_pos (food m)))
                = true) by (apply cell_eqb_eq; rewrite Hfood; exact Hhead).
  destruct (checkFood_on_food _ _ _ _ _ _ _ _ Hbm Hon Hcf) as (_ & _ & Hfe & _ & Hres).
  destruct (checkFood_powerUp _ _ _ _ _ _ _ _ Hbm Hon Hcf) as [Psp Pno].
  rewrite Hfood, Hst in *.
  assert (Hkeep : checkPowerUps now g2 = g2).
  { unfold checkPowerUps.
    destruct (String.eqb_spec (food_type (food g)) "special") as [Hs | Hs].
    - destruct (Psp Hs) as [_ ->].
      replace (now >=? now + 5000) with false
        by (symmetry; rewrite Z.geb_leb; apply Z.leb_gt; lia).
      now rewrite andb_false_r.
    - destruct (Pno Hs) as (-> & _ & ->).
      destruct Hpow as [Hs' | [-> | Hlt]]; [contradiction | reflexivity |].
      replace (now >=? powerUpEndTime (state g)) with false
        by (symmetry; rewrite Z.geb_leb; apply Z.leb_gt; lia).
      now rewrite andb_false_r. }
  rewrite Hkeep. split; [apply Hres; rewrite Hl; exact Htimer | exact Hfe].
Qed.

(** ** Configuration and handlers *)

Lemma override_idem {A : Type} (a : A) (o : option A) :
  override (override a o) o = override a o.
Proof. destruct o; reflexivity. Qed.

(** X19: merging a patch into a configuration replaces exactly the keys the
    patch carries: each of the twelve keys takes the value of the patch when
    the patch has one and keeps the stored value otherwise.  So the empty
    patch changes nothing and merging the same patch twice is merging it
    once.  On a running game [setConfig] stores the merged configuration and
    does nothing else, so with the empty patch it returns the game
    unchanged. *)
Theorem mergeConfig_overrides_given_keys :
  forall (c : Config) (p : ConfigPatch),
    mergeConfig c emptyPatch = c
    /\ mergeConfig (mergeConfig c p) p = mergeConfig c p
    /\ (forall w, p_width p = Some w -> width (mergeConfig c p) = w)
    /\ (p_width p = None -> width (mergeConfig c p) = width c)
    /\ (forall m, p_mode p = Some m -> mode (mergeConfig c p) = m)
    /\ (p_mode p = None -> mode (mergeConfig c p) = mode c)
    /\ (forall (fuel : nat) (g : Game) (r : Rand),
           running (state g) = true ->
           setConfig fuel emptyPatch g r = Done (g, r))
    /\ gridSize (mergeConfig c p)
       = match p_gridSize p with Some v => v | None => gridSize c end
    /\ width (mergeConfig c p)
       = match p_width p with Some v => v | None => width c end
    /\ height (mergeConfig c p)
       = match p_height p with Some v => v | None => height c end
    /\ speed (mergeConfig c p)
       = match p_speed p with Some v => v | None => speed c end
    /\ speedIncrease (mergeConfig c p)
       = match p_speedIncrease p with Some v => v | None => speedIncrease c end
    /\ maxSpeed (mergeConfig c p)
       = match p_maxSpeed p with Some v => v | None => maxSpeed c end
    /\ initialSnakeLength (mergeConfig c p)
       = match p_initialSnakeLength p with Some v => v | None => initialSnakeLength c end
    /\ mode (mergeConfig c p)
       = match p_mode p with Some v => v | None => mode c end
    /\ timeLimit (mergeConfig c p)
       = match p_timeLimit p with Some v => v | None => timeLimit c end
    /\ obstacleCount (mergeConfig c p)
       = match p_obstacleCount p with Some v => v | None => obstacleCount c end
    /\ specialFoodChance (mergeConfig c p)
       = match p_specialFoodChance p with Some v => v | None => specialFoodChance c end
    /\ specialFoodDuration (mergeConfig c p)
       = match p_specialFoodDuration p with Some v => v | None => specialFoodDuration c end
    /\ forall (fuel : nat) (g : Game) (r : Rand),
        running (state g) = true ->
        setConfig fuel p g r = Done (set_config (mergeConfig (config g) p) g, r).
Proof.
  intros c p. split; [destruct c; reflexivity |].
  split; [unfold mergeConfig; cbn; now rewrite !override_idem |].
  split; [intros w H; cbn; now rewrite H |].
  split; [intros H; cbn; now rewrite H |].
  split; [intros m H; cbn; now rewrite H |].
  split; [intros H; cbn; now rewrite H |].
  split.
  { intros fuel g r Hr. unfold setConfig. cbn [state set_config]. rewrite Hr. cbn [negb].
    unfold ret. destruct g as [cfg s sn f o t1 t2 t3 k e]. destruct cfg. reflexivity. }
  do 12 (split; [reflexivity |]).
  intros fuel g r Hr. unfold setConfig. cbn [state set_config]. rewrite Hr. reflexivity.
Qed.

(** X20: [on] ignores an event name that is not one of the seven it knows
    and changes nothing then; for a known name it stores the handler under
    that name, leaves the six other handlers as they were and changes
    nothing outside the handler table.  So a later registration for the same
    name replaces the earlier one, registrations for different names do not
    disturb each other, and the game-over event of a running game is
    dispatched exactly when the handler registered last for it is a
    function. *)
Theorem on_registers_known_events_only :
  forall (event : string) (b1 b2 : bool) (g : Game),
    (~ In event eventNames -> on event b1 g = g)
    /\ on event b1 g = set_callbacks (callbacks (on event b1 g)) g
    /\ on event b2 (on event b1 g) = on event b2 g
    /\ (forall other : string,
           other <> event ->
           on other b2 (on event b1 g) = on event b1 (on other b2 g))
    /\ callbacks (on "onScoreChange" b1 g)
       = mkCallbacks b1 (onGameOver (callbacks g)) (onPowerUpActivate (callbacks g))
           (onPowerUpEnd (callbacks g)) (onFoodEaten (callbacks g))
           (onSpecialFoodEaten (callbacks g)) (onTimeUpdate (callbacks g))
    /\ callbacks (on "onGameOver" b1 g)
       = mkCallbacks (onScoreChange (callbacks g)) b1 (onPowerUpActivate (callbacks g))
           (onPowerUpEnd (callbacks g)) (onFoodEaten (callbacks g))
           (onSpecialFoodEaten (callbacks g)) (onTimeUpdate (callbacks g))
    /\ callbacks (on "onPowerUpActivate" b1 g)
       = mkCallbacks (onScoreChange (callbacks g)) (onGameOver (callbacks g)) b1
           (onPowerUpEnd (callbacks g)) (onFoodEaten (callbacks g))
           (onSpecialFoodEaten (callbacks g)) (onTimeUpdate (callbacks g))
    /\ callbacks (on "onPowerUpEnd" b1 g)
       = mkCallbacks (onScoreChange (callbacks g)) (onGameOver (callbacks g))
           (onPowerUpActivate (callbacks g)) b1 (onFoodEaten (callbacks g))
           (onSpecialFoodEaten (callbacks g)) (onTimeUpdate (callbacks g))
    /\ callbacks (on "onFoodEaten" b1 g)
       = mkCallbacks (onScoreChange (callbacks g)) (onGameOver (callbacks g))
           (onPowerUpActivate (callbacks g)) (onPowerUpEnd (callbacks g)) b1
           (onSpecialFoodEaten (callbacks g)) (onTimeUpdate (callbacks g))
    /\ callbacks (on "onSpecialFoodEaten" b1 g)
       = mkCallbacks (onScoreChange (callbacks g)) (onGameOver (callbacks g))
           (onPowerUpActivate (callbacks g)) (onPowerUpEnd (callbacks g))
           (onFoodEaten (callbacks g)) b1 (onTimeUpdate (callbacks g))
    /\ callbacks (on "onTimeUpdate" b1 g)
       = mkCallbacks (onScoreChange (callbacks g)) (onGameOver (callbacks g))
           (onPowerUpActivate (callbacks g)) (onPowerUpEnd (callbacks g))
           (onFoodEaten (callbacks g)) (onSpecialFoodEaten (callbacks g)) b1
    /\ (running (state g) = true ->
        emitted (endGame (on "onGameOver" b2 (on "onGameOver" b1 g)))
        = if b2
          then GameOver (mkSummary (score (state g)) (time (state g)) (foodEaten (state g))
                                   (specialFoodEaten (state g)) (mode (config g)))
               :: emitted g
          else emitted g).
Proof.
  intros event b1 b2 g.
  assert (Hcases : In event eventNames \/ on event b1 g = g /\ forall b x, on event b x = x).
  { unfold on, eventNames.
    repeat match goal with
           | |- context [String.eqb event ?s] =>
               destruct (String.eqb_spec event s); [left; subst; cbn; tauto |]
           end.
    right. split; [reflexivity |]. intros b x. unfold on.
    repeat match goal with
           | |- context [String.eqb event ?s] =>
               destruct (String.eqb_spec event s); [contradiction |]
           end.
    reflexivity. }
  split; [| split; [| split; [| split]]].
  - intros Hn. destruct Hcases as [Hin | [E _]]; [contradiction | exact E].
  - destruct Hcases as [Hin | [E _]]; [| rewrite E; destruct g; reflexivity].
    cbn in Hin. destruct Hin as [<- | [<- | [<- | [<- | [<- | [<- | [<- | []]]]]]]];
      reflexivity.
  - destruct Hcases as [Hin | [E Hall]]; [| now rewrite !Hall].
    cbn in Hin. destruct Hin as [<- | [<- | [<- | [<- | [<- | [<- | [<- | []]]]]]]];
      reflexivity.
  - intros other Hne.
    destruct Hcases as [Hin | [E Hall]]; [| now rewrite !Hall].
    cbn in Hin.
    destruct Hin as [<- | [<- | [<- | [<- | [<- | [<- | [<- | []]]]]]]];
      unfold on at 1 4;
      repeat match goal with
             | |- context [String.eqb other ?s] =>
                 destruct (String.eqb_spec other s); [try contradiction; subst |]
             end; try reflexivity; try congruence.
  - do 7 (split; [reflexivity |]).
    intros Hr. unfold endGame, on. cbn. rewrite Hr. cbn. destruct b2; reflexivity.
Qed.

(** ** Utils.checkCollisionWithArray *)

Lemma In_skipn_index (c : Cell) (n : nat) :
  forall l, In c (skipn n l) <-> exists i, (n <= i)%nat /\ nth_error l i = Some c.
Proof.
  induction n as [| n IH]; intros l.
  - cbn [skipn]. split.
    + intros H. apply In_nth_error in H. destruct H as [i Hi]. exists i. split; [lia | exact Hi].
    + intros (i & _ & Hi). eapply nth_error_In. exact Hi.
  - destruct l as [| x l]; cbn [skipn].
    + split; [intros [] |]. intros (i & _ & Hi). destruct i; discriminate Hi.
    + rewrite IH. split.
      * intros (i & Hle & Hi). exists (S i). split; [lia | exact Hi].
      * intros (i & Hle & Hi). destruct i as [| i]; [lia |].
        exists i. split; [lia | exact Hi].
Qed.

(** X21: [Utils.checkCollisionWithArray] answers true exactly when some
    element of the array at the start index or later (index 1 when the head
    is ignored, index 0 otherwise) has the coordinates of the object; so it
    answers false on the empty array, and on a one-element array when the
    head is ignored. *)
Theorem checkCollisionWithArray_scans_from_start_index :
  forall (obj : Cell) (array : list Cell) (ignoreHead : bool),
    (checkCollisionWithArray obj array ignoreHead = true
     <-> exists i, ((if ignoreHead then 1 else 0) <= i)%nat
                   /\ nth_error array i = Some obj)
    /\ checkCollisionWithArray obj [] ignoreHead = false
    /\ (forall c, checkCollisionWithArray obj [c] true = false)
    /\ (checkCollisionWithArray obj array false = true <-> In obj array).
Proof.
  intros obj array ignoreHead. split; [| split; [| split]].
  - unfold checkCollisionWithArray. rewrite existsb_checkCollisionCells.
    apply In_skipn_index.
  - destruct ignoreHead; reflexivity.
  - reflexivity.
  - unfold checkCollisionWithArray. cbn [skipn]. apply existsb_checkCollisionCells.
Qed.

(* -------------------------------------------------------------------- *)
(** * The further properties on concrete games *)

Lemma spawnFood_witness :
  exists g' r',
    spawnFood 5 gIdle drawsSpecial = Done (g', r')
    /\ ~ In (food_pos (food g')) (body (snake g'))
    /\ food_type (food g') = "special"
    /\ specialFoodTimer g' = Some 5000.
Proof.
  assert (H : exists g' r', spawnFood 5 gIdle drawsSpecial = Done (g', r'))
    by (eexists; eexists; vm_compute; reflexivity).
  destruct H as (g' & r' & H). exists g', r'.
  destruct (spawnFood_places_food_on_free_cell _ _ _ _ _ H) as (Hb & _ & Hs & _).
  split; [exact H |]. split; [exact Hb |].
  apply Hs. reflexivity.
Defined.

Lemma spawnObstacle_witness :
  exists g' r' o,
    spawnObstacle 5 gIdle drawsRetry = Done (g', r')
    /\ obstacles g' = [o]
    /\ ~ In o (body (snake gIdle))
    /\ NoDup (obstacles g').
Proof.
  assert (H : exists g' r', spawnObstacle 5 gIdle drawsRetry = Done (g', r'))
    by (eexists; eexists; vm_compute; reflexivity).
  destruct H as (g' & r' & H).
  destruct (spawnObstacle_appends_one_free_cell _ _ _ _ _ H)
    as (o & E & Hb & _ & _ & Hnd & _).
  exists g', r', o. split; [exact H |]. split; [rewrite E; reflexivity |].
  split; [exact Hb |]. apply Hnd. constructor.
Defined.

(** The draws of [drawsObstacles] that follow the three of the food place
    five obstacles on five different free cells. *)
Lemma initObstacles_witness :
  exists g' r',
    initObstacles 5 gIdle (after1 (after2 drawsObstacles)) = Done (g', r')
    /\ List.length (obstacles g') = 5%nat
    /\ NoDup (obstacles g').
Proof.
  assert (H : exists g' r',
             initObstacles 5 gIdle (after1 (after2 drawsObstacles)) = Done (g', r'))
    by (eexists; eexists; vm_compute; reflexivity).
  destruct H as (g' & r' & H). exists g', r'.
  destruct (initObstacles_builds_distinct_obstacles _ _ _ _ _ H) as (_ & Hl & Hnd & _).
  split; [exact H |]. split; [exact Hl | exact Hnd].
Defined.

Lemma initSnake_witness :
  List.length (body (snake (initSnake gIdle))) = 3%nat
  /\ nth_error (body (snake (initSnake gIdle))) 2 = Some (mkCell 13 10)
  /\ Forall (inGrid defaultConfig) (body (snake (initSnake gIdle))).
Proof.
  destruct (initSnake_lays_out_centred_row gIdle) as (_ & Hl & Hn & _ & Hg).
  split; [exact Hl |]. split.
  - apply (Hn 2%nat). simpl. lia.
  - apply Hg. right. simpl. lia.
Defined.

(** The sample session: a special food is eaten in the first tick, a turn
    up is accepted and a turn left after it is refused, and the game is
    paused at the end. *)
Lemma timers_witness :
  exists g r',
    session 5 emptyPatch sampleSession drawsSession = Done (g, r')
    /\ paused (state g) = true
    /\ (gameLoopInterval g <> None ->
        running (state g) = true /\ paused (state g) = false)
    /\ (gameLoopInterval g = None <-> gameTimeInterval g = None).
Proof.
  assert (H : exists g r',
             session 5 emptyPatch sampleSession drawsSession = Done (g, r')
             /\ paused (state g) = true)
    by (eexists; eexists; split; vm_compute; reflexivity).
  destruct H as (g & r' & H & Hp). exists g, r'.
  destruct (timers_only_while_running_unpaused _ _ _ _ _ _ H) as (H1 & H2 & _).
  split; [exact H |]. split; [exact Hp |]. split; [exact H1 | exact H2].
Defined.

Lemma score_witness :
  exists g r',
    session 5 emptyPatch sampleSession drawsSession = Done (g, r')
    /\ score (state g) = 5
    /\ score (state g) = foodEaten (state g) + 4 * specialFoodEaten (state g).
Proof.
  assert (H : exists g r',
             session 5 emptyPatch sampleSession drawsSession = Done (g, r')
             /\ score (state g) = 5)
    by (eexists; eexists; split; vm_compute; reflexivity).
  destruct H as (g & r' & H & Hs). exists g, r'.
  destruct (score_counts_foods _ _ _ _ _ _ H) as (H1 & _).
  split; [exact H |]. split; [exact Hs | exact H1].
Defined.

Lemma never_reverses_witness :
  exists g r',
    session 5 emptyPatch sampleSession drawsSession = Done (g, r')
    /\ direction (snake g) = "up"
    /\ nextDirection (snake g) = "up"
    /\ ~ reverseOf (direction (snake (commitDirection g))) (direction (snake g)).
Proof.
  assert (H : exists g r',
             session 5 emptyPatch sampleSession drawsSession = Done (g, r')
             /\ direction (snake g) = "up" /\ nextDirection (snake g) = "up")
    by (eexists; eexists; split; [| split]; vm_compute; reflexivity).
  destruct H as (g & r' & H & Hd & Hn). exists g, r'.
  destruct (snake_never_reverses _ _ _ _ _ _ H) as (_ & _ & H3).
  split; [exact H |]. split; [exact Hd |]. split; [exact Hn | exact H3].
Defined.

(** A reset of the game whose head stands on the right edge. *)
Lemma reset_witness :
  exists g' r',
    reset 5 gEdge rndThird = Done (g', r')
    /\ state g' = initialState
    /\ gameLoopInterval g' = None
    /\ body (snake g') = centreSnake
    /\ ~ In (food_pos (food g')) (body (snake g')).
Proof.
  assert (H : exists g' r', reset 5 gEdge rndThird = Done (g', r'))
    by (eexists; eexists; vm_compute; reflexivity).
  destruct H as (g' & r' & H). exists g', r'.
  destruct (reset_restores_initial_state _ _ _ _ _ H)
    as (Hs & _ & Hl & _ & Hb & _ & _ & _ & _ & Hf & _).
  split; [exact H |]. split; [exact Hs |]. split; [exact Hl |].
  split; [exact Hb | exact Hf].
Defined.

Lemma newGame_witness :
  exists g r',
    newGame 5 obstaclePatch drawsObstacles = Done (g, r')
    /\ state g = initialState
    /\ boardInv g
    /\ clearOfObstacles g
    /\ List.length (obstacles g) = 5%nat.
Proof.
  assert (H : exists g r', newGame 5 obstaclePatch drawsObstacles = Done (g, r'))
    by (eexists; eexists; vm_compute; reflexivity).
  destruct H as (g & r' & H). exists g, r'.
  destruct (newGame_builds_consistent_board _ _ _ _ _ H)
    as (Hc & Hs & _ & _ & _ & _ & _ & _ & Hb & Ho & Hn).
  split; [exact H |]. split; [exact Hs |]. split; [exact Hb |].
  split; [exact Ho |]. rewrite Hn, Hc. reflexivity.
Defined.

(** The tick in which the food one cell ahead is eaten and a new food is
    placed. *)
Lemma tick_board_witness :
  exists g' r',
    gameLoop 0 5 gFoodAhead rndThird = Done (g', r')
    /\ foodEaten (state g') = 1
    /\ boardInv g'
    /\ NoDup (body (snake g')).
Proof.
  assert (H : exists g' r',
             gameLoop 0 5 gFoodAhead rndThird = Done (g', r')
             /\ running (state g') = true /\ foodEaten (state g') = 1)
    by (eexists; eexists; split; [| split]; vm_compute; reflexivity).
  destruct H as (g' & r' & H & Hr & He). exists g', r'.
  destruct (tick_keeps_board_consistent 0 5 gFoodAhead rndThird g' r' eq_refl H Hr)
    as (Hb & Hn & _).
  split; [exact H |]. split; [exact He |]. split.
  - apply Hb. unfold boardInv. simpl. split; [| split; [tauto | constructor]].
    intros [E | [E | [E | []]]]; discriminate E.
  - apply Hn.
    + intros [E _]. discriminate E.
    + simpl. repeat constructor; simpl; intuition discriminate.
Defined.

(** With a limit of one second the first firing ends the game. *)
Lemma time_attack_witness :
  gameOver (state (Nat.iter 1 timeTick gTimeAttack)) = true
  /\ time (state (Nat.iter 1 timeTick gTimeAttack)) = timeLimit (config gTimeAttack)
  /\ gameTimeInterval (Nat.iter 1 timeTick gTimeAttack) = None.
Proof.
  assert (Hm : mode (config gTimeAttack) = "timeAttack") by (vm_compute; reflexivity).
  assert (Hr : running (state gTimeAttack) = true) by (vm_compute; reflexivity).
  assert (Ht : time (state gTimeAttack) + Z.of_nat 0 + 1 = timeLimit (config gTimeAttack))
    by (vm_compute; reflexivity).
  destruct (time_attack_ends_at_the_limit gTimeAttack 0) as (_ & _ & H).
  destruct (H Hm Hr Ht) as (_ & Ho & Hl & _ & _ & Hi & _).
  split; [exact Ho |]. split; [exact Hl | exact Hi].
Defined.

(** The game with a game-over handler is destroyed, started again and run
    into the obstacle: the handler is not invoked. *)
Lemma destroy_witness :
  exists g' r',
    calls 5 [CallStart; CallGameLoop 0; CallTimeTick; CallEndGame]
          (destroy gObstacleAhead) rndThird = Done (g', r')
    /\ onGameOver (callbacks gObstacleAhead) = true
    /\ gameOver (state g') = true
    /\ callbacks g' = noCallbacks
    /\ emitted g' = [].
Proof.
  assert (H : exists g' r',
             calls 5 [CallStart; CallGameLoop 0; CallTimeTick; CallEndGame]
                   (destroy gObstacleAhead) rndThird = Done (g', r')
             /\ gameOver (state g') = true)
    by (eexists; eexists; split; vm_compute; reflexivity).
  destruct H as (g' & r' & H & Ho). exists g', r'.
  assert (Hq : Forall (fun c => ~ registers c)
                      [CallStart; CallGameLoop 0; CallTimeTick; CallEndGame])
    by (repeat (constructor; [exact (fun x => x) |]); constructor).
  destruct (destroy_silences_the_engine _ _ _ _ _ _ Hq H) as (Hc & He).
  split; [exact H |]. split; [reflexivity |]. split; [exact Ho |].
  split; [exact Hc | exact He].
Defined.

Lemma getRandomInt_witness :
  exists v,
    getRandomInt 0 29 rndThird = Done (v, after1 rndThird) /\ 0 <= v <= 29.
Proof.
  assert (H0 : (0 <= rndThird 0%nat)%Q) by (unfold rndThird; lra).
  assert (H1 : (rndThird 0%nat < 1)%Q) by (unfold rndThird; lra).
  destruct (getRandomInt_covers_the_range 0 29 rndThird H0 H1) as (H & _).
  apply H. lia.
Defined.

Lemma power_up_witness :
  exists k g1,
    In k powerUps
    /\ activatePowerUp 0 gIdle rndThird = Done (g1, after1 rndThird)
    /\ powerUpEndTime (state g1) = 5000
    /\ checkPowerUps 4999 g1 = g1
    /\ powerUpActive (state (checkPowerUps 5000 g1)) = false.
Proof.
  assert (H0 : (0 <= rndThird 0%nat)%Q) by (unfold rndThird; lra).
  assert (H1 : (rndThird 0%nat < 1)%Q) by (unfold rndThird; lra).
  destruct (power_up_lasts_five_seconds 0 gIdle rndThird H0 H1)
    as (k & g1 & Hk & Ha & _ & He & Hb & Hc).
  exists k, g1. split; [exact Hk |]. split; [exact Ha |]. split; [exact He |].
  split.
  - apply Hb. lia.
  - apply (Hc 5000). lia.
Defined.

Lemma pause_resume_witness :
  paused (state (pause gFoodAhead)) = true
  /\ gameLoopInterval (pause gFoodAhead) = None
  /\ resume (pause gFoodAhead) = gFoodAhead.
Proof.
  destruct (pause_then_resume_rearms_timers gFoodAhead eq_refl eq_refl)
    as (_ & Hr & Hp & Hl & _).
  split; [exact Hp |]. split; [exact Hl |].
  apply Hr; vm_compute; reflexivity.
Defined.

Lemma moveSnake_witness :
  exists m,
    moveSnake gFoodAhead = Done m
    /\ body (snake m) = [mkCell 16 10; mkCell 15 10; mkCell 14 10]
    /\ growing (snake m) = false.
Proof.
  assert (Hc : cardinal (direction (snake gFoodAhead)))
    by (right; right; right; reflexivity).
  destruct (moveSnake_advances_by_one_cell gFoodAhead (mkCell 15 10)
              [mkCell 14 10; mkCell 13 10] eq_refl Hc)
    as (m & Hm & Hb & _ & Hg & _).
  exists m. split; [exact Hm |]. split; [exact Hb | exact Hg].
Defined.

Lemma eating_tick_witness :
  exists g' r',
    gameLoop 0 5 gFoodAhead rndThird = Done (g', r')
    /\ gameLoopInterval g' = Some (getCurrentSpeed g')
    /\ foodEaten (state g') = 1.
Proof.
  assert (H : exists g' r',
             gameLoop 0 5 gFoodAhead rndThird = Done (g', r')
             /\ running (state g') = true)
    by (eexists; eexists; split; vm_compute; reflexivity).
  destruct H as (g' & r' & H & Hr). exists g', r'.
  assert (Hi : gameLoopInterval gFoodAhead <> None) by (vm_compute; discriminate).
  destruct (eating_tick_reschedules_timer 0 5 gFoodAhead rndThird g' r'
              (mkCell 15 10) [mkCell 14 10; mkCell 13 10]
              eq_refl eq_refl Hi H Hr eq_refl (or_intror (or_introl eq_refl)))
    as (Hl & He).
  split; [exact H |]. split; [exact Hl | exact He].
Defined.

Lemma mergeConfig_witness :
  width (mergeConfig defaultConfig narrowPatch) = 10
  /\ mode (mergeConfig defaultConfig narrowPatch) = "classic"
  /\ setConfig 5 emptyPatch gFoodAhead rndThird = Done (gFoodAhead, rndThird)
  /\ setConfig 5 narrowPatch gFoodAhead rndThird
     = Done (set_config (mergeConfig (config gFoodAhead) narrowPatch) gFoodAhead, rndThird).
Proof.
  destruct (mergeConfig_overrides_given_keys defaultConfig narrowPatch)
    as (_ & _ & Hw & _ & _ & Hm & Hs & _).
  destruct (mergeConfig_overrides_given_keys defaultConfig narrowPatch)
    as (_ & _ & _ & _ & _ & _ & _ & _ & _ & _ & _ & _ & _ & _ & _ & _ & _ & _ & _ & Hp).
  split; [apply Hw; reflexivity |]. split; [apply Hm; reflexivity |].
  split; [apply Hs; reflexivity |].
  apply Hp. reflexivity.
Defined.

Lemma on_witness :
  on "onPause" true gIdle = gIdle
  /\ on "onGameOver" false (on "onScoreChange" true gIdle)
     = on "onScoreChange" true (on "onGameOver" false gIdle)
  /\ emitted (endGame (on "onGameOver" true (on "onGameOver" false gFoodAhead)))
     = [GameOver (mkSummary 0 0 0 0 "classic")].
Proof.
  destruct (on_registers_known_events_only "onScoreChange" true false gIdle)
    as (_ & _ & _ & Hc & _).
  destruct (on_registers_known_events_only "onPause" true true gIdle)
    as (Hn & _).
  destruct (on_registers_known_events_only "onGameOver" false true gFoodAhead)
    as (_ & _ & _ & _ & _ & _ & _ & _ & _ & _ & _ & He).
  split; [| split].
  - apply Hn. unfold eventNames. simpl. intuition discriminate.
  - apply Hc. discriminate.
  - apply He. reflexivity.
Defined.

(* -------------------------------------------------------------------- *)
(** * Properties of the helpers outside the engine *)

(** ** Utils.clamp and Utils.checkAABBCollision *)

(** X22: for [min <= max], [Utils.clamp] returns a number between [min] and
    [max]: the value itself when it lies between them, [min] for a smaller
    and [max] for a larger one, and clamping twice is clamping once.  For
    bounds given in the wrong order ([max < min]) it returns [max] whatever
    the value is. *)
Theorem clamp_stays_within_bounds :
  forall value min max : Q,
    ((min <= max)%Q ->
     (min <= clamp value min max)%Q
     /\ (clamp value min max <= max)%Q
     /\ ((min <= value)%Q -> (value <= max)%Q -> (clamp value min max == value)%Q)
     /\ ((value < min)%Q -> (clamp value min max == min)%Q)
     /\ ((max < value)%Q -> (clamp value min max == max)%Q)
     /\ (clamp (clamp value min max) min max == clamp value min max)%Q)
    /\ ((max < min)%Q -> (clamp value min max == max)%Q).
Proof.
  intros value min max. unfold clamp.
  destruct (Q.max_spec value min) as [[H1 E1] | [H1 E1]];
    destruct (Q.min_spec (Qmax value min) max) as [[H2 E2] | [H2 E2]];
    destruct (Q.max_spec (Qmin (Qmax value min) max) min) as [[H3 E3] | [H3 E3]];
    destruct (Q.min_spec (Qmax (Qmin (Qmax value min) max) min) max) as [[H4 E4] | [H4 E4]];
    repeat split; intros; lra.
Qed.

(** X23: [Utils.checkAABBCollision] is symmetric in its two rectangles.  For
    rectangles of positive width and height it answers true exactly when
    they share a unit cell, so rectangles that only touch along an edge do
    not collide; and a rectangle collides with itself exactly when its
    width and height are positive. *)
Theorem checkAABBCollision_shares_a_cell :
  forall rect1 rect2 : Rect,
    checkAABBCollision rect1 rect2 = checkAABBCollision rect2 rect1
    /\ (0 < rect_width rect1 -> 0 < rect_height rect1 ->
        0 < rect_width rect2 -> 0 < rect_height rect2 ->
        (checkAABBCollision rect1 rect2 = true
         <-> exists i j,
               covers (rect_x rect1) (rect_width rect1) i
               /\ covers (rect_x rect2) (rect_width rect2) i
               /\ covers (rect_y rect1) (rect_height rect1) j
               /\ covers (rect_y rect2) (rect_height rect2) j))
    /\ (rect_x rect2 = rect_x rect1 + rect_width rect1 ->
        checkAABBCollision rect1 rect2 = false)
    /\ (rect_y rect2 = rect_y rect1 + rect_height rect1 ->
        checkAABBCollision rect1 rect2 = false)
    /\ (checkAABBCollision rect1 rect1 = true
        <-> 0 < rect_width rect1 /\ 0 < rect_height rect1).
Proof.
  intros [x1 y1 w1 h1] [x2 y2 w2 h2]. unfold checkAABBCollision, covers.
  cbn [rect_x rect_y rect_width rect_height].
  rewrite !Z.gtb_ltb.
  split; [| split; [| split; [| split]]].
  - destruct (Z.ltb_spec x1 (x2 + w2)), (Z.ltb_spec x2 (x1 + w1)),
      (Z.ltb_spec y1 (y2 + h2)), (Z.ltb_spec y2 (y1 + h1)); reflexivity.
  - intros Hw1 Hh1 Hw2 Hh2.
    rewrite !andb_true_iff, !Z.ltb_lt. split.
    + intros (((Ha & Hb) & Hc) & Hd).
      exists (Z.max x1 x2), (Z.max y1 y2). lia.
    + intros (i & j & Hi1 & Hi2 & Hj1 & Hj2). lia.
  - intros ->. rewrite (Z.ltb_irrefl (x1 + w1)).
    rewrite andb_false_r. reflexivity.
  - intros ->. rewrite (Z.ltb_irrefl (y1 + h1)).
    rewrite andb_false_r. reflexivity.
  - rewrite !andb_true_iff, !Z.ltb_lt. lia.
Qed.

(** ** Utils.formatTime *)

Lemma padStart_two_digits :
  forall n : Z,
    0 <= n < 100 ->
    padStart 2 "0" (toString n)
    = String (digitChar (n / 10)) (String (digitChar (n mod 10)) "").
Proof.
  intros n Hn.
  assert (Hall : forallb
                   (fun k => String.eqb
                               (padStart 2 "0" (toString k))
                               (String (digitChar (k / 10))
                                       (String (digitChar (k mod 10)) "")))
                   (map Z.of_nat (seq 0 100)) = true)
    by (vm_compute; reflexivity).
  rewrite forallb_forall in Hall.
  apply String.eqb_eq, Hall, in_map_iff.
  exists (Z.to_nat n). split; [lia | apply in_seq; lia].
Qed.

Lemma padStart_long :
  forall (pad : ascii) (s : string),
    (2 <= String.length s)%nat -> padStart 2 pad s = s.
Proof.
  intros pad s H. unfold padStart.
  replace (2 - String.length s)%nat with 0%nat by lia. reflexivity.
Qed.

Lemma toString_negative :
  forall z : Z, z < 0 -> exists c t, toString z = String "-" (String c t).
Proof.
  intros [| p | p] H; try lia. unfold toString. cbn [Z.to_int DecimalString.NilZero.string_of_int].
  destruct (Pos.to_uint p); cbn; eauto.
Qed.

Lemma toString_three_digits :
  forall m : Z, 100 <= m -> (3 <= String.length (toString m))%nat.
Proof.
  intros [| p | p] H; try lia. unfold toString.
  cbn [Z.to_int DecimalString.NilZero.string_of_int].
  assert (Hof : Pos.of_uint (Pos.to_uint p) = N.pos p) by apply DecimalPos.Unsigned.of_to.
  destruct (Pos.to_uint p) as [| d | d | d | d | d | d | d | d | d | d];
    [vm_compute in Hof; discriminate Hof | ..];
    (destruct d as [| d | d | d | d | d | d | d | d | d | d];
     [vm_compute in Hof; first [discriminate Hof | injection Hof as Hof; lia] | ..];
     (destruct d as [| d | d | d | d | d | d | d | d | d | d];
      [vm_compute in Hof; first [discriminate Hof | injection Hof as Hof; lia] | ..];
      cbn; lia)).
Qed.

(** X24: for a time of [m] minutes and [s] seconds, with [m] below 100 and
    [s] below 60, [Utils.formatTime] prints the two decimal digits of [m], a
    colon and the two decimal digits of [s].  From 100 minutes on the
    minutes field is the whole number, of three digits or more (6000 seconds
    print as ["100:00"]).  For a negative time the minutes field is the
    floored quotient with its minus sign, and the seconds field is the
    remainder with a minus sign of its own, or ["00"] for a multiple of 60:
    -1 prints as ["-1:-1"] and -60 as ["-1:00"]. *)
Theorem formatTime_prints_two_digit_fields :
  (forall m s : Z,
      0 <= m < 100 -> 0 <= s < 60 ->
      formatTime (60 * m + s)
      = String (digitChar (m / 10))
          (String (digitChar (m mod 10))
             (String ":"
                (String (digitChar (s / 10))
                   (String (digitChar (s mod 10)) "")))))
  /\ formatTime 6000 = "100:00"
  /\ formatTime (-1) = "-1:-1"
  /\ (forall m s : Z,
         100 <= m -> 0 <= s < 60 ->
         formatTime (60 * m + s)
         = toString m ++ ":" ++ String (digitChar (s / 10)) (String (digitChar (s mod 10)) "")
         /\ (3 <= String.length (toString m))%nat)
  /\ (forall seconds : Z,
         seconds < 0 ->
         formatTime seconds
         = toString (seconds / 60) ++ ":"
           ++ (if Z.rem seconds 60 =? 0 then "00" else toString (Z.rem seconds 60))
         /\ (exists t, toString (seconds / 60) = String "-" t)
         /\ (Z.rem seconds 60 <> 0 ->
             exists t, toString (Z.rem seconds 60) = String "-" t))
  /\ formatTime (-60) = "-1:00".
Proof.
  split; [| split; [vm_compute; reflexivity |];
             split; [vm_compute; reflexivity |];
             split; [| split; [| vm_compute; reflexivity]]].
  - intros m s Hm Hs. unfold formatTime.
    assert (Hq : (60 * m + s) / 60 = m) by (Z.div_mod_to_equations; lia).
    assert (Hr : Z.rem (60 * m + s) 60 = s).
    { rewrite Z.rem_mod_nonneg by lia. Z.div_mod_to_equations; lia. }
    cbv zeta. rewrite Hq, Hr.
    rewrite (padStart_two_digits m), (padStart_two_digits s) by lia.
    reflexivity.
  - intros m s Hm Hs. unfold formatTime.
    assert (Hq : (60 * m + s) / 60 = m) by (Z.div_mod_to_equations; lia).
    assert (Hr : Z.rem (60 * m + s) 60 = s).
    { rewrite Z.rem_mod_nonneg by lia. Z.div_mod_to_equations; lia. }
    pose proof (toString_three_digits m Hm) as Hl.
    cbv zeta. rewrite Hq, Hr.
    rewrite (padStart_long _ (toString m)) by lia.
    rewrite (padStart_two_digits s) by lia.
    split; [reflexivity | exact Hl].
  - intros seconds Hneg. unfold formatTime. cbv zeta.
    assert (Hq : seconds / 60 < 0) by (Z.div_mod_to_equations; lia).
    assert (Hr : Z.rem seconds 60 <= 0) by (apply Z.rem_nonpos; lia).
    destruct (toString_negative _ Hq) as (c & t & Em).
    rewrite (padStart_long _ (toString (seconds / 60))) by (rewrite Em; cbn; lia).
    split; [| split].
    + destruct (Z.eqb_spec (Z.rem seconds 60) 0) as [E | E].
      * rewrite E. reflexivity.
      * assert (Hr' : Z.rem seconds 60 < 0) by lia.
        destruct (toString_negative _ Hr') as (c' & t' & Es).
        rewrite (padStart_long _ (toString (Z.rem seconds 60))) by (rewrite Es; cbn; lia).
        reflexivity.
    + exists (String c t). exact Em.
    + intros E. assert (Hr' : Z.rem seconds 60 < 0) by lia.
      destruct (toString_negative _ Hr') as (c' & t' & Es).
      exists (String c' t'). exact Es.
Qed.

(** ** Utils.rgbToHex and Utils.hexToRgb *)

Lemma hexPair_digits :
  forall x : Z,
    0 <= x <= 255 ->
    hexPair x = String (hexChar (x / 16)) (String (hexChar (x mod 16)) "").
Proof.
  intros x Hx.
  assert (Hall : forallb
                   (fun k => String.eqb
                               (hexPair k)
                               (String (hexChar (k / 16))
                                       (String (hexChar (k mod 16)) "")))
                   (map Z.of_nat (seq 0 256)) = true)
    by (vm_compute; reflexivity).
  rewrite forallb_forall in Hall.
  apply String.eqb_eq, Hall, in_map_iff.
  exists (Z.to_nat x). split; [lia | apply in_seq; lia].
Qed.

Lemma hexChar_value :
  forall d : Z, 0 <= d < 16 -> hexDigitValue (hexChar d) = Some d.
Proof.
  intros d Hd.
  assert (Hall : forallb
                   (fun k => match hexDigitValue (hexChar k) with
                             | Some v => v =? k
                             | None => false
                             end)
                   (map Z.of_nat (seq 0 16)) = true)
    by (vm_compute; reflexivity).
  rewrite forallb_forall in Hall.
  assert (Hin : In d (map Z.of_nat (seq 0 16))).
  { apply in_map_iff. exists (Z.to_nat d). split; [lia | apply in_seq; lia]. }
  specialize (Hall d Hin).
  destruct (hexDigitValue (hexChar d)) as [v |]; [| discriminate Hall].
  apply Z.eqb_eq in Hall. congruence.
Qed.

(** A string that starts with two digits has no white space, sign or
    prefix for [parseInt] to skip. *)
Lemma parseInt16_digits :
  forall (c c' : ascii) (t : string) (d d' : Z),
    hexDigitValue c = Some d ->
    hexDigitValue c' = Some d' ->
    parseInt16 (String c (String c' t))
    = toDouble (fold_left (fun acc k => 16 * acc + k) (d :: d' :: hexDigits t) 0).
Proof.
  intros c c' t d d' H H'.
  destruct c as [[|] [|] [|] [|] [|] [|] [|] [|]];
    try (vm_compute in H; discriminate H);
    destruct c' as [[|] [|] [|] [|] [|] [|] [|] [|]];
    try (vm_compute in H'; discriminate H');
    vm_compute in H; vm_compute in H'; injection H as <-; injection H' as <-;
    reflexivity.
Qed.

Lemma land_255 : forall z : Z, Z.land z 255 = z mod 256.
Proof.
  intros z. change 255 with (Z.ones 8). rewrite Z.land_ones by lia. reflexivity.
Qed.

Lemma toInt32_small :
  forall n : Z, 0 <= n < 2 ^ 31 -> toInt32 (toDouble n) = n.
Proof.
  intros n Hn.
  assert (H31 : 2 ^ 31 = 2147483648) by reflexivity.
  assert (H32 : 2 ^ 32 = 4294967296) by reflexivity.
  assert (H53 : 2 ^ 53 = 9007199254740992) by reflexivity.
  unfold toDouble. rewrite Z.abs_eq by lia.
  destruct (Z.ltb_spec n (2 ^ 53)); [| lia].
  cbn [toInt32]. rewrite Z.mod_small by lia.
  destruct (Z.leb_spec (2 ^ 31) n); [lia | reflexivity].
Qed.

(** X25: for components between 0 and 255 [Utils.rgbToHex] gives a string
    of seven characters, and [Utils.hexToRgb] reads the three components
    back from it. *)
Theorem hexToRgb_inverts_rgbToHex :
  forall r g b : Z,
    0 <= r <= 255 -> 0 <= g <= 255 -> 0 <= b <= 255 ->
    String.length (rgbToHex r g b) = 7%nat
    /\ hexToRgb (rgbToHex r g b) = mkRgb r g b.
Proof.
  intros r g b Hr Hg Hb.
  unfold rgbToHex. cbn [map String.concat].
  rewrite (hexPair_digits r), (hexPair_digits g), (hexPair_digits b) by assumption.
  cbn [append].
  split; [reflexivity |].
  unfold hexToRgb. cbn [stripHash String.length Nat.eqb].
  assert (Hd : forall x, 0 <= x <= 255 -> 0 <= x / 16 < 16 /\ 0 <= x mod 16 < 16)
    by (intros x Hx; Z.div_mod_to_equations; lia).
  destruct (Hd r Hr) as (Hr1 & Hr0), (Hd g Hg) as (Hg1 & Hg0), (Hd b Hb) as (Hb1 & Hb0).
  rewrite (parseInt16_digits _ _ _ (r / 16) (r mod 16)) by (apply hexChar_value; assumption).
  cbn [hexDigits].
  rewrite !hexChar_value by assumption.
  cbn [hexDigits fold_left].
  assert (E : 16 * (16 * (16 * (16 * (16 * (16 * 0 + r / 16) + r mod 16) + g / 16)
                             + g mod 16) + b / 16) + b mod 16
              = 65536 * r + 256 * g + b)
    by (Z.div_mod_to_equations; lia).
  rewrite E.
  assert (H31 : 2 ^ 31 = 2147483648) by reflexivity.
  rewrite toInt32_small by lia.
  rewrite !land_255, !Z.shiftr_div_pow2 by lia.
  change (2 ^ 16) with 65536. change (2 ^ 8) with 256.
  f_equal; Z.div_mod_to_equations; lia.
Qed.

Lemma land_255_range : forall z : Z, 0 <= Z.land z 255 <= 255.
Proof.
  intros z. rewrite land_255. Z.div_mod_to_equations; lia.
Qed.


(** ** Utils.throttle and Utils.debounce *)

Lemma throttleStep_timers :
  forall (A : Type) (e : WrapperEvent A) (t : Throttled A),
    releaseTimers t = (if inThrottle t then 1 else 0)%nat ->
    releaseTimers (throttleStep t e)
    = (if inThrottle (throttleStep t e) then 1 else 0)%nat.
Proof.
  intros A e [i n l] H. cbn in H. subst n.
  destruct e, i; reflexivity.
Qed.

Lemma throttle_timers :
  forall (A : Type) (evs : list (WrapperEvent A)) (t : Throttled A),
    releaseTimers t = (if inThrottle t then 1 else 0)%nat ->
    releaseTimers (fold_left throttleStep evs t)
    = (if inThrottle (fold_left throttleStep evs t) then 1 else 0)%nat.
Proof.
  intros A evs. induction evs as [| e evs IH]; intros t H; [exact H |].
  cbn [fold_left]. apply IH, throttleStep_timers, H.
Qed.

Lemma throttle_drops_calls :
  forall (A : Type) (l : list A) (t : Throttled A),
    inThrottle t = true ->
    fold_left throttleStep (map Invoke l) t = t.
Proof.
  intros A l. induction l as [| a l IH]; intros t H; [reflexivity |].
  cbn [map fold_left throttleStep]. unfold throttledCall. rewrite H.
  apply IH, H.
Qed.

(** X27: the function [Utils.throttle] returns keeps at most one timeout
    pending, and one is pending exactly while it is throttled.  Of a burst
    of calls that starts when it is not throttled, the first call applies
    [func] at once and every later call is dropped: when the timeout fires
    the function is idle again and [func] has been applied to the first
    arguments only. *)
Theorem throttle_applies_first_call_of_a_burst :
  forall (A : Type) (evs : list (WrapperEvent A)) (first : A) (rest : list A),
    (releaseTimers (fold_left throttleStep evs throttle) <= 1)%nat
    /\ (inThrottle (fold_left throttleStep evs throttle) = true
        <-> releaseTimers (fold_left throttleStep evs throttle) = 1%nat)
    /\ (inThrottle (fold_left throttleStep evs throttle) = false ->
        fold_left throttleStep (map Invoke (first :: rest))
                  (fold_left throttleStep evs throttle)
        = mkThrottled true 1
            (throttleApplied (fold_left throttleStep evs throttle) ++ [first])
        /\ throttleTimeout
             (fold_left throttleStep (map Invoke (first :: rest))
                        (fold_left throttleStep evs throttle))
           = mkThrottled false 0
               (throttleApplied (fold_left throttleStep evs throttle) ++ [first])).
Proof.
  intros A evs first rest.
  pose proof (throttle_timers A evs throttle eq_refl) as H.
  destruct (fold_left throttleStep evs throttle) as [i n l].
  cbn [inThrottle releaseTimers throttleApplied] in *. subst n.
  split; [destruct i; lia |]. split; [destruct i; split; (discriminate || reflexivity) |].
  intros ->. cbn [map fold_left throttleStep]. unfold throttledCall.
  cbn [inThrottle releaseTimers throttleApplied].
  rewrite !throttle_drops_calls by reflexivity.
  split; reflexivity.
Qed.

Lemma clearTimeout_armed :
  forall (A : Type) (d : Debounced A),
    debounceInv d -> clearTimeout (debounceHandle d) (debouncePending d) = [].
Proof.
  intros A d [E | (h & a & E & Eh)]; rewrite E.
  - destruct (debounceHandle d); reflexivity.
  - rewrite Eh. cbn. rewrite Nat.eqb_refl. reflexivity.
Qed.

Lemma debouncedCall_pending :
  forall (A : Type) (args : A) (d : Debounced A),
    debounceInv d ->
    debouncePending (debouncedCall args d) = [(debounceNext d, args)]
    /\ debounceHandle (debouncedCall args d) = Some (debounceNext d).
Proof.
  intros A args d H. unfold debouncedCall.
  cbn [debouncePending debounceHandle].
  rewrite clearTimeout_armed by exact H. split; reflexivity.
Qed.

Lemma debounceStep_inv :
  forall (A : Type) (e : WrapperEvent A) (d : Debounced A),
    debounceInv d -> debounceInv (debounceStep d e).
Proof.
  intros A [args | h'] d H.
  - destruct (debouncedCall_pending A args d H) as (Ep & Eh).
    right. exists (debounceNext d), args. split; assumption.
  - cbn [debounceStep]. unfold debounceTimeout.
    destruct H as [E | (h & a & E & Eh)]; rewrite E.
    + left. exact E.
    + cbn [find fst]. destruct (Nat.eqb_spec h h') as [-> | Hne].
      * left. cbn. rewrite Nat.eqb_refl. reflexivity.
      * right. exists h, a. split; assumption.
Qed.

Lemma debounce_inv :
  forall (A : Type) (evs : list (WrapperEvent A)) (d : Debounced A),
    debounceInv d -> debounceInv (fold_left debounceStep evs d).
Proof.
  intros A evs. induction evs as [| e evs IH]; intros d H; [exact H |].
  cbn [fold_left]. apply IH, debounceStep_inv, H.
Qed.

Lemma debounce_calls_apply_nothing :
  forall (A : Type) (l : list A) (d : Debounced A),
    debounceApplied (fold_left debounceStep (map Invoke l) d) = debounceApplied d.
Proof.
  intros A l. induction l as [| a l IH]; intros d; [reflexivity |].
  cbn [map fold_left debounceStep]. rewrite IH. reflexivity.
Qed.

(** X28: the function [Utils.debounce] returns keeps at most one timeout
    pending.  A burst of calls applies [func] to nothing while it lasts,
    cancels the timeout that was pending before it and leaves one timeout
    armed, for the last call: when that one fires, [func] is applied once,
    to the arguments of the last call, and firing the same handle again
    does nothing. *)
Theorem debounce_delivers_last_call_of_a_burst :
  forall (A : Type) (evs : list (WrapperEvent A)) (calls : list A) (last : A),
    (List.length (debouncePending (fold_left debounceStep evs debounce)) <= 1)%nat
    /\ exists d' handle,
         d' = fold_left debounceStep (map Invoke (calls ++ [last]))
                        (fold_left debounceStep evs debounce)
         /\ debounceApplied d'
            = debounceApplied (fold_left debounceStep evs debounce)
         /\ debouncePending d' = [(handle, last)]
         /\ debounceTimeout handle d'
            = mkDebounced (Some handle) [] (debounceNext d')
                (debounceApplied (fold_left debounceStep evs debounce) ++ [last])
         /\ debounceTimeout handle (debounceTimeout handle d')
            = debounceTimeout handle d'.
Proof.
  intros A evs calls last.
  assert (H : debounceInv (fold_left debounceStep evs debounce))
    by (apply debounce_inv; left; reflexivity).
  set (d := fold_left debounceStep evs debounce) in *.
  split.
  - destruct H as [E | (h & a & E & _)]; rewrite E; cbn; lia.
  - rewrite map_app, fold_left_app. cbn [map fold_left debounceStep].
    set (d1 := fold_left debounceStep (map Invoke calls) d).
    assert (H1 : debounceInv d1) by (apply debounce_inv, H).
    assert (Ea : debounceApplied d1 = debounceApplied d)
      by apply debounce_calls_apply_nothing.
    destruct (debouncedCall_pending A last d1 H1) as (Ep & Eh).
    exists (debouncedCall last d1), (debounceNext d1).
    split; [reflexivity |]. split; [exact Ea |]. split; [exact Ep |].
    assert (Ef : debounceTimeout (debounceNext d1) (debouncedCall last d1)
                 = mkDebounced (Some (debounceNext d1)) []
                     (debounceNext (debouncedCall last d1))
                     (debounceApplied d ++ [last])).
    { unfold debounceTimeout. rewrite Ep, Eh. cbn [find fst].
      rewrite Nat.eqb_refl. cbn [clearTimeout filter fst negb].
      rewrite Nat.eqb_refl. cbn [negb]. rewrite <- Ea. reflexivity. }
    split; [exact Ef |].
    rewrite Ef. reflexivity.
Qed.

(** ** Utils.isPointInRect *)

(** X29: [Utils.isPointInRect] takes the rectangle with its border: the
    corner at [(x, y)] and the corner at [(x + width, y + height)] are
    inside exactly when width and height are not negative.  So two
    rectangles of which [Utils.checkAABBCollision] says that they collide
    have a point in common, but not the other way round: the second of two
    rectangles side by side has its corner inside the first one, and they do
    not collide. *)
Theorem isPointInRect_includes_the_border :
  forall rect1 rect2 : Rect,
    (isPointInRect (mkCell (rect_x rect1) (rect_y rect1)) rect1 = true
     <-> 0 <= rect_width rect1 /\ 0 <= rect_height rect1)
    /\ (isPointInRect (mkCell (rect_x rect1 + rect_width rect1)
                              (rect_y rect1 + rect_height rect1)) rect1 = true
        <-> 0 <= rect_width rect1 /\ 0 <= rect_height rect1)
    /\ (0 <= rect_width rect1 -> 0 <= rect_height rect1 ->
        0 <= rect_width rect2 -> 0 <= rect_height rect2 ->
        checkAABBCollision rect1 rect2 = true ->
        exists point,
          isPointInRect point rect1 = true /\ isPointInRect point rect2 = true)
    /\ (0 <= rect_width rect1 -> 0 <= rect_height rect1 ->
        0 <= rect_width rect2 -> 0 <= rect_height rect2 ->
        rect_x rect2 = rect_x rect1 + rect_width rect1 ->
        rect_y rect2 = rect_y rect1 ->
        isPointInRect (mkCell (rect_x rect2) (rect_y rect2)) rect1 = true
        /\ isPointInRect (mkCell (rect_x rect2) (rect_y rect2)) rect2 = true
        /\ checkAABBCollision rect1 rect2 = false).
Proof.
  intros [x1 y1 w1 h1] [x2 y2 w2 h2]. unfold isPointInRect, checkAABBCollision.
  cbn [rect_x rect_y rect_width rect_height cell_x cell_y].
  rewrite !Z.gtb_ltb, !Z.geb_leb.
  split; [| split; [| split]].
  - rewrite !andb_true_iff, !Z.leb_le. lia.
  - rewrite !andb_true_iff, !Z.leb_le. lia.
  - intros Hw1 Hh1 Hw2 Hh2.
    rewrite !andb_true_iff, !Z.ltb_lt. intros (((Ha & Hb) & Hc) & Hd).
    exists (mkCell (Z.max x1 x2) (Z.max y1 y2)).
    cbn [cell_x cell_y]. rewrite !andb_true_iff, !Z.leb_le. lia.
  - intros Hw1 Hh1 Hw2 Hh2 -> ->.
    rewrite !andb_true_iff, !Z.leb_le.
    split; [lia |]. split; [lia |].
    rewrite (Z.ltb_irrefl (x1 + w1)), andb_false_r. reflexivity.
Qed.

(** ** AudioManager: the volume controls *)

Lemma clamped_unitVolume : forall v : Q, unitVolume (Qmax 0 (Qmin 1 v)).
Proof.
  intros v. unfold unitVolume.
  destruct (Q.min_spec 1 v) as [[H1 E1] | [H1 E1]];
    destruct (Q.max_spec 0 (Qmin 1 v)) as [[H2 E2] | [H2 E2]]; split; lra.
Qed.

Lemma clamped_value :
  forall v : Q,
    (unitVolume v -> Qmax 0 (Qmin 1 v) == v)%Q
    /\ ((v < 0)%Q -> Qmax 0 (Qmin 1 v) == 0)%Q
    /\ ((1 < v)%Q -> Qmax 0 (Qmin 1 v) == 1)%Q.
Proof.
  intros v. unfold unitVolume.
  destruct (Q.min_spec 1 v) as [[H1 E1] | [H1 E1]];
    destruct (Q.max_spec 0 (Qmin 1 v)) as [[H2 E2] | [H2 E2]];
    repeat split; intros; lra.
Qed.

Lemma unitVolume_mult :
  forall v w : Q, unitVolume v -> unitVolume w -> unitVolume (v * w).
Proof.
  intros v w [Hv0 Hv1] [Hw0 Hw1]. unfold unitVolume. split.
  - apply Qmult_le_0_compat; assumption.
  - apply Qle_trans with (1 * w)%Q; [| lra].
    apply Qmult_le_compat_r; assumption.
Qed.

Lemma applyVolumeSettings_applied :
  forall a : AudioManager,
    supported a = true ->
    settingsInRange (settings a) ->
    volumesApplied (applyVolumeSettings a)
    /\ settings (applyVolumeSettings a) = settings a
    /\ supported (applyVolumeSettings a) = true
    /\ currentMusicElement (applyVolumeSettings a) = currentMusicElement a
    /\ map fst (audioBuffers (applyVolumeSettings a)) = map fst (audioBuffers a).
Proof.
  intros a Hs (Hm & Hmu & Hsf). unfold applyVolumeSettings. rewrite Hs.
  cbn [negb]. unfold volumesApplied.
  cbn [settings supported masterGain sfxGain musicGain audioBuffers currentMusicElement].
  split; [| split; [reflexivity | split; [reflexivity | split; [reflexivity |]]]].
  - split; [reflexivity |]. split; [reflexivity |]. split; [reflexivity |].
    intros name element v Hin. apply in_map_iff in Hin.
    destruct Hin as ([n [| e v0]] & E & _); [discriminate E |].
    unfold isCurrentMusic in *.
    cbn [currentMusicElement] in *.
    destruct (match currentMusicElement a with
              | Some e0 => (e0 =? e)%nat
              | None => false
              end) eqn:Hc;
      injection E as <- <- <-; rewrite Hc;
      (split; [apply unitVolume_mult; assumption | reflexivity]).
  - rewrite map_map. apply map_ext. intros [n [| e v0]]; [reflexivity |].
    destruct (isCurrentMusic a e); reflexivity.
Qed.

Lemma volumeCall_applied :
  forall (c : VolumeCall) (a : AudioManager),
    supported a = true ->
    settingsInRange (settings a) ->
    settingsInRange (settings (volumeCall a c))
    /\ volumesApplied (volumeCall a c)
    /\ supported (volumeCall a c) = true
    /\ musicEnabled (settings (volumeCall a c)) = musicEnabled (settings a)
    /\ sfxEnabled (settings (volumeCall a c)) = sfxEnabled (settings a)
    /\ currentMusicElement (volumeCall a c) = currentMusicElement a
    /\ map fst (audioBuffers (volumeCall a c)) = map fst (audioBuffers a).
Proof.
  intros c a Hs (Hm & Hmu & Hsf).
  destruct c as [v | v | v]; cbn [volumeCall];
    unfold setMasterVolume, setSfxVolume, setMusicVolume;
    rewrite Hs; cbn [negb];
    match goal with
    | |- context [applyVolumeSettings ?b] =>
        assert (Hr : settingsInRange (settings b))
          by (unfold settingsInRange; cbn; repeat split;
              first [apply clamped_unitVolume | apply Hm | apply Hmu | apply Hsf]);
        destruct (applyVolumeSettings_applied b Hs Hr) as (Ha & Es & Hs' & Ec & Eb);
        rewrite Es
    end;
    (split; [exact Hr |]); (split; [exact Ha |]); (split; [exact Hs' |]);
    (split; [reflexivity |]); (split; [reflexivity |]);
    (split; [exact Ec | exact Eb]).
Qed.

Lemma volumeCalls_applied :
  forall (cs : list VolumeCall) (a : AudioManager),
    supported a = true ->
    settingsInRange (settings a) ->
    volumesApplied a ->
    settingsInRange (settings (fold_left volumeCall cs a))
    /\ volumesApplied (fold_left volumeCall cs a)
    /\ musicEnabled (settings (fold_left volumeCall cs a)) = musicEnabled (settings a)
    /\ sfxEnabled (settings (fold_left volumeCall cs a)) = sfxEnabled (settings a)
    /\ currentMusicElement (fold_left volumeCall cs a) = currentMusicElement a
    /\ map fst (audioBuffers (fold_left volumeCall cs a)) = map fst (audioBuffers a).
Proof.
  intros cs. induction cs as [| c cs IH]; intros a Hs Hr Ha.
  - cbn [fold_left]. split; [exact Hr |]. split; [exact Ha |].
    repeat split; reflexivity.
  - cbn [fold_left].
    destruct (volumeCall_applied c a Hs Hr) as (Hr1 & Ha1 & Hs1 & E1 & E2 & E3 & E4).
    destruct (IH _ Hs1 Hr1 Ha1) as (Hr2 & Ha2 & F1 & F2 & F3 & F4).
    split; [exact Hr2 |]. split; [exact Ha2 |].
    split; [congruence |]. split; [congruence |]. split; congruence.
Qed.

Lemma volumeCalls_unsupported :
  forall (cs : list VolumeCall) (a : AudioManager),
    supported a = false -> fold_left volumeCall cs a = a.
Proof.
  intros cs. induction cs as [| c cs IH]; intros a Hs; [reflexivity |].
  cbn [fold_left].
  assert (E : volumeCall a c = a).
  { destruct c; cbn [volumeCall];
      unfold setMasterVolume, setSfxVolume, setMusicVolume; rewrite Hs; reflexivity. }
  rewrite E. apply IH, Hs.
Qed.

(** X30: each of the three volume setters of a supported [AudioManager]
    stores the given volume cut to the range from 0 to 1 under its own
    setting and leaves the two other volumes and the two switches as they
    were.  After one or more of them, on a manager whose volumes were in
    that range (as they are after construction), the volumes still are, the
    master gain is the master volume, the effects and music gains are their
    volumes, or 0 when disabled, and every fallback element has a volume in
    the range: music volume times master volume for the element that plays
    the music, effects volume times master volume for the others.  A manager
    without Web Audio support ignores the setters. *)
Theorem volume_setters_keep_volumes_in_range :
  forall (c : VolumeCall) (cs : list VolumeCall) (v : Q) (a : AudioManager),
    (supported a = true ->
     settingsInRange (settings a) ->
     settingsInRange (settings (fold_left volumeCall (c :: cs) a))
     /\ volumesApplied (fold_left volumeCall (c :: cs) a)
     /\ musicEnabled (settings (fold_left volumeCall (c :: cs) a))
        = musicEnabled (settings a)
     /\ sfxEnabled (settings (fold_left volumeCall (c :: cs) a))
        = sfxEnabled (settings a)
     /\ map fst (audioBuffers (fold_left volumeCall (c :: cs) a))
        = map fst (audioBuffers a))
    /\ (supported a = true ->
        (unitVolume v -> masterVolume (settings (setMasterVolume v a)) == v)%Q
        /\ ((v < 0)%Q -> masterVolume (settings (setMasterVolume v a)) == 0)%Q
        /\ ((1 < v)%Q -> masterVolume (settings (setMasterVolume v a)) == 1)%Q
        /\ musicVolume (settings (setMasterVolume v a)) = musicVolume (settings a)
        /\ sfxVolume (settings (setMasterVolume v a)) = sfxVolume (settings a))
    /\ (supported a = false -> fold_left volumeCall (c :: cs) a = a)
    /\ settingsInRange (settings newAudioManager)
    /\ volumesApplied newAudioManager
    /\ (supported a = true ->
        (unitVolume v -> sfxVolume (settings (setSfxVolume v a)) == v)%Q
        /\ ((v < 0)%Q -> sfxVolume (settings (setSfxVolume v a)) == 0)%Q
        /\ ((1 < v)%Q -> sfxVolume (settings (setSfxVolume v a)) == 1)%Q
        /\ masterVolume (settings (setSfxVolume v a)) = masterVolume (settings a)
        /\ musicVolume (settings (setSfxVolume v a)) = musicVolume (settings a))
    /\ (supported a = true ->
        (unitVolume v -> musicVolume (settings (setMusicVolume v a)) == v)%Q
        /\ ((v < 0)%Q -> musicVolume (settings (setMusicVolume v a)) == 0)%Q
        /\ ((1 < v)%Q -> musicVolume (settings (setMusicVolume v a)) == 1)%Q
        /\ masterVolume (settings (setMusicVolume v a)) = masterVolume (settings a)
        /\ sfxVolume (settings (setMusicVolume v a)) = sfxVolume (settings a))
    /\ (supported a = true ->
        musicEnabled (settings (volumeCall a c)) = musicEnabled (settings a)
        /\ sfxEnabled (settings (volumeCall a c)) = sfxEnabled (settings a)
        /\ currentMusicElement (volumeCall a c) = currentMusicElement a
        /\ map fst (audioBuffers (volumeCall a c)) = map fst (audioBuffers a)).
Proof.
  intros c cs v a.
  assert (Hset : forall b : AudioManager,
             supported b = true -> settings (applyVolumeSettings b) = settings b).
  { intros b Hb. unfold applyVolumeSettings. rewrite Hb. reflexivity. }
  destruct (clamped_value v) as (H1 & H2 & H3).
  split; [| split; [| split; [| split; [| split; [| split; [| split]]]]]].
  - intros Hs Hr. cbn [fold_left].
    destruct (volumeCall_applied c a Hs Hr) as (Hr1 & Ha1 & Hs1 & E1 & E2 & E3 & E4).
    destruct (volumeCalls_applied cs _ Hs1 Hr1 Ha1) as (Hr2 & Ha2 & F1 & F2 & F3 & F4).
    split; [exact Hr2 |]. split; [exact Ha2 |].
    split; [congruence |]. split; congruence.
  - intros Hs. unfold setMasterVolume. rewrite Hs. cbn [negb].
    rewrite Hset by exact Hs. cbn [withSettings settings masterVolume musicVolume sfxVolume].
    split; [exact H1 |]. split; [exact H2 |]. split; [exact H3 |].
    split; reflexivity.
  - apply volumeCalls_unsupported.
  - unfold settingsInRange, unitVolume. cbn. lra.
  - unfold volumesApplied. cbn.
    split; [reflexivity |]. split; [reflexivity |]. split; [reflexivity |].
    intros name element w [].
  - intros Hs. unfold setSfxVolume. rewrite Hs. cbn [negb].
    rewrite Hset by exact Hs. cbn [withSettings settings masterVolume musicVolume sfxVolume].
    split; [exact H1 |]. split; [exact H2 |]. split; [exact H3 |].
    split; reflexivity.
  - intros Hs. unfold setMusicVolume. rewrite Hs. cbn [negb].
    rewrite Hset by exact Hs. cbn [withSettings settings masterVolume musicVolume sfxVolume].
    split; [exact H1 |]. split; [exact H2 |]. split; [exact H3 |].
    split; reflexivity.
  - intros Hs. unfold applyVolumeSettings in Hset.
    destruct c as [w | w | w]; cbn [volumeCall];
      unfold setMasterVolume, setSfxVolume, setMusicVolume; rewrite Hs; cbn [negb];
      unfold applyVolumeSettings; cbn [withSettings supported]; rewrite Hs; cbn [negb];
      cbn [settings musicEnabled sfxEnabled currentMusicElement audioBuffers];
      (split; [reflexivity |]); (split; [reflexivity |]); (split; [reflexivity |]);
      rewrite map_map; apply map_ext; intros [n [| e v0]]; try reflexivity;
      match goal with |- context [isCurrentMusic ?b e] => destruct (isCurrentMusic b e) end;
      reflexivity.
Qed.

(** ** The helpers outside the engine on concrete inputs *)

Lemma clamp_witness :
  (clamp (3 # 2) 0 1 == 1)%Q /\ (clamp (3 # 2) 1 0 == 0)%Q.
Proof.
  destruct (clamp_stays_within_bounds (3 # 2) 0 1) as (H & _).
  destruct (clamp_stays_within_bounds (3 # 2) 1 0) as (_ & H').
  assert (H01 : (0 <= 1)%Q) by lra.
  destruct (H H01) as (_ & _ & _ & _ & Hmax & _).
  split; [apply Hmax | apply H']; lra.
Defined.

Lemma checkAABBCollision_witness :
  checkAABBCollision (mkRect 0 0 2 2) (mkRect 1 1 2 2) = true
  /\ checkAABBCollision (mkRect 0 0 2 2) (mkRect 2 0 2 2) = false.
Proof.
  destruct (checkAABBCollision_shares_a_cell (mkRect 0 0 2 2) (mkRect 1 1 2 2))
    as (_ & H & _).
  destruct (checkAABBCollision_shares_a_cell (mkRect 0 0 2 2) (mkRect 2 0 2 2))
    as (_ & _ & H' & _).
  split.
  - apply H; cbn; try lia. exists 1, 1. unfold covers. lia.
  - apply H'. reflexivity.
Defined.

Lemma formatTime_witness : formatTime (60 * 12 + 34) = "12:34".
Proof.
  destruct formatTime_prints_two_digit_fields as (H & _).
  apply (H 12 34); lia.
Defined.

Lemma hexToRgb_witness :
  rgbToHex 255 170 51 = "#ffaa33"
  /\ hexToRgb (rgbToHex 255 170 51) = mkRgb 255 170 51.
Proof.
  split; [vm_compute; reflexivity |].
  apply hexToRgb_inverts_rgbToHex; lia.
Defined.

Lemma throttle_witness :
  fold_left throttleStep (map Invoke [1; 2; 3]) (fold_left throttleStep [] throttle)
  = mkThrottled true 1 [1].
Proof.
  destruct (throttle_applies_first_call_of_a_burst Z [] 1 [2; 3]) as (_ & _ & H).
  destruct (H eq_refl) as (E & _). exact E.
Defined.

Lemma isPointInRect_witness :
  isPointInRect (mkCell 2 0) (mkRect 0 0 2 2) = true
  /\ isPointInRect (mkCell 2 0) (mkRect 2 0 2 2) = true
  /\ checkAABBCollision (mkRect 0 0 2 2) (mkRect 2 0 2 2) = false.
Proof.
  destruct (isPointInRect_includes_the_border (mkRect 0 0 2 2) (mkRect 2 0 2 2))
    as (_ & _ & _ & H).
  apply H; cbn; lia.
Defined.

Lemma volume_setters_witness :
  settingsInRange
    (settings (fold_left volumeCall [SetMasterVolume 2; SetMusicVolume (-1)] sampleAudio))
  /\ volumesApplied
       (fold_left volumeCall [SetMasterVolume 2; SetMusicVolume (-1)] sampleAudio)
  /\ (masterVolume (settings (setMasterVolume 2 sampleAudio)) == 1)%Q
  /\ (sfxVolume (settings (setSfxVolume 2 sampleAudio)) == 1)%Q
  /\ masterVolume (settings (setSfxVolume 2 sampleAudio)) = masterVolume (settings sampleAudio)
  /\ (musicVolume (settings (setMusicVolume 2 sampleAudio)) == 1)%Q.
Proof.
  destruct (volume_setters_keep_volumes_in_range
              (SetMasterVolume 2) [SetMusicVolume (-1)] 2 sampleAudio)
    as (H & H' & _ & _ & _ & Hsfx & Hmus & _).
  assert (Hr : settingsInRange (settings sampleAudio))
    by (unfold settingsInRange, unitVolume; cbn; lra).
  assert (H12 : (1 < 2)%Q) by lra.
  destruct (H eq_refl Hr) as (H1 & H2 & _).
  destruct (H' eq_refl) as (_ & _ & H3 & _).
  destruct (Hsfx eq_refl) as (_ & _ & H4 & H5 & _).
  destruct (Hmus eq_refl) as (_ & _ & H6 & _).
  split; [exact H1 |]. split; [exact H2 |]. split; [apply H3; exact H12 |].
  split; [apply H4; exact H12 |]. split; [exact H5 |]. apply H6; exact H12.
Defined.
